(** * build.py: macOS build helper for the ZDoom family of source ports

    A shallow embedding of [build.py] (classes [Target] and [Builder]) and
    the properties of its orchestration pipeline.

    Python [str] values are Rocq strings over the ASCII alphabet, the file
    system is a finite map from resolved paths to nodes, and every method
    that touches the outside world is a computation in a state-and-exception
    monad over a [World]. *)

From Stdlib Require Import Ascii String NArith ZArith.
From stdpp Require Import base option list strings sorting gmap fin_maps.

(** ** Python strings *)

Module Str.

Definition code (c : ascii) : N := N_of_ascii c.

Definition in_range (lo hi : N) (c : ascii) : bool :=
  ((lo <=? code c) && (code c <=? hi))%N.

Definition is_upper : ascii → bool := in_range 65 90.
Definition is_lower : ascii → bool := in_range 97 122.
Definition is_digit : ascii → bool := in_range 48 57.

(** [\w] of the [re] module on ASCII text: letters, digits, underscore.
    On other characters Python decides by the Unicode tables, which are
    not modelled: what is stated about matching is stated for ASCII
    text. *)
Definition is_word (c : ascii) : bool :=
  is_upper c || is_lower c || is_digit c || (code c =? 95)%N.

(** [\s] of the [re] module for a [str] pattern on ASCII text, which is
    [str.isspace] on a character: tab, newline, vertical tab, form feed,
    carriage return, the four separators 28-31, and the space. *)
Definition is_space (c : ascii) : bool :=
  in_range 9 13 c || in_range 28 31 c || (code c =? 32)%N.

(** [str.lower] on one character. *)
Definition lower_char (c : ascii) : ascii :=
  if is_upper c then ascii_of_N (code c + 32) else c.

(** [str.lower] *)
Fixpoint lower (s : string) : string :=
  match s with
  | "" => ""
  | String c s' => String (lower_char c) (lower s')
  end.

(** [s.startswith(p)] *)
Fixpoint startswith (p s : string) : bool :=
  match p, s with
  | "", _ => true
  | String a p', String b s' => Ascii.eqb a b && startswith p' s'
  | String _ _, "" => false
  end.

(** [s.endswith(p)] for a one-character [p] *)
Fixpoint endswith_char (c : ascii) (s : string) : bool :=
  match s with
  | "" => false
  | String a "" => Ascii.eqb a c
  | String _ s' => endswith_char c s'
  end.

(** [s[n:]] for [0 <= n] *)
Fixpoint drop (n : nat) (s : string) : string :=
  match n, s with
  | O, _ => s
  | S n', String _ s' => drop n' s'
  | S _, "" => ""
  end.

(** [s.lstrip(c)] for a one-character [c] *)
Fixpoint lstrip (c : ascii) (s : string) : string :=
  match s with
  | String a s' => if Ascii.eqb a c then lstrip c s' else s
  | "" => ""
  end.

(** [sep.join(l)] *)
Fixpoint join (sep : string) (l : list string) : string :=
  match l with
  | [] => ""
  | [x] => x
  | x :: l' => x +:+ sep +:+ join sep l'
  end.

(** Every character of [s] is in the class [f]. *)
Fixpoint all (f : ascii → bool) (s : string) : bool :=
  match s with
  | "" => true
  | String c s' => f c && all f s'
  end.

(** Truth value of an optional string: [None] and [''] are false. *)
Definition truthy (o : option string) : bool :=
  match o with
  | Some (String _ _) => true
  | _ => false
  end.

(** Universal-newline translation of a file opened in text mode:
    [\r\n] and a lone [\r] are read as [\n]. *)
Fixpoint translate_newlines (s : string) : string :=
  match s with
  | "" => ""
  | String c s' =>
      if Ascii.eqb c "013"
      then String "010" (match s' with
                         | String "010" s'' => translate_newlines s''
                         | _ => translate_newlines s'
                         end)
      else String c (translate_newlines s')
  end.

(** [str.splitlines(keepends=True)] on translated text: every line keeps
    its terminating newline; a final line without one is kept too. *)
Fixpoint split_keepends (s : string) : list string :=
  match s with
  | "" => []
  | String c s' =>
      if Ascii.eqb c "010" then String c "" :: split_keepends s'
      else match split_keepends s' with
           | [] => [String c ""]
           | l :: ls => String c l :: ls
           end
  end.

(** [open(path).readlines()] on the file's content *)
Definition readlines (content : string) : list string :=
  split_keepends (translate_newlines content).

End Str.

(** ** The fragment of [re] that the project pattern uses

    A pattern is a sequence of character classes, each taken once or under
    a greedy star, and each either inside or outside capture group 1.  The
    matcher backtracks like [re] does: a star first tries the longest run
    and gives characters back one at a time. *)

Module Re.

Inductive quant := Once | Many.

Record atom := Atom { cls : ascii → bool; rep : quant; captured : bool }.

Definition keep (a : atom) (c : ascii) (acc : string) : string :=
  if captured a then String c acc else acc.

(** A greedy star over class [f], continuing with [k]. The accumulator
    holds group 1 in reverse. *)
Fixpoint star (f : ascii → bool) (cap : bool)
    (k : string → string → option string) (acc s : string) : option string :=
  match s with
  | String c s' =>
      if f c then
        match star f cap k (if cap then String c acc else acc) s' with
        | Some g => Some g
        | None => k acc s
        end
      else k acc s
  | "" => k acc s
  end.

(** Match the pattern at the start of [s]; the result is group 1. *)
Fixpoint match_here (p : list atom) (acc s : string) : option string :=
  match p with
  | [] => Some (String.rev acc)
  | a :: p' =>
      match rep a with
      | Once =>
          match s with
          | String c s' =>
              if cls a c then match_here p' (keep a c acc) s' else None
          | "" => None
          end
      | Many => star (cls a) (captured a) (match_here p') acc s
      end
  end.

(** [re.search]: the leftmost position where the pattern matches. *)
Fixpoint search (p : list atom) (s : string) : option string :=
  match match_here p "" s with
  | Some g => Some g
  | None =>
      match s with
      | "" => None
      | String _ s' => search p s'
      end
  end.

(** The pattern matches at no position of [pre ++ rest] that lies in
    [pre]. *)
Fixpoint no_match_in (p : list atom) (pre rest : string) : bool :=
  match pre with
  | "" => true
  | String _ pre' =>
      match match_here p "" (pre +:+ rest) with
      | Some _ => false
      | None => no_match_in p pre' rest
      end
  end.

(** What follows a run of class [f] does not start with a character of
    that class. *)
Definition stops (f : ascii → bool) (s : string) : Prop :=
  match s with
  | "" => True
  | String c _ => f c = false
  end.

(** The least number of characters group 1 holds. *)
Fixpoint min_group (p : list atom) : nat :=
  match p with
  | [] => 0
  | a :: p' =>
      match rep a, captured a with
      | Once, true => S (min_group p')
      | _, _ => min_group p'
      end
  end.

(** A literal character under [re.IGNORECASE]. *)
Definition lit (c : ascii) : atom :=
  Atom (λ x, Ascii.eqb (Str.lower_char x) (Str.lower_char c)) Once false.

Fixpoint lits (s : string) : list atom :=
  match s with
  | "" => []
  | String c s' => lit c :: lits s'
  end.

Definition spaces : atom := Atom Str.is_space Many false.

(** [(\w+)]: one word character, then a greedy run of them, in group 1. *)
Definition word_group : list atom :=
  [Atom Str.is_word Once true; Atom Str.is_word Many true].

(** [r'project\s*\(\s*(\w+)\s*\)'] with [re.IGNORECASE] *)
Definition project_pattern : list atom :=
  lits "project" ++ [spaces; lit "("; spaces] ++ word_group
    ++ [spaces; lit ")"].

End Re.

(** ** Exceptions and the world *)

Inductive exn :=
| AssertionError
| KeyError (key : string)
| AttributeError (name : string)
| FileNotFoundError (path : string)
| FileExistsError (path : string)
| NotADirectoryError (path : string)
| IsADirectoryError (path : string)
| OSError (msg : string)
| UnicodeDecodeError
| RecursionError
| TypeError
| CalledProcessError (argv : list string) (code : Z).

(** An entry of a tar archive, as [tarfile.TarInfo] has it. *)
Inductive tartype := REGTYPE | DIRTYPE | SYMTYPE.

Record TarInfo := mkTarInfo {
  ti_name : string;
  ti_type : tartype;
  ti_uname : string;
  ti_gname : string;
  ti_uid : Z;
  ti_gid : Z
}.

Inductive content :=
| Bytes (data : string)
| TarBz2 (members : list TarInfo).

Inductive node :=
| Dir
| File (data : content)
| Link (target : string).

(** The file system: resolved absolute paths, as lists of names, to nodes.
    The root [[]] is always a directory and is not stored. *)
Abbreviation FS := (gmap (list string) node).

Record identity := mkIdentity {
  user_name : string; user_id : Z; group_name : string; group_id : Z
}.

Inductive event :=
| EvMkdir (at_ : list string)
| EvSymlink (target : string) (at_ : list string)
| EvRmtree (at_ : list string)
| EvRemove (at_ : list string)
| EvWrite (at_ : list string) (data : content)
| EvSetenv (key value : string)
| EvExec (argv : list string) (cwd : list string).

Record World := mkWorld {
  fs : FS;
  environ : gmap string string;
  cwd : list string;
  whoami : identity;
  trace : list event
}.

Definition with_fs (f : FS) (w : World) : World :=
  mkWorld f (environ w) (cwd w) (whoami w) (trace w).

Definition with_environ (e : gmap string string) (w : World) : World :=
  mkWorld (fs w) e (cwd w) (whoami w) (trace w).

Definition log (e : event) (w : World) : World :=
  mkWorld (fs w) (environ w) (cwd w) (whoami w) (trace w ++ [e]).

(** ** Computations: state over the world, with exceptions *)

Definition M (A : Type) : Type := World → (exn + A) * World.

Definition ret {A} (a : A) : M A := λ w, (inr a, w).
Definition raise {A} (e : exn) : M A := λ w, (inl e, w).
Definition bind {A B} (m : M A) (k : A → M B) : M B :=
  λ w, match m w with
       | (inr a, w') => k a w'
       | (inl e, w') => (inl e, w')
       end.
Definition get : M World := λ w, (inr w, w).
Definition modify (f : World → World) : M unit := λ w, (inr tt, f w).

Declare Scope py_scope.
Delimit Scope py_scope with py.
Notation "'let*' x ':=' m 'in' k" := (bind m (λ x, k))
  (at level 10, x name, m at level 100, k at level 200) : py_scope.

(** [for x in l: body] *)
Fixpoint for_each {A} (l : list A) (body : A → M unit) : M unit :=
  match l with
  | [] => ret tt
  | x :: l' => (let* _ := body x in for_each l' body)%py
  end.

(** ** The [os], [os.path] and [shutil] calls the script makes *)

Module Posix.

Definition sep : string := "/".

(** The fields of a path between separators, empty ones included. *)
Fixpoint fields (s : string) : list string :=
  match s with
  | "" => [""]
  | String c s' =>
      if Ascii.eqb c "/" then "" :: fields s'
      else match fields s' with
           | [] => [String c ""]
           | f :: fs => String c f :: fs
           end
  end.

Definition nonempty (s : string) : bool :=
  match s with "" => false | _ => true end.

Definition components (s : string) : list string := filter nonempty (fields s).

Definition isabs (s : string) : bool := Str.startswith "/" s.

(** Names from the root: a relative path starts at the working directory.
    [.] and [..] stay in the list; path resolution ([walk]) interprets
    them, as the operating system does. *)
Definition names (w : World) (s : string) : list string :=
  if isabs s then components s else cwd w ++ components s.

(** [os.path.join(a, b)] *)
Definition join (a b : string) : string :=
  if isabs b then b
  else if negb (nonempty a) || Str.endswith_char "/" a then a +:+ b
  else a +:+ "/" +:+ b.

Inductive mode :=
| Existing   (* follow every link, the entry must exist *)
| Creating   (* follow every link, the last name may be absent *)
| NoFollow.  (* do not look at the last name at all *)

Definition is_nil {A} (l : list A) : bool :=
  match l with [] => true | _ => false end.

(** MAXSYMLINKS of the host platform *)
Definition symloop_max : nat := 32.

Definition node_at (f : FS) (q : list string) : option node :=
  match q with [] => Some Dir | _ => f !! q end.

Definition is_dir_node (o : option node) : bool :=
  match o with Some Dir => true | _ => false end.

(** The directory above [q]; the root is above itself. *)
Definition parent (q : list string) : list string := removelast q.

(** Path resolution: walk the names [todo] from the directory [cur];
    [n] bounds the number of symbolic links that are expanded.  The name
    [.] stays in the directory and [..] goes to the one above it (which is
    a directory in every file system; in a map that is none, the walk
    ends).  The target of a link is walked the same way, from the
    directory that holds the link when it is relative. *)
Fixpoint walk (n : nat) (m : mode) (f : FS) (cur todo : list string)
    : option (list string) :=
  (fix go (cur todo : list string) : option (list string) :=
     match todo with
     | [] => Some cur
     | c :: rest =>
         if decide (c = ".") then go cur rest
         else if decide (c = "..") then
           if is_dir_node (node_at f (parent cur)) then go (parent cur) rest
           else None
         else
           match m, rest with
           | NoFollow, [] => Some (cur ++ [c])
           | _, _ =>
               match f !! (cur ++ [c]) with
               | Some Dir => go (cur ++ [c]) rest
               | Some (File _) => if is_nil rest then Some (cur ++ [c]) else None
               | Some (Link t) =>
                   match n with
                   | O => None
                   | S n' =>
                       walk n' m f (if isabs t then [] else cur)
                         (components t ++ rest)
                   end
               | None =>
                   match m with
                   | Creating => if is_nil rest then Some (cur ++ [c]) else None
                   | _ => None
                   end
               end
           end
     end) cur todo.

(** The resolved path [q] is a directory. *)
Definition dir_at (f : FS) (q : list string) : Prop :=
  is_dir_node (node_at f q) = true.

(** [os.stat]: the node a path leads to; a trailing separator asks for a
    directory; the empty path names nothing. *)
Definition stat (w : World) (s : string) : option node :=
  if negb (nonempty s) then None else
  match walk symloop_max Existing (fs w) [] (names w s) with
  | Some q =>
      match node_at (fs w) q with
      | Some Dir => Some Dir
      | Some nd => if Str.endswith_char "/" s then None else Some nd
      | None => None
      end
  | None => None
  end.

(** [os.path.exists]: false for a missing entry and for a broken link *)
Definition path_exists (w : World) (s : string) : bool :=
  match stat w s with Some _ => true | None => false end.

(** [os.path.isdir] *)
Definition isdir (w : World) (s : string) : bool := is_dir_node (stat w s).

(** Where a new entry named by [ns] would go: its parent directory is
    resolved, the entry itself is not looked at. *)
Definition locate (w : World) (ns : list string) : option (list string) :=
  walk symloop_max NoFollow (fs w) [] ns.

(** [os.lstat] *)
Definition lstat_names (w : World) (ns : list string) : option node :=
  match locate w ns with
  | Some q => node_at (fs w) q
  | None => None
  end.

(** [os.mkdir] on names.  Where the parent does not resolve the error is
    [FileNotFoundError]; the system raises [NotADirectoryError] instead
    when the path runs through a regular file.  Both are [OSError]s, and
    nothing below tells them apart. *)
Definition mkdir_names (s : string) (ns : list string) : M unit := λ w,
  match locate w ns with
  | None => (inl (FileNotFoundError s), w)
  | Some q =>
      match node_at (fs w) q with
      | Some _ => (inl (FileExistsError s), w)
      | None => (inr tt, log (EvMkdir q) (with_fs (<[q := Dir]> (fs w)) w))
      end
  end.

Definition is_FileExistsError (e : exn) : bool :=
  match e with FileExistsError _ => true | _ => false end.

Definition is_OSError (e : exn) : bool :=
  match e with
  | FileNotFoundError _ | FileExistsError _ | NotADirectoryError _
  | IsADirectoryError _ | OSError _ => true
  | _ => false
  end.

Definition exists_names (w : World) (ns : list string) : bool :=
  match walk symloop_max Existing (fs w) [] ns with
  | Some q => match node_at (fs w) q with Some _ => true | None => false end
  | None => false
  end.

Definition isdir_names (w : World) (ns : list string) : bool :=
  match walk symloop_max Existing (fs w) [] ns with
  | Some q => is_dir_node (node_at (fs w) q)
  | None => false
  end.

(** [os.makedirs(name, exist_ok=...)], by recursion on the names taken from
    the end, as the library recurses on [os.path.split]: a missing parent
    is created first (a [FileExistsError] from that is passed over) and,
    when the last name is [.], that is all; then the directory itself is
    made; with [exist_ok] an error is forgiven when the directory is
    there. *)
Fixpoint makedirs_rev (exist_ok : bool) (s : string) (rns : list string)
    : M unit := λ w,
  let this := mkdir_names s (rev rns) in
  let forgiving : M unit := λ w1,
    match this w1 with
    | (inl e, w2) =>
        if is_OSError e && exist_ok && isdir_names w2 (rev rns)
        then (inr tt, w2) else (inl e, w2)
    | r => r
    end in
  match rns with
  | [] => forgiving w
  | c :: rparent =>
      let made_parent : M unit := λ w1,
        if decide (c = ".") then (inr tt, w1) else forgiving w1 in
      if exists_names w (rev rparent) then forgiving w
      else
        match makedirs_rev exist_ok s rparent w with
        | (inl e, w1) =>
            if is_FileExistsError e then made_parent w1 else (inl e, w1)
        | (inr _, w1) => made_parent w1
        end
  end.

Definition makedirs (s : string) (exist_ok : bool) : M unit := λ w,
  makedirs_rev exist_ok s (rev (names w s)) w.

(** [os.symlink(src, dst)] *)
Definition symlink (src dst : string) : M unit := λ w,
  match locate w (names w dst) with
  | None => (inl (FileNotFoundError dst), w)
  | Some q =>
      match node_at (fs w) q with
      | Some _ => (inl (FileExistsError dst), w)
      | None =>
          (inr tt, log (EvSymlink src q) (with_fs (<[q := Link src]> (fs w)) w))
      end
  end.

(** Writing a file through [open(path, 'wb')] *)
Definition write_file (s : string) (data : content) : M unit := λ w,
  match walk symloop_max Creating (fs w) [] (names w s) with
  | None => (inl (FileNotFoundError s), w)
  | Some q =>
      match node_at (fs w) q with
      | Some Dir => (inl (IsADirectoryError s), w)
      | _ => (inr tt, log (EvWrite q data) (with_fs (<[q := File data]> (fs w)) w))
      end
  end.

(** The last name of a path, [os.path.basename] *)
Definition basename (s : string) : string := List.last (fields s) "".

(** [shutil.copy(src, dst)] *)
Definition copy (src dst : string) : M unit := λ w,
  match stat w src with
  | Some (File data) =>
      write_file (if isdir w dst then join dst (basename src) else dst) data w
  | Some Dir => (inl (IsADirectoryError src), w)
  | _ => (inl (FileNotFoundError src), w)
  end.

(** [shutil.rmtree(path)]: the directory and everything below it.  A
    link is refused and a file is no directory: both raise and both leave
    the file system as it is (for a link to a directory that is named with
    a trailing separator the library raises only after it has emptied the
    directory the link leads to; that case is not modelled). *)
Definition rmtree (s : string) : M unit := λ w,
  match locate w (names w s) with
  | None => (inl (FileNotFoundError s), w)
  | Some q =>
      match q, fs w !! q with
      | _ :: _, Some Dir =>
          (inr tt,
           log (EvRmtree q)
             (with_fs (filter (λ kv, ¬ q `prefix_of` kv.1) (fs w)) w))
      | _, Some (Link _) =>
          (inl (OSError "Cannot call rmtree on a symbolic link"), w)
      | _, Some (File _) => (inl (NotADirectoryError s), w)
      | _, _ => (inl (FileNotFoundError s), w)
      end
  end.

(** [os.remove(path)] *)
Definition remove (s : string) : M unit := λ w,
  match locate w (names w s) with
  | None => (inl (FileNotFoundError s), w)
  | Some q =>
      match fs w !! q with
      | Some Dir => (inl (IsADirectoryError s), w)
      | Some _ => (inr tt, log (EvRemove q) (with_fs (delete q (fs w)) w))
      | None => (inl (FileNotFoundError s), w)
      end
  end.

(** The names in the directory at the resolved path [q] *)
Definition children (f : FS) (q : list string) : list string :=
  omap (λ kv, match list.last kv.1 with
              | Some c => if decide (kv.1 = q ++ [c]) then Some c else None
              | None => None
              end) (map_to_list f).

(** [os.listdir(path)] *)
Definition listdir (s : string) : M (list string) := λ w,
  match walk symloop_max Existing (fs w) [] (names w s) with
  | Some q =>
      match node_at (fs w) q with
      | Some Dir => (inr (children (fs w) q), w)
      | Some _ => (inl (NotADirectoryError s), w)
      | None => (inl (FileNotFoundError s), w)
      end
  | None => (inl (FileNotFoundError s), w)
  end.

(** An [os.DirEntry] *)
Record DirEntry := mkDirEntry { de_name : string; de_path : string }.

(** [os.scandir(path)] *)
Definition scandir (s : string) : M (list DirEntry) :=
  (let* l := listdir s in ret (map (λ n, mkDirEntry n (join s n)) l))%py.

(** [DirEntry.is_dir()], which follows links *)
Definition is_dir (d : DirEntry) (w : World) : bool := isdir w (de_path d).

(** Reading a text file, [open(path).read()].  The content is returned
    as it is stored: for ASCII content that is what decoding yields under
    every locale encoding the interpreter starts with; what other bytes
    decode to, or whether they raise [UnicodeDecodeError], depends on the
    locale and is not modelled, so statements about the text that was
    read assume that it is ASCII. *)
Definition read_text (s : string) : M string := λ w,
  match stat w s with
  | Some (File (Bytes data)) => (inr data, w)
  | Some (File (TarBz2 _)) => (inl UnicodeDecodeError, w)
  | Some Dir => (inl (IsADirectoryError s), w)
  | _ => (inl (FileNotFoundError s), w)
  end.

End Posix.

(** A name of a directory entry holds no separator. *)
Fixpoint has_sep (s : string) : bool :=
  match s with
  | "" => false
  | String c s' => Ascii.eqb c "/" || has_sep s'
  end.

Definition good_name (s : string) : Prop := has_sep s = false.

(** Every name on every path of the file system is one. *)
Definition names_wf (f : FS) : Prop :=
  ∀ k nd, f !! k = Some nd → Forall good_name k.

(** A world whose paths, and whose working directory, are made of names. *)
Definition world_wf (w : World) : Prop :=
  names_wf (fs w) ∧ Forall good_name (cwd w).

(** [w'] has every entry of [w] and the same working directory. *)
Definition extends (w w' : World) : Prop :=
  fs w ⊆ fs w' ∧ cwd w' = cwd w.

(** A computation that never deletes or replaces an entry. *)
Definition growing {A} (m : M A) : Prop :=
  ∀ w r w', m w = (r, w') → extends w w'.

(** ** [subprocess] and [tarfile] *)

(** What a child process did: its exit status, what it printed, and the file
    system it left. *)
Record completed := mkCompleted {
  returncode : Z;
  stdout : string;
  fs_after : FS
}.

(** The external tools (git, cmake, make, open, sysctl): any function of the
    command line, the working directory, the environment and the file
    system; [None] when the executable cannot be started. *)
Definition shell : Type :=
  list string → list string → gmap string string → FS → option completed.

Module subprocess.

(** The query for the number of processors *)
Definition sysctl_argv : list string := ["sysctl"; "-n"; "hw.ncpu"].

Definition run (sh : shell) (argv : list string) (dir : option string)
    : M completed := λ w,
  let start :=
    match dir with
    | None => Some (cwd w)
    | Some d =>
        if Posix.isdir w d
        then Posix.walk Posix.symloop_max Posix.Existing (fs w) [] (Posix.names w d)
        else None
    end in
  match start with
  | None =>
      (inl (if Posix.path_exists w (default "" dir)
            then NotADirectoryError (default "" dir)
            else FileNotFoundError (default "" dir)), w)
  | Some q =>
      match sh argv q (environ w) (fs w) with
      | None => (inl (FileNotFoundError (default "" (head argv))), w)
      | Some c => (inr c, log (EvExec argv q) (with_fs (fs_after c) w))
      end
  end.

(** [subprocess.check_call(args, cwd=dir)] *)
Definition check_call (sh : shell) (argv : list string) (dir : option string)
    : M unit :=
  (let* c := run sh argv dir in
   if (returncode c =? 0)%Z then ret tt
   else raise (CalledProcessError argv (returncode c)))%py.

(** [subprocess.check_output(args, cwd=dir)] *)
Definition check_output (sh : shell) (argv : list string) (dir : option string)
    : M string :=
  (let* c := run sh argv dir in
   if (returncode c =? 0)%Z then ret (stdout c)
   else raise (CalledProcessError argv (returncode c)))%py.

Fixpoint all_ascii (s : string) : bool :=
  match s with
  | "" => true
  | String c s' => (Str.code c <? 128)%N && all_ascii s'
  end.

(** [bytes.decode('ascii')] *)
Definition decode_ascii (s : string) : M string :=
  if all_ascii s then ret s else raise UnicodeDecodeError.

Fixpoint lstrip_space (s : string) : string :=
  match s with
  | String c s' => if Str.is_space c then lstrip_space s' else s
  | "" => ""
  end.

(** [str.strip()] *)
Definition strip (s : string) : string :=
  lstrip_space (String.rev (lstrip_space (String.rev s))).

End subprocess.

Module tarfile.

(** [TarFile.gettarinfo(name, arcname)]: the member name is [arcname]
    without its leading separators; owner and group are those of the file,
    which belong to the invoking user. *)
Definition gettarinfo (w : World) (ty : tartype) (arcname : string) : TarInfo :=
  mkTarInfo (Str.lstrip "/" arcname) ty
    (user_name (whoami w)) (group_name (whoami w))
    (user_id (whoami w)) (group_id (whoami w)).

Definition sorted (l : list string) : list string := merge_sort String.le l.

(** The loop of [TarFile.add] over the entries of a directory; [add] is
    the recursive call. *)
Fixpoint add_each (add : string → string → exn + list (string * TarInfo))
    (name arcname : string) (l : list string)
    : exn + list (string * TarInfo) :=
  match l with
  | [] => inr []
  | f :: l' =>
      match add (Posix.join name f) (Posix.join arcname f) with
      | inl e => inl e
      | inr ms =>
          match add_each add name arcname l' with
          | inl e => inl e
          | inr ms' => inr (ms ++ ms')
          end
      end
  end.

(** [TarFile.add(name, arcname, filter=filter)]: the file or link itself,
    or the directory and then its entries in sorted order.  [n] bounds the
    depth of the tree.  Every member is paired with the file it came from. *)
Fixpoint add (n : nat) (w : World) (filter : TarInfo → TarInfo)
    (name arcname : string) : exn + list (string * TarInfo) :=
  match n with
  | O => inl RecursionError
  | S n' =>
      match Posix.lstat_names w (Posix.names w name) with
      | None => inl (FileNotFoundError name)
      | Some (File _) => inr [(name, filter (gettarinfo w REGTYPE arcname))]
      | Some (Link _) => inr [(name, filter (gettarinfo w SYMTYPE arcname))]
      | Some Dir =>
          match Posix.listdir name w with
          | (inl e, _) => inl e
          | (inr l, _) =>
              match add_each (add n' w filter) name arcname (sorted l) with
              | inl e => inl e
              | inr ms =>
                  inr ((name, filter (gettarinfo w DIRTYPE arcname)) :: ms)
              end
          end
      end
  end.

(** [with tarfile.open(path, 'w:bz2') as package: package.add(name,
    filter=filter)]: the archive file is created first, the members are
    collected, and the archive is written out when the block is left. *)
Definition create (path name : string) (filter : TarInfo → TarInfo)
    : M (list (string * TarInfo)) := λ w,
  match Posix.write_file path (TarBz2 []) w with
  | (inl e, w1) => (inl e, w1)
  | (inr _, w1) =>
      match add (S (size (fs w1))) w1 filter name name with
      | inl e => (inl e, w1)
      | inr ms =>
          match Posix.write_file path (TarBz2 (ms.*2)) w1 with
          | (inl e, w2) => (inl e, w2)
          | (inr _, w2) => (inr ms, w2)
          end
      end
  end.

End tarfile.

(** ** class Target *)

(** The value of [post_build]: the only function the script ever stores
    there is [Target._copy_moltenvk]. *)
Inductive hook := copy_moltenvk_hook.

Record Target := mkTarget {
  name : string;
  url : option string;
  cmake_options : list (string * string);
  post_build : option hook
}.

(** The parsed command line, [argparse.Namespace] *)
Module argparse.
Record Namespace := mkNamespace {
  target : option string;
  source_path : option string;
  xcode : bool;
  checkout_commit : option string;
  build_path : option string;
  sdk_path : option string;
  skip_generate : bool;
  create_package : bool;
  rebuild_prefix : bool
}.
End argparse.

Record Builder := mkBuilder {
  root_path : string;
  deps_path : string;
  prefix_path : string;
  include_path : string;
  lib_path : string;
  xcode : bool;
  checkout_commit : option string;
  generate : bool;
  rebuild_prefix : bool;
  build_path : string;
  sdk_path : option string;
  create_package : bool;
  target : Target;
  source_path : string
}.

(** [d[k] = v] on a dict, which keeps insertion order *)
Fixpoint dict_set (k v : string) (d : list (string * string))
    : list (string * string) :=
  match d with
  | [] => [(k, v)]
  | (k', v') :: d' =>
      if decide (k' = k) then (k, v) :: d' else (k', v') :: dict_set k v d'
  end.

(** [d[k]] *)
Fixpoint dict_get {V} (k : string) (d : list (string * V)) : option V :=
  match d with
  | [] => None
  | (k', v) :: d' => if decide (k' = k) then Some v else dict_get k d'
  end.

Module Target.

Definition _SETUP_PREFIX : string := "_setup_".

Definition __init__ (name : string) : Target := mkTarget name None [] None.

Definition _assign_zdoom_raze_cmake_options (self : Target) (builder : Builder)
    : Target :=
  let extra_libs :=
    [ "mpg123";
      (* FluidSynth with dependencies *)
      "fluidsynth"; "instpatch-1.0"; "glib-2.0"; "gobject-2.0"; "intl";
      "ffi"; "pcre";
      (* Sndfile with dependencies *)
      "sndfile"; "ogg"; "vorbis"; "vorbisenc"; "FLAC"; "opus" ] in
  let linker_args :=
    "-framework AudioUnit -framework AudioToolbox -framework Carbon "
    +:+ "-framework CoreAudio -framework CoreMIDI -framework CoreVideo -liconv" in
  let linker_args :=
    foldl (λ acc lib, acc +:+ " " +:+ lib_path builder +:+ "lib" +:+ lib +:+ ".a")
      linker_args extra_libs in
  let opts := cmake_options self in
  let opts := dict_set "CMAKE_EXE_LINKER_FLAGS" linker_args opts in
  let opts := dict_set "FORCE_INTERNAL_ZLIB" "YES" opts in
  let opts := dict_set "FORCE_INTERNAL_BZIP2" "YES" opts in
  let opts := dict_set "PK3_QUIET_ZIPDIR" "YES" opts in
  let opts := dict_set "DYN_OPENAL" "NO" opts in
  (* Explicit OpenAL configuration to avoid selection of Apple's framework *)
  let opts := dict_set "OPENAL_INCLUDE_DIR" (include_path builder) opts in
  let opts := dict_set "OPENAL_LIBRARY" (lib_path builder +:+ "libopenal.a") opts in
  mkTarget (name self) (url self) opts (post_build self).

Definition _setup_gzdoom (self : Target) (builder : Builder) : Target :=
  let self := mkTarget (name self) (Some "https://github.com/coelckers/gzdoom.git")
                (cmake_options self) (Some copy_moltenvk_hook) in
  _assign_zdoom_raze_cmake_options self builder.

Definition _setup_qzdoom (self : Target) (builder : Builder) : Target :=
  let self := mkTarget (name self) (Some "https://github.com/madame-rachelle/qzdoom.git")
                (cmake_options self) (Some copy_moltenvk_hook) in
  _assign_zdoom_raze_cmake_options self builder.

Definition _setup_lzdoom (self : Target) (builder : Builder) : Target :=
  let self := mkTarget (name self) (Some "https://github.com/drfrag666/gzdoom.git")
                (cmake_options self) (post_build self) in
  _assign_zdoom_raze_cmake_options self builder.

Definition _setup_raze (self : Target) (builder : Builder) : Target :=
  let self := mkTarget (name self) (Some "https://github.com/coelckers/Raze.git")
                (cmake_options self) (post_build self) in
  _assign_zdoom_raze_cmake_options self builder.

(** The attributes the class body defines, in the order of [dir(Target)].
    The attributes inherited from [object] all start with two underscores
    and are left out. *)
Definition dir : list string :=
  [ "_SETUP_PREFIX"; "__init__"; "_assign_zdoom_raze_cmake_options";
    "_copy_moltenvk"; "_setup_gzdoom"; "_setup_lzdoom"; "_setup_qzdoom";
    "_setup_raze"; "create_targets"; "get_target_names"; "setup" ].

(** [getattr(Target, attr)] for the attributes that can be called as a
    setup function *)
Definition getattr (attr : string) : option (Target → Builder → Target) :=
  if decide (attr = "_setup_gzdoom") then Some _setup_gzdoom
  else if decide (attr = "_setup_qzdoom") then Some _setup_qzdoom
  else if decide (attr = "_setup_lzdoom") then Some _setup_lzdoom
  else if decide (attr = "_setup_raze") then Some _setup_raze
  else None.

Definition setup (self : Target) (builder : Builder) : exn + Target :=
  match getattr (_SETUP_PREFIX +:+ name self) with
  | Some setup_func => inr (setup_func self builder)
  | None => inl (AttributeError (_SETUP_PREFIX +:+ name self))
  end.

Definition get_target_names : list string :=
  foldl (λ targets member,
           if Str.startswith _SETUP_PREFIX member
           then targets ++ [Str.drop (String.length _SETUP_PREFIX) member]
           else targets) [] dir.

Definition create_targets : list (string * Target) :=
  map (λ name, (name, __init__ name)) get_target_names.

Definition _copy_moltenvk (builder : Builder) : M unit :=
  let molten_lib := "libMoltenVK.dylib" in
  let src_path := lib_path builder +:+ molten_lib in
  let dst_path := build_path builder in
  let dst_path :=
    if xcode builder
    then (* TODO: Support other configurations *)
         dst_path +:+ "Debug" +:+ Posix.sep
    else dst_path in
  let dst_path :=
    dst_path +:+ name (target builder) +:+ ".app/Contents/MacOS" +:+ Posix.sep in
  (let* _ := Posix.makedirs dst_path true in
   let dst_path := dst_path +:+ molten_lib in
   let* w := get in
   if negb (Posix.path_exists w dst_path) then
     let copy_func := if xcode builder then Posix.symlink else Posix.copy in
     copy_func src_path dst_path
   else ret tt)%py.

(** Calling the stored [post_build] *)
Definition call_hook (h : hook) (builder : Builder) : M unit :=
  match h with
  | copy_moltenvk_hook => _copy_moltenvk builder
  end.

End Target.

(** ** class Builder *)

Module Builder.

Import Posix.

Definition lift {A} (r : exn + A) : M A :=
  match r with inl e => raise e | inr a => ret a end.

(** [targets[key]] *)
Definition getitem (targets : list (string * Target)) (key : string) : M Target :=
  match dict_get key targets with
  | Some t => ret t
  | None => raise (KeyError key)
  end.

(** The first line the pattern matches decides; its group 1 is lowered. *)
Fixpoint scan_lines (lines : list string) : option string :=
  match lines with
  | [] => None
  | line :: rest =>
      match Re.search Re.project_pattern line with
      | Some g => Some (Str.lower g)
      | None => scan_lines rest
      end
  end.

(** [_detect_target] reads [self.source_path] and assigns [self.target];
    here it takes the one and returns the other. *)
Definition _detect_target (source_path : string)
    (targets : list (string * Target)) : M Target :=
  let cmakelists_path := source_path +:+ sep +:+ "CMakeLists.txt" in
  (let* text := read_text cmakelists_path in
   let project_name := scan_lines (Str.readlines text) in
   if Str.truthy project_name
   then getitem targets (default "" project_name)
   else raise AssertionError)%py.

(** [Builder(args)], after [_parse_arguments] has returned the arguments
    ([parsed] below says which it returns); [script_dir] is
    [os.path.dirname(os.path.abspath(__file__))]. *)
Definition __init__ (script_dir : string) (arguments : argparse.Namespace)
    : M Builder :=
  let root_path := script_dir +:+ sep in
  let deps_path := root_path +:+ "deps" +:+ sep in
  let prefix_path := root_path +:+ "prefix" +:+ sep in
  let include_path := prefix_path +:+ "include" +:+ sep in
  let lib_path := prefix_path +:+ "lib" +:+ sep in
  let xcode := argparse.xcode arguments in
  let targets := Target.create_targets in
  (let* ts :=
     if Str.truthy (argparse.target arguments) then
       let* t := getitem targets (default "" (argparse.target arguments)) in
       ret (t, root_path +:+ "source" +:+ sep +:+ name t)
     else if Str.truthy (argparse.source_path arguments) then
       let source_path := default "" (argparse.source_path arguments) in
       let* t := _detect_target source_path targets in
       ret (t, source_path)
     else raise AssertionError in
   let build_path :=
     if Str.truthy (argparse.build_path arguments)
     then default "" (argparse.build_path arguments)
     else root_path +:+ "build" +:+ sep +:+ name ts.1 +:+ sep
            +:+ (if xcode then "xcode" else "make") in
   let self :=
     mkBuilder root_path deps_path prefix_path include_path lib_path
       xcode (argparse.checkout_commit arguments)
       (negb (argparse.skip_generate arguments))
       (argparse.rebuild_prefix arguments)
       (build_path +:+ sep)
       (argparse.sdk_path arguments)
       (argparse.create_package arguments)
       ts.1
       (ts.2 +:+ sep) in
   let* t := lift (Target.setup ts.1 self) in
   ret (mkBuilder root_path deps_path prefix_path include_path lib_path
          xcode (argparse.checkout_commit arguments)
          (negb (argparse.skip_generate arguments))
          (argparse.rebuild_prefix arguments)
          (build_path +:+ sep)
          (argparse.sdk_path arguments)
          (argparse.create_package arguments)
          t
          (ts.2 +:+ sep)))%py.

(** What [_parse_arguments] lets through: [argparse] ends the process
    ([SystemExit]) unless exactly one of [--target] and [--source-path] is
    given (a required, mutually exclusive group), and unless a given
    [--target] is one of the choices [Target.get_target_names()]. *)
Definition parsed (arguments : argparse.Namespace) : bool :=
  match argparse.target arguments, argparse.source_path arguments with
  | Some t, None => bool_decide (t ∈ Target.get_target_names)
  | None, Some _ => true
  | _, _ => false
  end.

(** The body of the loop over [os.scandir(self.deps_path)] *)
Definition link_dependency (self : Builder) (dep : DirEntry) : M unit :=
  (let* w := get in
   if negb (is_dir dep w) then ret tt
   else
     let dep_include_path := de_path dep +:+ sep +:+ "include" +:+ sep in
     let dep_lib_path := de_path dep +:+ sep +:+ "lib" +:+ sep in
     if negb (path_exists w dep_include_path) || negb (path_exists w dep_lib_path)
     then ret tt
     else
       let* includes := scandir dep_include_path in
       let* _ := for_each includes (λ dep_include,
                   symlink (de_path dep_include)
                     (include_path self +:+ de_name dep_include)) in
       let* libs := scandir dep_lib_path in
       for_each libs (λ dep_lib,
         symlink (de_path dep_lib) (lib_path self +:+ de_name dep_lib)))%py.

Definition _create_prefix_directory (self : Builder) : M unit :=
  (let* w := get in
   let populate : M unit :=
     let* _ := makedirs (include_path self) false in
     let* _ := makedirs (lib_path self) false in
     let* deps := scandir (deps_path self) in
     for_each deps (link_dependency self) in
   if path_exists w (prefix_path self) then
     if rebuild_prefix self then
       let* _ := rmtree (prefix_path self) in populate
     else ret tt
   else populate)%py.

Definition _prepare_source (sh : shell) (self : Builder) : M unit :=
  (let* w := get in
   let* _ :=
     if negb (path_exists w (source_path self)) then
       match url (target self) with
       | Some u =>
           let args := ["git"; "clone"; u; source_path self] in
           subprocess.check_call sh args (Some (root_path self))
       | None => raise TypeError
       end
     else ret tt in
   if Str.truthy (checkout_commit self) then
     let args := ["git"; "checkout"; default "" (checkout_commit self)] in
     subprocess.check_call sh args (Some (source_path self))
   else ret tt)%py.

Definition pathsep : string := ":".

Definition _generate_cmake (sh : shell) (self : Builder) : M unit :=
  if negb (generate self) then ret tt
  else
    (let* w := get in
     let* path :=
       match environ w !! "PATH" with
       | Some p => ret p
       | None => raise (KeyError "PATH")
       end in
     let path := path +:+ pathsep +:+ "/Applications/CMake.app/Contents/bin" in
     let* _ := modify (λ w, log (EvSetenv "PATH" path)
                              (with_environ (<["PATH" := path]> (environ w)) w)) in
     let* _ := makedirs (build_path self) true in
     let args :=
       [ "cmake";
         if xcode self then "-GXcode" else "-GUnix Makefiles";
         "-DCMAKE_BUILD_TYPE=Release";
         "-DCMAKE_PREFIX_PATH=" +:+ prefix_path self ] in
     let args :=
       if Str.truthy (sdk_path self)
       then args ++ ["-DCMAKE_OSX_SYSROOT=" +:+ default "" (sdk_path self)]
       else args in
     let args :=
       foldl (λ args kv, args ++ ["-D" +:+ kv.1 +:+ "=" +:+ kv.2])
         args (cmake_options (target self)) in
     let args := args ++ [source_path self] in
     subprocess.check_call sh args (Some (build_path self)))%py.

Definition _build_target (sh : shell) (self : Builder) : M unit :=
  (let* args :=
     if xcode self then
       (* TODO: support case-sensitive file system *)
       ret ["open"; name (target self) +:+ ".xcodeproj"]
     else
       let* out := subprocess.check_output sh subprocess.sysctl_argv None in
       let* text := subprocess.decode_ascii out in
       let jobs := subprocess.strip text in
       ret ["make"; "-j"; jobs] in
   let* _ := subprocess.check_call sh args (Some (build_path self)) in
   match post_build (target self) with
   | Some h => Target.call_hook h self
   | None => ret tt
   end)%py.

(** [s[i:]] for any integer [i] *)
Definition slice_from (i : Z) (s : string) : string :=
  if (i <? 0)%Z
  then Str.drop (Z.to_nat (Z.of_nat (String.length s) + i)) s
  else Str.drop (Z.to_nat i) s.

Definition tar_filter (name_pos : Z) (tarinfo : TarInfo) : TarInfo :=
  mkTarInfo (slice_from name_pos (ti_name tarinfo)) (ti_type tarinfo)
    "root" "root" 0 0.

(** [_make_package], returning the members it put into the archive, each
    with the file it was made from ([None] when the stage is skipped). *)
Definition package (sh : shell) (self : Builder)
    : M (option (list (string * TarInfo))) :=
  if negb (create_package self) || xcode self then ret None
  else
    (let args := ["git"; "describe"; "--tags"] in
     let* out := subprocess.check_output sh args (Some (source_path self)) in
     let* text := subprocess.decode_ascii out in
     let version := subprocess.strip text in
     let package_path :=
       build_path self +:+ name (target self) +:+ "-" +:+ version +:+ ".tar.bz2" in
     let name_pos := (Z.of_nat (String.length (build_path self)) - 1)%Z in
     let* w := get in
     let* _ := if path_exists w package_path then remove package_path else ret tt in
     let bundle_path := build_path self +:+ name (target self) +:+ ".app" in
     let* ms := tarfile.create package_path bundle_path (tar_filter name_pos) in
     ret (Some ms))%py.

Definition _make_package (sh : shell) (self : Builder) : M unit :=
  (let* _ := package sh self in ret tt)%py.

Definition run (sh : shell) (self : Builder) : M unit :=
  (let* _ := _create_prefix_directory self in
   let* _ := _prepare_source sh self in
   let* _ := _generate_cmake sh self in
   let* _ := _build_target sh self in
   _make_package sh self)%py.

(** [Builder(sys.argv[1:]).run()] on the parsed arguments *)
Definition main (sh : shell) (script_dir : string)
    (arguments : argparse.Namespace) : M unit :=
  (let* self := __init__ script_dir arguments in run sh self)%py.

End Builder.

(** ** A small installation to run the script on *)

Module Demo.

Definition nl : string := String "010" "".

Definition cmakelists : string :=
  "cmake_minimum_required(VERSION 3.1)" +:+ nl +:+
  "  PROJECT ( Raze )" +:+ nl +:+
  "add_subdirectory(source)" +:+ nl.

(** [/r] holds the script, two dependencies (one without [lib]), the
    sources of lzdoom and a finished build in [/r/out]; [/tmp/mysrc] holds
    a checkout of Raze. *)
Definition files : FS :=
  list_to_map [
    (["r"], Dir);
    (["r"; "deps"], Dir);
    (["r"; "deps"; "moltenvk"], Dir);
    (["r"; "deps"; "moltenvk"; "include"], Dir);
    (["r"; "deps"; "moltenvk"; "include"; "vulkan.h"], File (Bytes "h"));
    (["r"; "deps"; "moltenvk"; "lib"], Dir);
    (["r"; "deps"; "moltenvk"; "lib"; "libMoltenVK.dylib"], File (Bytes "dylib"));
    (["r"; "deps"; "headers"], Dir);
    (["r"; "deps"; "headers"; "include"], Dir);
    (["r"; "deps"; "headers"; "include"; "only.h"], File (Bytes "h"));
    (["r"; "source"], Dir);
    (["r"; "source"; "lzdoom"], Dir);
    (["r"; "out"], Dir);
    (["r"; "out"; "lzdoom.app"], Dir);
    (["r"; "out"; "lzdoom.app"; "Contents"], Dir);
    (["r"; "out"; "lzdoom.app"; "Contents"; "Info.plist"], File (Bytes "plist"));
    (["r"; "out"; "lzdoom.app"; "Contents"; "MacOS"], Dir);
    (["r"; "out"; "lzdoom.app"; "Contents"; "MacOS"; "libMoltenVK.dylib"],
     File (Bytes "dylib"));
    (["tmp"], Dir);
    (["tmp"; "mysrc"], Dir);
    (["tmp"; "mysrc"; "CMakeLists.txt"], File (Bytes cmakelists));
    (["tmp"; "quake"], Dir);
    (["tmp"; "quake"; "CMakeLists.txt"], File (Bytes ("project(Quake)" +:+ nl)))
  ].

Definition world : World :=
  mkWorld files {["PATH" := "/usr/bin:/bin"]} ["r"]
    (mkIdentity "alexey" 501 "staff" 20) [].

(** Tools that succeed and leave the files alone. *)
Definition tools : shell := λ argv _ _ f,
  match argv with
  | "sysctl" :: _ => Some (mkCompleted 0 ("8" +:+ nl) f)
  | "git" :: "describe" :: _ => Some (mkCompleted 0 ("g4.5.0" +:+ nl) f)
  | _ => Some (mkCompleted 0 "" f)
  end.

Definition arguments (target source_path build_path : option string)
    (xcode skip_generate create_package : bool) : argparse.Namespace :=
  argparse.mkNamespace target source_path xcode None build_path None
    skip_generate create_package false.

(** [--source-path /tmp/mysrc] *)
Definition detect_arguments : argparse.Namespace :=
  arguments None (Some "/tmp/mysrc") None false false false.

(** [--target lzdoom --build-path out --create-package] *)
Definition package_arguments : argparse.Namespace :=
  arguments (Some "lzdoom") None (Some "out") false false true.

(** [--target lzdoom --build-path /r/prefix/lib --skip-generate] *)
Definition skip_arguments : argparse.Namespace :=
  arguments (Some "lzdoom") None (Some "/r/prefix/lib") false true false.

(** [--target gzdoom --build-path out --xcode --create-package] *)
Definition xcode_arguments : argparse.Namespace :=
  arguments (Some "gzdoom") None (Some "out") true false true.

(** [--source-path /tmp/quake] *)
Definition quake_arguments : argparse.Namespace :=
  arguments None (Some "/tmp/quake") None false false false.

(** The builder [Builder(args)] makes in [world], when it makes one. *)
Definition builder (a : argparse.Namespace) : Builder :=
  match Builder.__init__ "/r" a world with
  | (inr self, _) => self
  | _ =>
      mkBuilder "" "" "" "" "" false None false false "" None false
        (Target.__init__ "") ""
  end.

Definition packager : Builder := Eval vm_compute in builder package_arguments.
Definition skipper : Builder := Eval vm_compute in builder skip_arguments.
Definition ide : Builder := Eval vm_compute in builder xcode_arguments.

(** The world after the prefix has been prepared once. *)
Definition prepared : World :=
  (Builder._create_prefix_directory packager world).2.

(** [--target lzdoom --build-path /r/out --create-package] *)
Definition absolute_arguments : argparse.Namespace :=
  arguments (Some "lzdoom") None (Some "/r/out") false false true.

(** [--target gzdoom] *)
Definition gzdoom_arguments : argparse.Namespace :=
  arguments (Some "gzdoom") None None false false false.

(** [--target lzdoom --rebuild-prefix] *)
Definition rebuild_arguments : argparse.Namespace :=
  argparse.mkNamespace (Some "lzdoom") None false None None None
    false false true.

Definition absolute : Builder := Eval vm_compute in builder absolute_arguments.
Definition maker : Builder := Eval vm_compute in builder gzdoom_arguments.
Definition rebuilder : Builder := Eval vm_compute in builder rebuild_arguments.

(** Tools of which only [sysctl] succeeds; the others leave the files
    alone and return the status 2. *)
Definition broken : shell := λ argv _ _ f,
  match argv with
  | "sysctl" :: _ => Some (mkCompleted 0 ("8" +:+ nl) f)
  | _ => Some (mkCompleted 2 "" f)
  end.

(** The world after the hook has run once in IDE mode, on a prefix that
    has no runtime library *)
Definition linked : World := (Target._copy_moltenvk ide world).2.

(** The world without a search path *)
Definition pathless : World := with_environ ∅ world.

(** What the finished build in [/r/out] is packaged as: each file with its
    member of the archive *)
Definition members : list (string * TarInfo) :=
  [ ("/r/out/lzdoom.app",
     mkTarInfo "lzdoom.app" DIRTYPE "root" "root" 0 0);
    ("/r/out/lzdoom.app/Contents",
     mkTarInfo "lzdoom.app/Contents" DIRTYPE "root" "root" 0 0);
    ("/r/out/lzdoom.app/Contents/Info.plist",
     mkTarInfo "lzdoom.app/Contents/Info.plist" REGTYPE "root" "root" 0 0);
    ("/r/out/lzdoom.app/Contents/MacOS",
     mkTarInfo "lzdoom.app/Contents/MacOS" DIRTYPE "root" "root" 0 0);
    ("/r/out/lzdoom.app/Contents/MacOS/libMoltenVK.dylib",
     mkTarInfo "lzdoom.app/Contents/MacOS/libMoltenVK.dylib" REGTYPE
       "root" "root" 0 0) ].


End Demo.

(** ** Vocabulary of the properties *)

(** From [w] to [w'] directories were made and nothing else was done: the
    environment is the same and the trace grew by [EvMkdir] events only. *)
Definition only_mkdirs (w w' : World) : Prop :=
  environ w' = environ w
  ∧ ∃ evs, trace w' = trace w ++ evs ∧ Forall (λ e, ∃ at_, e = EvMkdir at_) evs.

(** Every entry of [w'] was in [w] already, or is a directory or a link. *)
Definition adds_dirs_and_links (w w' : World) : Prop :=
  ∀ k nd, fs w' !! k = Some nd →
          fs w !! k = Some nd ∨ nd = Dir ∨ ∃ t, nd = Link t.

(** The event is the start of a process. *)
Definition is_exec (e : event) : bool :=
  match e with EvExec _ _ => true | _ => false end.

(** * Strings *)

Section StringFacts.

Lemma sapp_nil_l (s : string) : "" +:+ s = s.
Proof. reflexivity. Qed.

Lemma sapp_cons (c : ascii) (s t : string) :
  String c s +:+ t = String c (s +:+ t).
Proof. reflexivity. Qed.

Lemma sapp_nil_r (s : string) : s +:+ "" = s.
Proof. induction s as [|c s IH]; [done|]. by rewrite sapp_cons, IH. Qed.

Lemma sapp_assoc (a b c : string) : (a +:+ b) +:+ c = a +:+ b +:+ c.
Proof. induction a as [|x a IH]; [done|]. by rewrite !sapp_cons, IH. Qed.

Lemma rev_app_app (s t u : string) :
  String.rev_app (String.rev_app s t) u = String.rev_app t (s +:+ u).
Proof.
  revert t u. induction s as [|c s IH]; intros t u; [done|].
  simpl. rewrite IH. by rewrite sapp_cons.
Qed.

Lemma rev_rev_app (s : string) : String.rev (String.rev_app s "") = s.
Proof. unfold String.rev. rewrite rev_app_app. simpl. apply sapp_nil_r. Qed.

Lemma rev_app_length (s t : string) :
  String.length (String.rev_app s t) = String.length s + String.length t.
Proof.
  revert t. induction s as [|c s IH]; intros t; [done|].
  simpl. rewrite IH. simpl. lia.
Qed.

Lemma rev_length (s : string) : String.length (String.rev s) = String.length s.
Proof. unfold String.rev. rewrite rev_app_length. simpl. lia. Qed.

End StringFacts.

(** * Character classes *)

Lemma word_not_space (c : ascii) : Str.is_word c = true → Str.is_space c = false.
Proof. destruct c as [[] [] [] [] [] [] [] []]; vm_compute; congruence. Qed.

Lemma space_not_word (c : ascii) : Str.is_space c = true → Str.is_word c = false.
Proof. destruct c as [[] [] [] [] [] [] [] []]; vm_compute; congruence. Qed.

Lemma is_word_lower_char (c : ascii) :
  Str.is_word (Str.lower_char c) = Str.is_word c.
Proof. destruct c as [[] [] [] [] [] [] [] []]; reflexivity. Qed.

Lemma all_word_lower (s : string) :
  Str.all Str.is_word (Str.lower s) = Str.all Str.is_word s.
Proof.
  induction s as [|c s IH]; [done|].
  simpl. by rewrite is_word_lower_char, IH.
Qed.

(** * The matcher *)

Section Matcher.

Import Re.

Lemma star_run (f : ascii → bool) (cap : bool) k (ws acc s g : string) :
  Str.all f ws = true →
  Re.stops f s →
  k (if cap then String.rev_app ws acc else acc) s = Some g →
  star f cap k acc (ws +:+ s) = Some g.
Proof.
  revert acc. induction ws as [|c ws IH]; intros acc Hall Hstop Hk.
  - rewrite sapp_nil_l. destruct cap; simpl in Hk;
      (destruct s as [|d s]; simpl in *; [done|]; by rewrite Hstop).
  - simpl in Hall. apply andb_prop in Hall as [Hc Hall].
    rewrite sapp_cons. simpl. rewrite Hc.
    rewrite (IH (if cap then String c acc else acc)); [done|done|done|].
    by destruct cap.
Qed.

Lemma match_lit (x : ascii) p (acc : string) (c : ascii) (s : string) :
  Str.lower_char c = Str.lower_char x →
  match_here (lit x :: p) acc (String c s) = match_here p acc s.
Proof. intros H. simpl. rewrite H. by rewrite Ascii.eqb_refl. Qed.

Lemma match_spaces p (acc ws s g : string) :
  Str.all Str.is_space ws = true →
  Re.stops Str.is_space s →
  match_here p acc s = Some g →
  match_here (spaces :: p) acc (ws +:+ s) = Some g.
Proof. intros. simpl. by apply star_run. Qed.

Lemma lower_project (kw : string) :
  Str.lower kw = "project" →
  ∃ a b c d e f g,
    kw = String a (String b (String c (String d (String e (String f (String g ""))))))
    ∧ Str.lower_char a = "p"%char ∧ Str.lower_char b = "r"%char
    ∧ Str.lower_char c = "o"%char ∧ Str.lower_char d = "j"%char
    ∧ Str.lower_char e = "e"%char ∧ Str.lower_char f = "c"%char
    ∧ Str.lower_char g = "t"%char.
Proof.
  intros H.
  destruct kw as [|a [|b [|c [|d [|e [|f [|g [|h kw]]]]]]]]; simpl in H; try discriminate.
  injection H as Ha Hb Hc Hd He Hf Hg. by exists a, b, c, d, e, f, g.
Qed.

(** The pattern matches a declaration at its start and captures the
    identifier. *)
Lemma match_declaration (kw ws1 ws2 ident ws3 post : string) :
  Str.lower kw = "project" →
  Str.all Str.is_space ws1 = true →
  Str.all Str.is_space ws2 = true →
  Str.all Str.is_space ws3 = true →
  Str.all Str.is_word ident = true →
  ident ≠ "" →
  match_here project_pattern ""
    (kw +:+ ws1 +:+ "(" +:+ ws2 +:+ ident +:+ ws3 +:+ ")" +:+ post) = Some ident.
Proof.
  intros Hkw H1 H2 H3 Hid Hne.
  destruct (lower_project kw Hkw) as (a&b&c&d&e&f&g&->&Ha&Hb&Hc&Hd&He&Hf&Hg).
  destruct ident as [|i ident]; [done|].
  simpl in Hid. apply andb_prop in Hid as [Hi Hid].
  unfold project_pattern. cbn [lits app].
  rewrite !sapp_cons, !sapp_nil_l.
  rewrite !match_lit by done.
  apply match_spaces; [done|done|].
  rewrite match_lit by done.
  apply match_spaces; [done|by apply word_not_space|].
  change (word_group ++ [spaces; lit ")"]) with
    [Atom Str.is_word Once true; Atom Str.is_word Many true; spaces; lit ")"].
  cbn [match_here rep cls captured keep].
  rewrite Hi.
  apply star_run; [done| |].
  { destruct ws3 as [|s ws3]; simpl.
    - done.
    - simpl in H3. apply andb_prop in H3 as [Hs _]. by apply space_not_word. }
  apply (match_spaces [lit ")"]); [done|done|].
  rewrite match_lit by done.
  cbn [match_here].
  change (String.rev_app ident (String i "")) with (String.rev_app (String i ident) "").
  by rewrite rev_rev_app.
Qed.

Lemma search_here p (s g : string) :
  match_here p "" s = Some g → search p s = Some g.
Proof. intros H. destruct s; simpl; by rewrite H. Qed.

Lemma search_skip p (pre rest : string) :
  no_match_in p pre rest = true →
  search p (pre +:+ rest) = search p rest.
Proof.
  induction pre as [|c pre IH]; intros H; [done|].
  cbn [no_match_in] in H.
  destruct (match_here p "" (String c pre +:+ rest)) eqn:E; [done|].
  rewrite sapp_cons in *.
  destruct p; simpl in *; [done|]. rewrite E. by apply IH.
Qed.

End Matcher.

(** * Detection *)

Section Detection.

Import Re.

Lemma star_grows (f : ascii → bool) (cap : bool) k (m : nat) (s acc g : string) :
  (∀ acc' s', String.length acc ≤ String.length acc' →
              k acc' s' = Some g → String.length acc' + m ≤ String.length g) →
  star f cap k acc s = Some g →
  String.length acc + m ≤ String.length g.
Proof.
  revert acc. induction s as [|c s IH]; intros acc Hk H; simpl in H.
  - by apply (Hk acc "").
  - destruct (f c); [|by apply (Hk acc (String c s))].
    destruct (star f cap k (if cap then String c acc else acc) s) eqn:E.
    + injection H as ->.
      assert (String.length (if cap then String c acc else acc) + m
              ≤ String.length g) as Hle.
      { apply IH; [|done]. intros acc' s' Hacc. apply Hk.
        destruct cap; simpl in Hacc; lia. }
      destruct cap; simpl in Hle; lia.
    + by apply (Hk acc (String c s)).
Qed.

Lemma match_here_grows p (acc s g : string) :
  match_here p acc s = Some g →
  String.length acc + Re.min_group p ≤ String.length g.
Proof.
  revert acc s. induction p as [|a p IH]; intros acc s H; simpl in *.
  - injection H as <-. rewrite rev_length. lia.
  - destruct (rep a) eqn:Hrep.
    + destruct s as [|c s]; [done|].
      destruct (cls a c); [|done].
      apply IH in H. unfold keep in H.
      destruct (captured a); simpl in H; lia.
    + assert (String.length acc + Re.min_group p ≤ String.length g) as Hle.
      { apply (star_grows (cls a) (captured a) (match_here p) _ s); [|done].
        intros acc' s' Hacc Hm. by apply IH in Hm. }
      destruct (captured a); lia.
Qed.

Lemma search_grows p (s g : string) :
  search p s = Some g → Re.min_group p ≤ String.length g.
Proof.
  induction s as [|c s IH]; simpl.
  - destruct (match_here p "" "") eqn:E; [|done].
    intros [= ->]. by apply match_here_grows in E.
  - destruct (match_here p "" (String c s)) eqn:E; [|done].
    intros [= ->]. by apply match_here_grows in E.
Qed.

Lemma lower_length (s : string) : String.length (Str.lower s) = String.length s.
Proof. induction s as [|c s IH]; simpl; [done|]. by rewrite IH. Qed.

Lemma scan_lines_truthy (lines : list string) (n : string) :
  Builder.scan_lines lines = Some n → Str.truthy (Some n) = true.
Proof.
  induction lines as [|l lines IH]; simpl; [done|].
  destruct (search project_pattern l) as [g|] eqn:E; [|done].
  intros [= <-]. apply search_grows in E.
  change (Re.min_group project_pattern) with 1 in E.
  rewrite <-lower_length in E.
  destruct (Str.lower g); [simpl in E; lia|done].
Qed.

Lemma scan_lines_first (before after : list string) (line g : string) :
  Forall (λ l, search project_pattern l = None) before →
  search project_pattern line = Some g →
  Builder.scan_lines (before ++ line :: after) = Some (Str.lower g).
Proof.
  intros Hb Hl. induction Hb as [|l before Hn _ IH]; simpl.
  - by rewrite Hl.
  - by rewrite Hn.
Qed.

Lemma scan_lines_none (lines : list string) :
  Builder.scan_lines lines = None ↔
  Forall (λ l, search project_pattern l = None) lines.
Proof.
  induction lines as [|l lines IH]; simpl.
  - split; [constructor|done].
  - destruct (search project_pattern l) eqn:E.
    + split; [done|]. intros H. inversion H; congruence.
    + rewrite IH. split; [by constructor|by inversion 1].
Qed.

Lemma dict_get_map {V} (f : string → V) (l : list string) (k : string) :
  dict_get k (map (λ n, (n, f n)) l) =
    if decide (k ∈ l) then Some (f k) else None.
Proof.
  induction l as [|x l IH]; cbn [map dict_get].
  - destruct (decide (k ∈ [])) as [H%elem_of_nil|]; done.
  - rewrite IH.
    destruct (decide (x = k)) as [->|Hne].
    + destruct (decide (k ∈ k :: l)) as [_|Hn]; [done|].
      destruct Hn. by left.
    + destruct (decide (k ∈ l)) as [Hin|Hout],
        (decide (k ∈ x :: l)) as [Hin'|Hout']; try done.
      * destruct Hout'. by right.
      * apply elem_of_cons in Hin' as [->|Hin']; [by destruct Hne|by destruct Hout].
Qed.

Lemma getitem_targets (n : string) (w : World) :
  Builder.getitem Target.create_targets n w =
    if decide (n ∈ Target.get_target_names)
    then (inr (Target.__init__ n), w) else (inl (KeyError n), w).
Proof.
  unfold Builder.getitem, Target.create_targets. rewrite dict_get_map.
  by destruct (decide _).
Qed.

Lemma detect_target_eq (src text : string) (w : World) :
  Posix.read_text (src +:+ Posix.sep +:+ "CMakeLists.txt") w = (inr text, w) →
  Builder._detect_target src Target.create_targets w =
    match Builder.scan_lines (Str.readlines text) with
    | None => (inl AssertionError, w)
    | Some n =>
        if decide (n ∈ Target.get_target_names)
        then (inr (Target.__init__ n), w) else (inl (KeyError n), w)
    end.
Proof.
  intros Hread. unfold Builder._detect_target, bind. rewrite Hread.
  destruct (Builder.scan_lines (Str.readlines text)) as [n|] eqn:E; [|done].
  rewrite (scan_lines_truthy _ _ E). simpl. apply getitem_targets.
Qed.

End Detection.

Lemma registered_names :
  Target.get_target_names = ["gzdoom"; "lzdoom"; "qzdoom"; "raze"].
Proof. reflexivity. Qed.

Lemma truthy_nonempty (s : string) : s ≠ "" → Str.truthy (Some s) = true.
Proof. by destruct s. Qed.

Lemma init_detect_fails (sh : shell) (script_dir src : string)
    (arguments : argparse.Namespace) (w : World) (e : exn) :
  Str.truthy (argparse.target arguments) = false →
  argparse.source_path arguments = Some src →
  src ≠ "" →
  Builder._detect_target src Target.create_targets w = (inl e, w) →
  Builder.__init__ script_dir arguments w = (inl e, w)
  ∧ Builder.main sh script_dir arguments w = (inl e, w).
Proof.
  intros Ht Hs Hne Hd.
  assert (Builder.__init__ script_dir arguments w = (inl e, w)) as Hi.
  { unfold Builder.__init__, bind. rewrite Ht, Hs, (truthy_nonempty _ Hne).
    simpl. by rewrite Hd. }
  split; [done|]. unfold Builder.main, bind. by rewrite Hi.
Qed.

Lemma read_text_error (s : string) (w w' : World) (e : exn) :
  Posix.read_text s w = (inl e, w') →
  Posix.is_OSError e = true ∨ e = UnicodeDecodeError.
Proof.
  unfold Posix.read_text. repeat case_match; intros [= <- _]; auto.
Qed.

(** C6, amended: under a non-empty [--source-path], target detection fails
    in three kinds of cases and in no other.  When [CMakeLists.txt] cannot be
    read, it fails with an error of the operating system or of decoding.
    When the file is read, and is ASCII text, it fails in exactly two cases:
    no line matches the project pattern (an [AssertionError]), or the
    lowered captured name is not a registered target (a [KeyError]);
    otherwise it selects that target.  A failure of any of these kinds
    leaves the world untouched and aborts the construction of the builder
    and the whole invocation with that error, before any stage has run. *)
Theorem detect_target_failures (sh : shell) (script_dir src : string)
    (arguments : argparse.Namespace) (w : World) :
  Str.truthy (argparse.target arguments) = false →
  argparse.source_path arguments = Some src →
  src ≠ "" →
  let read := Posix.read_text (src +:+ Posix.sep +:+ "CMakeLists.txt") w in
  let outcome := Builder._detect_target src Target.create_targets w in
  let aborts (e : exn) :=
    outcome = (inl e, w)
    ∧ Builder.__init__ script_dir arguments w = (inl e, w)
    ∧ Builder.main sh script_dir arguments w = (inl e, w) in
  ((∃ e, read.1 = inl e) →
   ∃ e, (Posix.is_OSError e = true ∨ e = UnicodeDecodeError) ∧ aborts e)
  ∧ (∀ text,
       read.1 = inr text →
       subprocess.all_ascii text = true →
       let detected := Builder.scan_lines (Str.readlines text) in
       ((∃ e, outcome.1 = inl e) ↔
          (Forall (λ l, Re.search Re.project_pattern l = None) (Str.readlines text)
           ∨ ∃ n, detected = Some n ∧ n ∉ Target.get_target_names))
       ∧ (detected = None → aborts AssertionError)
       ∧ (∀ n, detected = Some n → n ∉ Target.get_target_names →
               aborts (KeyError n))
       ∧ (∀ n, detected = Some n → n ∈ Target.get_target_names →
               outcome = (inr (Target.__init__ n), w))).
Proof.
  intros Ht Hs Hne read outcome aborts.
  assert (∀ e, outcome = (inl e, w) → aborts e) as Habort.
  { intros e Ho. split; [done|]. by eapply init_detect_fails. }
  assert (read.2 = w) as Hrw.
  { unfold read, Posix.read_text. by repeat case_match. }
  split.
  - intros [e He]. exists e.
    assert (read = (inl e, w)) as Hread by by apply injective_projections.
    split; [by eapply read_text_error|]. apply Habort.
    unfold outcome, Builder._detect_target, bind. fold read. by rewrite Hread.
  - intros text Htext _ detected.
    assert (Posix.read_text (src +:+ Posix.sep +:+ "CMakeLists.txt") w =
              (inr text, w)) as Hread.
    { fold read. by apply injective_projections. }
    assert (outcome =
              match detected with
              | None => (inl AssertionError, w)
              | Some n =>
                  if decide (n ∈ Target.get_target_names)
                  then (inr (Target.__init__ n), w) else (inl (KeyError n), w)
              end) as Hout by by apply detect_target_eq.
    split; [split|split; [|split]].
    + intros [e He]. rewrite Hout in He. destruct detected as [n|] eqn:E.
      * right. exists n. split; [done|]. by destruct (decide _).
      * left. by apply scan_lines_none.
    + intros [Hnone|(n & Hn & Hnot)].
      * apply scan_lines_none in Hnone. fold detected in Hnone.
        rewrite Hout, Hnone. by eexists.
      * rewrite Hout, Hn, decide_False by done. by eexists.
    + intros Hn. apply Habort. by rewrite Hout, Hn.
    + intros n Hn Hnot. apply Habort. by rewrite Hout, Hn, decide_False.
    + intros n Hn Hin. by rewrite Hout, Hn, decide_True.
Qed.

Lemma setup_registered (n : string) (self : Builder) :
  n ∈ Target.get_target_names →
  ∃ t, Target.setup (Target.__init__ n) self = inr t ∧ name t = n.
Proof.
  rewrite registered_names. intros H.
  repeat (apply elem_of_cons in H as [->|H]); [by eexists..|].
  by apply elem_of_nil in H.
Qed.

(** C1: when [CMakeLists.txt] is ASCII text and the first line of it that
    the project pattern matches is a declaration [project(<ident>)], in any
    capitalisation and
    with optional white space around the parentheses and the identifier, and
    [lower(ident)] is a registered target name, detection selects the
    registered target of that name; the construction of the builder from
    [--source-path] then has that target. *)
Theorem detect_target_project_declaration
    (script_dir src text : string) (arguments : argparse.Namespace) (w : World)
    (before after : list string) (pre kw ws1 ws2 ident ws3 post : string) :
  let declaration :=
    kw +:+ ws1 +:+ "(" +:+ ws2 +:+ ident +:+ ws3 +:+ ")" +:+ post in
  Posix.read_text (src +:+ Posix.sep +:+ "CMakeLists.txt") w = (inr text, w) →
  subprocess.all_ascii text = true →
  Str.readlines text = before ++ (pre +:+ declaration) :: after →
  Forall (λ l, Re.search Re.project_pattern l = None) before →
  Re.no_match_in Re.project_pattern pre declaration = true →
  Str.lower kw = "project" →
  Str.all Str.is_space ws1 = true →
  Str.all Str.is_space ws2 = true →
  Str.all Str.is_space ws3 = true →
  Str.lower ident ∈ Target.get_target_names →
  Builder.scan_lines (Str.readlines text) = Some (Str.lower ident)
  ∧ Builder._detect_target src Target.create_targets w =
      (inr (Target.__init__ (Str.lower ident)), w)
  ∧ (Str.truthy (argparse.target arguments) = false →
     argparse.source_path arguments = Some src →
     src ≠ "" →
     ∃ self, Builder.__init__ script_dir arguments w = (inr self, w)
             ∧ name (target self) = Str.lower ident).
Proof.
  intros declaration Hread _ Hlines Hbefore Hpre Hkw H1 H2 H3 Hreg.
  assert (Str.all Str.is_word ident = true) as Hword.
  { rewrite <-all_word_lower. revert Hreg. rewrite registered_names.
    intros H. repeat (apply elem_of_cons in H as [->|H]); [done..|].
    by apply elem_of_nil in H. }
  assert (ident ≠ "") as Hne.
  { intros ->. revert Hreg. rewrite registered_names. intros H.
    repeat (apply elem_of_cons in H as [H|H]; [discriminate|]).
    by apply elem_of_nil in H. }
  assert (Builder.scan_lines (Str.readlines text) = Some (Str.lower ident)) as Hscan.
  { rewrite Hlines. apply scan_lines_first; [done|].
    rewrite search_skip by done.
    unfold declaration.
    by apply search_here, match_declaration. }
  assert (Builder._detect_target src Target.create_targets w =
            (inr (Target.__init__ (Str.lower ident)), w)) as Hdetect.
  { rewrite (detect_target_eq _ _ _ Hread), Hscan. by rewrite decide_True. }
  split; [done|]. split; [done|].
  intros Ht Hs Hsrc.
  unfold Builder.__init__, bind.
  rewrite Ht, Hs, (truthy_nonempty _ Hsrc). cbn [from_option]. change (id src) with src.
  rewrite Hdetect. cbn [fst snd ret].
  match goal with
  | |- context [Target.setup _ ?b] =>
      destruct (setup_registered _ b Hreg) as (t & -> & Hname)
  end.
  cbn [Builder.lift]. unfold ret. eexists. split; [done|]. done.
Qed.

Lemma endswith_app_sep (s : string) :
  Str.endswith_char "/" (s +:+ Posix.sep) = true.
Proof.
  induction s as [|c s IH]; [done|].
  rewrite sapp_cons. simpl. destruct (s +:+ Posix.sep) eqn:E; [|done].
  by destruct s.
Qed.

(** C9: whenever the constructor completes, for any arguments, the source
    root and the build root both end with the path separator. *)
Theorem init_roots_end_with_separator (script_dir : string)
    (arguments : argparse.Namespace) (w w' : World) (self : Builder) :
  Builder.__init__ script_dir arguments w = (inr self, w') →
  Str.endswith_char "/" (source_path self) = true
  ∧ Str.endswith_char "/" (build_path self) = true.
Proof.
  unfold Builder.__init__, bind, Builder.lift, ret, raise. intros H.
  repeat case_match; simplify_eq; cbn [source_path build_path];
    split; apply endswith_app_sep.
Qed.

(** C7: in IDE-project mode the packaging stage does nothing, also when a
    package was asked for: it returns at once, without reading the version
    tag, removing an archive or writing one, and the whole run is the run of
    the first four stages. *)
Theorem xcode_skips_packaging (sh : shell) (self : Builder) (w : World) :
  xcode self = true →
  Builder.package sh self w = (inr None, w)
  ∧ Builder._make_package sh self w = (inr tt, w)
  ∧ Builder.run sh self w =
      (let* _ := Builder._create_prefix_directory self in
       let* _ := Builder._prepare_source sh self in
       let* _ := Builder._generate_cmake sh self in
       Builder._build_target sh self)%py w.
Proof.
  intros Hx.
  assert (Builder.package sh self w = (inr None, w)) as Hp.
  { unfold Builder.package. rewrite Hx, orb_true_r. done. }
  assert (∀ w0, Builder._make_package sh self w0 = (inr tt, w0)) as Hm.
  { intros w0. unfold Builder._make_package, Builder.package, bind.
    rewrite Hx, orb_true_r. done. }
  repeat split; [done|done|].
  unfold Builder.run, bind.
  destruct (Builder._create_prefix_directory self w) as [[e|[]] w1]; [done|].
  destruct (Builder._prepare_source sh self w1) as [[e|[]] w2]; [done|].
  destruct (Builder._generate_cmake sh self w2) as [[e|[]] w3]; [done|].
  destruct (Builder._build_target sh self w3) as [[e|[]] w4]; [done|].
  apply Hm.
Qed.

(** No registered target lacks a setup method, and none is left with empty
    options by its setup. *)
Lemma no_unconfigured_target :
  ¬ ∃ n, n ∈ Target.get_target_names
         ∧ (Target.getattr (Target._SETUP_PREFIX +:+ n) = None
            ∨ ∃ self t, Target.setup (Target.__init__ n) self = inr t
                        ∧ cmake_options t = []).
Proof.
  intros (n & Hn & H). rewrite registered_names in Hn.
  repeat (apply elem_of_cons in Hn as [->|Hn]);
    try (by apply elem_of_nil in Hn);
    (destruct H as [H|(self & t & H & Ht)]; [discriminate|]);
    injection H as <-; discriminate.
Qed.

(** C5, as the code has it: the registered targets are the four engine
    forks, and the setup of each of them runs the shared option-assignment
    routine, which leaves seven options. *)
Theorem registered_targets_share_options (n : string) (self : Builder) :
  n ∈ Target.get_target_names →
  n ∈ ["gzdoom"; "lzdoom"; "qzdoom"; "raze"]
  ∧ ∃ u h,
      Target.setup (Target.__init__ n) self =
        inr (Target._assign_zdoom_raze_cmake_options (mkTarget n (Some u) [] h) self)
      ∧ length (cmake_options
                  (Target._assign_zdoom_raze_cmake_options
                     (mkTarget n (Some u) [] h) self)) = 7.
Proof.
  intros Hn. split; [done|]. rewrite registered_names in Hn.
  repeat (apply elem_of_cons in Hn as [->|Hn]);
    try (by apply elem_of_nil in Hn); by eexists _, _.
Qed.

(** A name without a setup method is not registered, and configuring such a
    target raises. *)
Lemma unregistered_target_setup_fails (n : string) (self : Builder) :
  n ∉ Target.get_target_names →
  Target.setup (Target.__init__ n) self =
    inl (AttributeError (Target._SETUP_PREFIX +:+ n)).
Proof.
  intros Hn. unfold Target.setup, Target.getattr.
  change (name (Target.__init__ n)) with n.
  repeat (case_decide as Hd;
    [exfalso; apply Hn;
     match type of Hd with
     | _ = ?r =>
         let x := eval vm_compute in (Str.drop 7 r) in
         change r with (Target._SETUP_PREFIX +:+ x) in Hd
     end;
     apply String.app_inj in Hd as ->;
     rewrite registered_names; set_solver|clear Hd]).
  done.
Qed.

(** * Paths *)

Section Paths.

Import Posix.

Lemma fields_nonempty (s : string) : fields s ≠ [].
Proof.
  destruct s as [|c s]; simpl; [done|].
  destruct (Ascii.eqb c "/"); [done|]. by destruct (fields s).
Qed.

Lemma fields_app_sep (a b : string) :
  fields (a +:+ "/" +:+ b) = fields a ++ fields b.
Proof.
  induction a as [|c a IH].
  - done.
  - rewrite sapp_cons. simpl. rewrite IH.
    destruct (Ascii.eqb c "/"); [done|].
    pose proof (fields_nonempty a). by destruct (fields a).
Qed.

Lemma components_app_sep (a b : string) :
  components (a +:+ "/" +:+ b) = components a ++ components b.
Proof. unfold components. by rewrite fields_app_sep, filter_app. Qed.

Lemma endswith_sep_split (d : string) :
  Str.endswith_char "/" d = true → ∃ x, d = x +:+ "/".
Proof.
  induction d as [|c d IH]; [done|]. simpl.
  destruct d as [|c' d].
  - intros ->%Ascii.eqb_eq. by exists "".
  - intros H. destruct (IH H) as [x Hx]. exists (String c x).
    by rewrite sapp_cons, <-Hx.
Qed.

Lemma isabs_app (a b : string) : a ≠ "" → isabs (a +:+ b) = isabs a.
Proof. by destruct a. Qed.

(** Appending to a directory path that ends with the separator appends
    names. *)
Lemma names_under (w : World) (d t : string) :
  Str.endswith_char "/" d = true →
  names w (d +:+ t) = names w d ++ components t.
Proof.
  intros Hd. assert (d ≠ "") as Hne by by destruct d.
  destruct (endswith_sep_split d Hd) as [x ->].
  unfold names. rewrite isabs_app by done.
  rewrite sapp_assoc, components_app_sep.
  replace (components (x +:+ "/")) with (components x).
  - destruct (isabs _); by rewrite ?(assoc_L (++)).
  - change (x +:+ "/") with (x +:+ "/" +:+ "").
    rewrite components_app_sep. change (components "") with (@nil string).
    by rewrite (right_id_L [] (++)).
Qed.

End Paths.

(** * Path resolution *)

Section Walk.

Import Posix.

Implicit Types (f : FS) (cur todo q : list string) (n : nat).

Lemma walk_nil n m f cur : walk n m f cur [] = Some cur.
Proof. by destruct n. Qed.

Lemma walk_dot n m f cur (rest : list string) :
  walk n m f cur ("." :: rest) = walk n m f cur rest.
Proof. by destruct n. Qed.

Lemma walk_dotdot n m f cur (rest : list string) :
  walk n m f cur (".." :: rest) =
    if is_dir_node (node_at f (parent cur)) then walk n m f (parent cur) rest
    else None.
Proof. by destruct n. Qed.

Lemma walk_cons n m f cur (c : string) (rest : list string) :
  c ≠ "." → c ≠ ".." →
  walk n m f cur (c :: rest) =
    match m, rest with
    | NoFollow, [] => Some (cur ++ [c])
    | _, _ =>
        match f !! (cur ++ [c]) with
        | Some Dir => walk n m f (cur ++ [c]) rest
        | Some (File _) => if is_nil rest then Some (cur ++ [c]) else None
        | Some (Link t) =>
            match n with
            | O => None
            | S n' =>
                walk n' m f (if isabs t then [] else cur) (components t ++ rest)
            end
        | None =>
            match m with
            | Creating => if is_nil rest then Some (cur ++ [c]) else None
            | _ => None
            end
        end
    end.
Proof.
  intros Hd Hdd. destruct n; simpl;
    destruct (decide (c = ".")); try done; by destruct (decide (c = "..")).
Qed.

Lemma walk_existing_cons n f cur (c : string) (rest : list string) :
  c ≠ "." → c ≠ ".." →
  walk n Existing f cur (c :: rest) =
    match f !! (cur ++ [c]) with
    | Some Dir => walk n Existing f (cur ++ [c]) rest
    | Some (File _) => if is_nil rest then Some (cur ++ [c]) else None
    | Some (Link t) =>
        match n with
        | O => None
        | S n' =>
            walk n' Existing f (if isabs t then [] else cur) (components t ++ rest)
        end
    | None => None
    end.
Proof. intros Hd Hdd. rewrite walk_cons by done. by destruct rest. Qed.

Lemma dir_at_snoc f cur (c : string) :
  f !! (cur ++ [c]) = Some Dir → dir_at f (cur ++ [c]).
Proof. unfold dir_at, node_at. intros ->. by destruct cur. Qed.

Lemma node_at_snoc f cur (c : string) : node_at f (cur ++ [c]) = f !! (cur ++ [c]).
Proof. by destruct cur. Qed.

(** The three ways a walk goes on at a name: it stays, goes up, or looks
    the name up. *)
Ltac walk_step x :=
  destruct (decide (x = ".")) as [->|?];
  [rewrite ?walk_dot in *
  |destruct (decide (x = "..")) as [->|?];
   [rewrite ?walk_dotdot in *
   |rewrite ?walk_existing_cons in * by done]].

(** The directory that holds an existing entry exists. *)
Lemma walk_parent n f cur todo (c : string) q :
  dir_at f cur →
  walk n Existing f cur (todo ++ [c]) = Some q →
  ∃ d, walk n Existing f cur todo = Some d ∧ dir_at f d.
Proof.
  revert cur todo. induction n as [|n IHn]; intros cur todo; revert cur;
    (induction todo as [|x todo IH]; intros cur Hcur H;
     [rewrite walk_nil; by eexists|]);
    cbn [app] in H; walk_step x;
    try (by apply IH);
    try (destruct (is_dir_node (node_at f (parent cur))) eqn:Hp; [|done];
         by apply IH);
    destruct (f !! (cur ++ [x])) as [[| |t]|] eqn:E; try done;
    try (apply IH; [by apply dir_at_snoc|done]);
    try (destruct todo; simpl in H; done).
  rewrite (assoc_L (++)) in H. apply IHn in H; [done|].
  by destruct (isabs t).
Qed.

(** An existing entry is found where its name says, without following a
    final link. *)
Lemma walk_nofollow n f cur todo q :
  dir_at f cur →
  walk n Existing f cur todo = Some q →
  is_Some (node_at f q) →
  ∃ q', walk n NoFollow f cur todo = Some q' ∧ is_Some (node_at f q').
Proof.
  intros Hcur H Hq. revert cur todo Hcur H.
  induction n as [|n IHn]; intros cur todo; revert cur;
    (induction todo as [|x todo IH]; intros cur Hcur H;
     [rewrite walk_nil in *; injection H as <-; by eexists|]);
    (destruct (decide (x = ".")) as [->|Hd];
     [rewrite walk_dot in *; by apply IH
     |destruct (decide (x = "..")) as [->|Hdd];
      [rewrite walk_dotdot in *;
       destruct (is_dir_node (node_at f (parent cur))) eqn:Hp; [|done];
       by apply IH
      |rewrite walk_existing_cons in H by done; rewrite walk_cons by done]]);
    destruct (f !! (cur ++ [x])) as [[| |t]|] eqn:E; try done;
    destruct todo as [|y todo]; try done;
    try (exists (cur ++ [x]); split; [done|]; rewrite node_at_snoc, E; by eexists);
    try (apply IH; [by apply dir_at_snoc|done]).
  apply IHn; [|done]. by destruct (isabs t).
Qed.

(** Resolution only reads entries that are there, so it is stable when
    the file system grows. *)
Lemma node_at_mono f f' q nd :
  f ⊆ f' → node_at f q = Some nd → node_at f' q = Some nd.
Proof.
  intros Hsub. destruct q; [done|]. simpl. intros H.
  by apply (lookup_weaken _ _ _ _ H Hsub).
Qed.

Lemma is_dir_node_mono f f' q :
  f ⊆ f' → is_dir_node (node_at f q) = true → is_dir_node (node_at f' q) = true.
Proof.
  intros Hsub H. destruct (node_at f q) as [nd|] eqn:E; [|done].
  by rewrite (node_at_mono _ _ _ _ Hsub E).
Qed.

Lemma walk_mono n f f' cur todo q :
  f ⊆ f' →
  walk n Existing f cur todo = Some q →
  walk n Existing f' cur todo = Some q.
Proof.
  intros Hsub. revert cur todo. induction n as [|n IHn]; intros cur todo; revert cur;
    (induction todo as [|x todo IH]; intros cur H;
     [by rewrite walk_nil in *|]);
    walk_step x;
    try (by apply IH);
    try (destruct (is_dir_node (node_at f (parent cur))) eqn:Hp; [|done];
         rewrite (is_dir_node_mono _ _ _ Hsub Hp); by apply IH);
    destruct (f !! (cur ++ [x])) as [[| |t]|] eqn:E; try done;
    rewrite (lookup_weaken _ _ _ _ E Hsub); auto.
Qed.

(** Where a new entry would go does not change either. *)
Lemma walk_nofollow_mono n f f' cur todo q :
  f ⊆ f' →
  walk n NoFollow f cur todo = Some q →
  walk n NoFollow f' cur todo = Some q.
Proof.
  intros Hsub. revert cur todo. induction n as [|n IHn]; intros cur todo; revert cur;
    (induction todo as [|x todo IH]; intros cur H;
     [by rewrite walk_nil in *|]);
    (destruct (decide (x = ".")) as [->|Hd];
     [rewrite walk_dot in *; by apply IH
     |destruct (decide (x = "..")) as [->|Hdd];
      [rewrite walk_dotdot in *;
       destruct (is_dir_node (node_at f (parent cur))) eqn:Hp; [|done];
       rewrite (is_dir_node_mono _ _ _ Hsub Hp); by apply IH
      |rewrite walk_cons in * by done]]);
    (destruct todo as [|y todo]; [done|]);
    destruct (f !! (cur ++ [x])) as [[| |t]|] eqn:E; try done;
    rewrite (lookup_weaken _ _ _ _ E Hsub); auto.
Qed.

(** After a directory is made at a free place, its name resolves to it. *)
Lemma walk_created n f cur todo q :
  walk n NoFollow f cur todo = Some q →
  f !! q = None →
  walk n Existing (<[q := Dir]> f) cur todo = Some q.
Proof.
  intros Hw Hq.
  assert (f ⊆ <[q := Dir]> f) as Hsub by by apply insert_subseteq.
  revert cur todo Hw.
  induction n as [|n IHn]; intros cur todo; revert cur;
    (induction todo as [|x todo IH]; intros cur H;
     [by rewrite walk_nil in *|]);
    (destruct (decide (x = ".")) as [->|Hd];
     [rewrite walk_dot in *; by apply IH
     |destruct (decide (x = "..")) as [->|Hdd];
      [rewrite walk_dotdot in *;
       destruct (is_dir_node (node_at f (parent cur))) eqn:Hp; [|done];
       rewrite (is_dir_node_mono _ _ _ Hsub Hp); by apply IH
      |rewrite walk_cons in H by done; rewrite walk_existing_cons by done]]);
    (destruct todo as [|y todo];
     [injection H as <-; by rewrite lookup_insert_eq, walk_nil|]);
    destruct (f !! (cur ++ [x])) as [[| |t]|] eqn:E; try done;
    rewrite (lookup_weaken _ _ _ _ E Hsub); auto.
Qed.

End Walk.

(** * Worlds that only grow *)

Section Growth.

Import Posix.

Global Instance extends_preorder : PreOrder extends.
Proof.
  split.
  - by intros w.
  - intros w1 w2 w3 [H1 C1] [H2 C2]. split; [by etrans|congruence].
Qed.

Lemma growing_ret {A} (a : A) : growing (ret a).
Proof. intros w r w' [= _ <-]. done. Qed.

Lemma growing_raise {A} (e : exn) : growing (@raise A e).
Proof. intros w r w' [= _ <-]. done. Qed.

Lemma growing_get : growing get.
Proof. intros w r w' [= _ <-]. done. Qed.

Lemma growing_bind {A B} (m : M A) (k : A → M B) :
  growing m → (∀ a, growing (k a)) → growing (bind m k).
Proof.
  intros Hm Hk w r w'. unfold bind.
  destruct (m w) as [[e|a] w1] eqn:E.
  - intros [= _ <-]. by eapply Hm.
  - intros H. etrans; [by eapply Hm|by eapply Hk].
Qed.

Lemma growing_for_each {A} (l : list A) (body : A → M unit) :
  (∀ x, growing (body x)) → growing (for_each l body).
Proof.
  intros Hb. induction l as [|x l IH]; simpl.
  - apply growing_ret.
  - apply growing_bind; [apply Hb|done].
Qed.

Lemma extends_insert (w : World) (q : list string) (nd : node) (e : event) :
  fs w !! q = None →
  extends w (log e (with_fs (<[q := nd]> (fs w)) w)).
Proof. intros H. split; [by apply insert_subseteq|done]. Qed.

Lemma node_at_None (f : FS) (q : list string) :
  node_at f q = None → f !! q = None.
Proof. by destruct q. Qed.

Lemma growing_mkdir_names (s : string) (ns : list string) :
  growing (mkdir_names s ns).
Proof.
  intros w r w'. unfold mkdir_names.
  destruct (locate w ns) as [q|]; [|by intros [= _ <-]].
  destruct (node_at (fs w) q) eqn:E; [by intros [= _ <-]|].
  intros [= _ <-]. by apply extends_insert, node_at_None.
Qed.

Lemma growing_symlink (src dst : string) : growing (symlink src dst).
Proof.
  intros w r w'. unfold symlink.
  destruct (locate w _) as [q|]; [|by intros [= _ <-]].
  destruct (node_at (fs w) q) eqn:E; [by intros [= _ <-]|].
  intros [= _ <-]. by apply extends_insert, node_at_None.
Qed.

Lemma growing_listdir (s : string) : growing (listdir s).
Proof.
  intros w r w'. unfold listdir. repeat case_match; by intros [= _ <-].
Qed.

Lemma growing_scandir (s : string) : growing (scandir s).
Proof.
  apply growing_bind; [apply growing_listdir|]. intros l. apply growing_ret.
Qed.

Lemma growing_forgiving (s : string) (ns : list string) (ok : bool) :
  growing (λ w1,
    match mkdir_names s ns w1 with
    | (inl e, w2) =>
        if is_OSError e && ok && isdir_names w2 ns
        then (inr tt, w2) else (inl e, w2)
    | r => r
    end).
Proof.
  intros w r w'. destruct (mkdir_names s ns w) as [[e|[]] w2] eqn:E.
  - apply growing_mkdir_names in E. destruct (_ && _); by intros [= _ <-].
  - apply growing_mkdir_names in E. by intros [= _ <-].
Qed.

Lemma growing_makedirs_rev (ok : bool) (s : string) (rns : list string) :
  growing (makedirs_rev ok s rns).
Proof.
  induction rns as [|c rns IH]; intros w r w'; cbn [makedirs_rev].
  - apply growing_forgiving.
  - destruct (exists_names w (rev rns)); [apply growing_forgiving|].
    destruct (makedirs_rev ok s rns w) as [[e|[]] w1] eqn:E; apply IH in E.
    + destruct (is_FileExistsError e); [|by intros [= _ <-]].
      destruct (decide (c = ".")); [by intros [= _ <-]|].
      intros H. etrans; [done|]. by eapply growing_forgiving.
    + destruct (decide (c = ".")); [by intros [= _ <-]|].
      intros H. etrans; [done|]. by eapply growing_forgiving.
Qed.

Lemma growing_makedirs (s : string) (ok : bool) : growing (makedirs s ok).
Proof. intros w r w'. apply growing_makedirs_rev. Qed.

Lemma growing_link_dependency (self : Builder) (dep : DirEntry) :
  growing (Builder.link_dependency self dep).
Proof.
  unfold Builder.link_dependency.
  apply growing_bind; [apply growing_get|]. intros w.
  destruct (negb (is_dir dep w)); [apply growing_ret|].
  destruct (_ || _); [apply growing_ret|].
  apply growing_bind; [apply growing_scandir|]. intros incs.
  apply growing_bind.
  { apply growing_for_each. intros x. apply growing_symlink. }
  intros _. apply growing_bind; [apply growing_scandir|]. intros libs.
  apply growing_for_each. intros x. apply growing_symlink.
Qed.

(** What exists keeps existing when the world grows. *)
Lemma stat_extends (w w' : World) (s : string) (nd : node) :
  extends w w' → stat w s = Some nd → stat w' s = Some nd.
Proof.
  intros [Hsub Hcwd]. unfold stat, names. rewrite Hcwd.
  destruct (negb (nonempty s)); [done|].
  destruct (walk _ _ (fs w) _ _) as [q|] eqn:E; [|done].
  rewrite (walk_mono _ _ _ _ _ _ Hsub E).
  destruct (node_at (fs w) q) as [nd'|] eqn:En; [|done].
  by rewrite (node_at_mono _ _ _ _ Hsub En).
Qed.

Lemma path_exists_extends (w w' : World) (s : string) :
  extends w w' → path_exists w s = true → path_exists w' s = true.
Proof.
  intros He. unfold path_exists.
  destruct (stat w s) eqn:E; [|done]. by rewrite (stat_extends _ _ _ _ He E).
Qed.

End Growth.

Section Makedirs.

Import Posix.

Lemma dir_at_root (f : FS) : dir_at f [].
Proof. done. Qed.

Lemma isdir_names_walk (w : World) (ns : list string) :
  isdir_names w ns = true ↔
  ∃ q, walk symloop_max Existing (fs w) [] ns = Some q ∧ dir_at (fs w) q.
Proof.
  unfold isdir_names. destruct (walk _ _ _ _ _) as [q|].
  - split; [by eexists|]. by intros (? & [= <-] & ?).
  - split; [done|]. by intros (? & ? & _).
Qed.

Lemma exists_names_parent (w : World) (p : list string) (c : string) :
  isdir_names w (p ++ [c]) = true → exists_names w p = true.
Proof.
  intros (q & Hq & _)%isdir_names_walk.
  apply walk_parent in Hq as (d & Hd & Hdir); [|done].
  unfold exists_names. rewrite Hd. unfold dir_at in Hdir.
  by destruct (node_at (fs w) d).
Qed.

(** [mkdir] on a path that leads to an entry fails and changes nothing. *)
Lemma mkdir_names_exists (w : World) (s : string) (ns : list string) :
  exists_names w ns = true →
  mkdir_names s ns w = (inl (FileExistsError s), w).
Proof.
  unfold exists_names, mkdir_names, locate. intros H.
  destruct (walk _ Existing _ _ _) as [q|] eqn:E; [|done].
  destruct (node_at (fs w) q) as [nd|] eqn:En; [|done].
  apply walk_nofollow in E as (q' & -> & [nd' Hnd]); [|done|by rewrite En].
  by rewrite Hnd.
Qed.

Lemma isdir_exists_names (w : World) (ns : list string) :
  isdir_names w ns = true → exists_names w ns = true.
Proof.
  unfold isdir_names, exists_names. destruct (walk _ _ _ _ _); [|done].
  by destruct (node_at _ _).
Qed.

(** [makedirs(..., exist_ok=True)] on a directory that is there does
    nothing. *)
Lemma makedirs_rev_present (w : World) (s : string) (ns : list string) :
  isdir_names w ns = true →
  makedirs_rev true s (rev ns) w = (inr tt, w).
Proof.
  intros Hdir.
  assert (∀ w1, w1 = w →
    match mkdir_names s ns w1 with
    | (inl e, w2) =>
        if is_OSError e && true && isdir_names w2 ns
        then (inr tt, w2) else (inl e, w2)
    | r => r
    end = (inr tt, w)) as Hforgiving.
  { intros w1 ->. rewrite mkdir_names_exists by by apply isdir_exists_names.
    by rewrite Hdir. }
  destruct ns as [|c ns _] using rev_ind.
  - simpl. by apply Hforgiving.
  - rewrite rev_unit. cbn [makedirs_rev]. rewrite rev_involutive.
    rewrite (exists_names_parent _ _ _ Hdir).
    change (c :: rev ns) with (rev [c] ++ rev ns). rewrite <-rev_app_distr.
    rewrite rev_involutive. by apply Hforgiving.
Qed.

(** When [mkdir] succeeds the directory is there. *)
Lemma mkdir_names_ok (w w' : World) (s : string) (ns : list string) :
  mkdir_names s ns w = (inr tt, w') → isdir_names w' ns = true.
Proof.
  unfold mkdir_names, locate.
  destruct (walk _ NoFollow _ _ _) as [q|] eqn:E; [|done].
  destruct (node_at (fs w) q) eqn:En; [done|]. intros [= <-].
  apply node_at_None in En.
  apply isdir_names_walk. exists q. split.
  - by apply walk_created.
  - unfold dir_at. destruct q as [|x q]; [done|]. simpl.
    by rewrite lookup_insert_eq.
Qed.

(** When [makedirs] succeeds the directory is there, unless the last name
    is [.]: then it may return without looking. *)
Lemma makedirs_rev_ok (ok : bool) (w w' : World) (s : string)
    (rns : list string) :
  head rns ≠ Some "." →
  makedirs_rev ok s rns w = (inr tt, w') → isdir_names w' (rev rns) = true.
Proof.
  intros Hdot.
  assert (∀ w1,
    match mkdir_names s (rev rns) w1 with
    | (inl e, w2) =>
        if is_OSError e && ok && isdir_names w2 (rev rns)
        then (inr tt, w2) else (inl e, w2)
    | r => r
    end = (inr tt, w') → isdir_names w' (rev rns) = true) as Hforgiving.
  { intros w1. destruct (mkdir_names s (rev rns) w1) as [[e|[]] w2] eqn:E.
    - destruct (is_OSError e && ok); simpl; [|done].
      destruct (isdir_names w2 (rev rns)) eqn:Hd; [|done]. by intros [= <-].
    - intros [= <-]. by eapply mkdir_names_ok. }
  destruct rns as [|c rns]; cbn [makedirs_rev].
  - apply Hforgiving.
  - destruct (decide (c = ".")) as [->|Hc]; [by destruct Hdot|].
    destruct (exists_names w (rev rns)); [apply Hforgiving|].
    destruct (makedirs_rev ok s rns w) as [[e|[]] w1].
    + destruct (is_FileExistsError e); [apply Hforgiving|done].
    + apply Hforgiving.
Qed.

Lemma stat_dir_names (w : World) (s : string) :
  s ≠ "" → isdir_names w (names w s) = true → stat w s = Some Dir.
Proof.
  intros Hne (q & Hq & Hd)%isdir_names_walk. unfold stat.
  destruct s; [done|]. cbn [nonempty negb]. rewrite Hq.
  unfold dir_at in Hd. by destruct (node_at (fs w) q) as [[]|].
Qed.

Lemma stat_names (w : World) (s : string) (nd : node) :
  stat w s = Some nd → exists_names w (names w s) = true.
Proof.
  unfold stat, exists_names. destruct (negb (nonempty s)); [done|].
  destruct (walk _ _ _ _ _); [|done]. by destruct (node_at _ _).
Qed.

Lemma exists_names_isdir_parent (w : World) (p : list string) (c : string) :
  exists_names w (p ++ [c]) = true → isdir_names w p = true.
Proof.
  unfold exists_names.
  destruct (walk _ _ _ _ (p ++ [c])) as [q|] eqn:E; [|done]. intros _.
  apply walk_parent in E as (d & Hd & Hdir); [|done].
  apply isdir_names_walk. by exists d.
Qed.

End Makedirs.

Import Posix.

Lemma endswith_app (a b : string) :
  b ≠ "" → Str.endswith_char "/" (a +:+ b) = Str.endswith_char "/" b.
Proof.
  intros Hb. induction a as [|c a IH]; [done|].
  rewrite sapp_cons. simpl. rewrite IH.
  destruct (a +:+ b) eqn:E; [|done]. destruct a; [|done]. by destruct b.
Qed.

(** The part of the idempotence of the hook that holds: when
    [os.path.exists] holds for the runtime library at its place in the
    executable directory of the bundle, the post-build hook completes
    without error and without creating a directory, copying or linking
    anything: the world is unchanged. *)
Theorem copy_moltenvk_idempotent (builder : Builder) (w : World) :
  let dst_dir :=
    (if xcode builder then build_path builder +:+ "Debug" +:+ sep
     else build_path builder)
    +:+ name (target builder) +:+ ".app/Contents/MacOS" +:+ sep in
  path_exists w (dst_dir +:+ "libMoltenVK.dylib") = true →
  Target._copy_moltenvk builder w = (inr tt, w).
Proof.
  intros dst_dir Hex.
  assert (Str.endswith_char "/" dst_dir = true) as Hsep.
  { unfold dst_dir.
    rewrite endswith_app by by destruct (name (target builder)).
    by rewrite endswith_app. }
  assert (makedirs dst_dir true w = (inr tt, w)) as Hmk.
  { unfold makedirs. apply makedirs_rev_present.
    unfold path_exists in Hex.
    destruct (stat w (dst_dir +:+ "libMoltenVK.dylib")) as [nd|] eqn:E; [|done].
    apply stat_names in E. rewrite names_under in E by done.
    by apply exists_names_isdir_parent in E. }
  unfold Target._copy_moltenvk, bind. fold dst_dir.
  rewrite Hmk. cbn [get]. by rewrite Hex.
Qed.

Lemma symlink_made (src dst : string) (w w' : World) :
  symlink src dst w = (inr tt, w') →
  ∃ q, locate w (names w dst) = Some q
       ∧ node_at (fs w) q = None
       ∧ w' = log (EvSymlink src q) (with_fs (<[q := Link src]> (fs w)) w).
Proof.
  unfold symlink. destruct (locate w _) as [q|]; [|done].
  destruct (node_at (fs w) q) eqn:E; [done|]. intros [= <-]. by exists q.
Qed.

Lemma isdir_names_extends (w w' : World) (ns : list string) :
  extends w w' → isdir_names w ns = true → isdir_names w' ns = true.
Proof.
  intros [Hsub _] (q & Hq & Hd)%isdir_names_walk.
  apply isdir_names_walk. exists q. split; [by eapply walk_mono|].
  by eapply is_dir_node_mono.
Qed.

(** C4: the hook is not idempotent.  In IDE mode, when a run of the hook
    completed and the runtime library is still not at its place for
    [os.path.exists], the run has made a link there that leads nowhere (the
    library is missing from the prefix), and the next run raises
    [FileExistsError]: its test does not see the link, and [os.symlink]
    finds the name taken. *)
Theorem copy_moltenvk_dangling_link (builder : Builder) (w w' : World) :
  let src := lib_path builder +:+ "libMoltenVK.dylib" in
  let dst_dir :=
    (if xcode builder then build_path builder +:+ "Debug" +:+ sep
     else build_path builder)
    +:+ name (target builder) +:+ ".app/Contents/MacOS" +:+ sep in
  let dst := dst_dir +:+ "libMoltenVK.dylib" in
  xcode builder = true →
  Target._copy_moltenvk builder w = (inr tt, w') →
  path_exists w' dst = false →
  (∃ q, last (trace w') = Some (EvSymlink src q)
        ∧ fs w' !! q = Some (Link src))
  ∧ Target._copy_moltenvk builder w' = (inl (FileExistsError dst), w').
Proof.
  intros src dst_dir dst Hx Hrun Hnot.
  assert (dst_dir =
            (((if xcode builder then build_path builder +:+ "Debug" +:+ sep
               else build_path builder)
              +:+ name (target builder)) +:+ ".app/Contents/") +:+ "MacOS/")
    as Hsplit.
  { unfold dst_dir.
    change (".app/Contents/MacOS" +:+ sep) with (".app/Contents/" +:+ "MacOS/").
    by rewrite <-!sapp_assoc. }
  unfold Target._copy_moltenvk in Hrun. unfold bind at 1 in Hrun.
  fold dst_dir in Hrun.
  destruct (makedirs dst_dir true w) as [[e|[]] w1] eqn:Emk; [done|].
  unfold bind in Hrun. cbn [get] in Hrun. fold dst src in Hrun.
  destruct (path_exists w1 dst) eqn:Hex1; cbn [negb] in Hrun.
  { injection Hrun as <-. congruence. }
  rewrite Hx in Hrun. apply symlink_made in Hrun as (q & Hloc & Hnone & Hw').
  assert (q ≠ []) as Hq by (by intros ->).
  assert (fs w' !! q = Some (Link src)) as Hlink.
  { subst w'. cbn. by rewrite lookup_insert_eq. }
  assert (extends w1 w') as Hext.
  { subst w'. by apply extends_insert, node_at_None. }
  assert (isdir_names w1 (names w1 dst_dir) = true) as Hdir.
  { pose proof (growing_makedirs _ _ _ _ _ Emk) as [_ Hcwd].
    unfold makedirs in Emk. apply makedirs_rev_ok in Emk.
    - rewrite rev_involutive in Emk. unfold names in *. by rewrite Hcwd.
    - rewrite Hsplit, names_under by by rewrite endswith_app.
      change (components "MacOS/") with ["MacOS"]. by rewrite rev_unit. }
  assert (makedirs dst_dir true w' = (inr tt, w')) as Hmk'.
  { unfold makedirs. apply makedirs_rev_present.
    replace (names w' dst_dir) with (names w1 dst_dir)
      by (unfold names; by rewrite (proj2 Hext)).
    by eapply isdir_names_extends. }
  split.
  - exists q. split; [|done]. subst w'. cbn. by rewrite last_snoc.
  - unfold Target._copy_moltenvk, bind. fold dst_dir. rewrite Hmk'. cbn [get].
    fold dst src. rewrite Hnot, Hx. cbn [negb]. unfold symlink.
    replace (names w' dst) with (names w1 dst)
      by (unfold names; by rewrite (proj2 Hext)).
    unfold locate in *.
    rewrite (walk_nofollow_mono _ _ _ _ _ _ (proj1 Hext) Hloc).
    destruct q as [|x q]; [done|]. cbn [node_at]. by rewrite Hlink.
Qed.

(** C8: a dependency that lacks an [include] or a [lib] subdirectory is
    skipped: its iteration raises nothing and leaves the world as it was, so
    no link is made for it; an iteration that changes the world belongs to a
    directory that has both; and the loop over the dependencies runs as if
    the skipped one were not listed. *)
Theorem dependency_without_both_skipped (self : Builder) (dep : DirEntry) :
  (∀ w,
     path_exists w (de_path dep +:+ sep +:+ "include" +:+ sep) = false
     ∨ path_exists w (de_path dep +:+ sep +:+ "lib" +:+ sep) = false →
     Builder.link_dependency self dep w = (inr tt, w))
  ∧ (∀ w r w',
       Builder.link_dependency self dep w = (r, w') → w' ≠ w →
       is_dir dep w = true
       ∧ path_exists w (de_path dep +:+ sep +:+ "include" +:+ sep) = true
       ∧ path_exists w (de_path dep +:+ sep +:+ "lib" +:+ sep) = true)
  ∧ (∀ before after w w1,
       for_each before (Builder.link_dependency self) w = (inr tt, w1) →
       path_exists w1 (de_path dep +:+ sep +:+ "include" +:+ sep) = false
       ∨ path_exists w1 (de_path dep +:+ sep +:+ "lib" +:+ sep) = false →
       for_each (before ++ dep :: after) (Builder.link_dependency self) w =
         for_each (before ++ after) (Builder.link_dependency self) w).
Proof.
  assert (∀ w,
     path_exists w (de_path dep +:+ sep +:+ "include" +:+ sep) = false
     ∨ path_exists w (de_path dep +:+ sep +:+ "lib" +:+ sep) = false →
     Builder.link_dependency self dep w = (inr tt, w)) as Hskip.
  { intros w H. unfold Builder.link_dependency, bind. cbn [get].
    destruct (negb (is_dir dep w)); [done|].
    by destruct H as [-> | ->]; rewrite ?orb_true_r. }
  split; [done|]. split.
  - intros w r w' H Hne.
    destruct (is_dir dep w) eqn:Hd.
    + destruct (path_exists w (de_path dep +:+ sep +:+ "include" +:+ sep)) eqn:Hi.
      * destruct (path_exists w (de_path dep +:+ sep +:+ "lib" +:+ sep)) eqn:Hl; [done|].
        rewrite Hskip in H by auto. injection H as _ Hw. by destruct Hne.
      * rewrite Hskip in H by auto. injection H as _ Hw. by destruct Hne.
    + unfold Builder.link_dependency, bind in H. cbn [get] in H.
      rewrite Hd in H. cbn [negb ret] in H. injection H as _ Hw. by destruct Hne.
  - intros before. induction before as [|d before IH]; intros after w w1 Hb Hlack.
    + injection Hb as <-. cbn [app for_each]. unfold bind at 1.
      by rewrite (Hskip _ Hlack).
    + cbn [app for_each] in *. unfold bind in *.
      destruct (Builder.link_dependency self d w) as [[e|[]] w2]; [done|].
      by apply IH with w1.
Qed.

Import Posix.

Lemma init_fields (script_dir : string) (arguments : argparse.Namespace)
    (w w' : World) (self : Builder) :
  Builder.__init__ script_dir arguments w = (inr self, w') →
  prefix_path self = (script_dir +:+ sep) +:+ "prefix" +:+ sep
  ∧ include_path self = prefix_path self +:+ "include" +:+ sep
  ∧ lib_path self = prefix_path self +:+ "lib" +:+ sep
  ∧ deps_path self = (script_dir +:+ sep) +:+ "deps" +:+ sep
  ∧ rebuild_prefix self = argparse.rebuild_prefix arguments
  ∧ generate self = negb (argparse.skip_generate arguments)
  ∧ xcode self = argparse.xcode arguments
  ∧ create_package self = argparse.create_package arguments.
Proof.
  unfold Builder.__init__, bind, Builder.lift, ret, raise. intros H.
  repeat case_match; simplify_eq; done.
Qed.

Lemma populate_leaves_prefix (self : Builder) (w w1 : World) :
  Str.endswith_char "/" (prefix_path self) = true →
  include_path self = prefix_path self +:+ "include" +:+ sep →
  (let* _ := makedirs (include_path self) false in
   let* _ := makedirs (lib_path self) false in
   let* deps := scandir (deps_path self) in
   for_each deps (Builder.link_dependency self))%py w = (inr tt, w1) →
  path_exists w1 (prefix_path self) = true.
Proof.
  intros Hsep Hinc. unfold bind at 1.
  destruct (makedirs (include_path self) false w) as [[e|[]] wa] eqn:Emk; [done|].
  intros Hrest.
  assert (extends wa w1) as Hgrow.
  { revert Hrest. apply growing_bind; [apply growing_makedirs|]. intros _.
    apply growing_bind; [apply growing_scandir|]. intros deps.
    apply growing_for_each, growing_link_dependency. }
  apply (path_exists_extends wa); [done|].
  pose proof (growing_makedirs _ _ _ _ _ Emk) as [_ Hcwd].
  unfold makedirs in Emk.
  assert (head (rev (names w (include_path self))) ≠ Some ".") as Hlast.
  { rewrite Hinc, names_under by done.
    change (components ("include" +:+ sep)) with ["include"].
    by rewrite rev_unit. }
  apply makedirs_rev_ok in Emk; [|done].
  rewrite rev_involutive in Emk.
  replace (names w (include_path self)) with (names wa (include_path self)) in Emk
    by (unfold names; by rewrite Hcwd).
  rewrite Hinc, names_under in Emk by done.
  change (components ("include" +:+ sep)) with ["include"] in Emk.
  apply isdir_exists_names, exists_names_isdir_parent in Emk.
  unfold path_exists. rewrite stat_dir_names; [done| |done].
  by destruct (prefix_path self).
Qed.

(** C3: without the rebuild flag, prefix preparation on an existing prefix
    directory returns without error and leaves the world unchanged; and after
    a run that completed, the prefix directory exists, so a second run changes
    nothing. *)
Theorem prefix_preparation_idempotent (self : Builder) (w : World) :
  rebuild_prefix self = false →
  (path_exists w (prefix_path self) = true →
   Builder._create_prefix_directory self w = (inr tt, w))
  ∧ (∀ script_dir arguments w0 w0' w1,
       Builder.__init__ script_dir arguments w0 = (inr self, w0') →
       Builder._create_prefix_directory self w = (inr tt, w1) →
       path_exists w1 (prefix_path self) = true
       ∧ Builder._create_prefix_directory self w1 = (inr tt, w1)).
Proof.
  intros Hrebuild.
  assert (∀ w, path_exists w (prefix_path self) = true →
               Builder._create_prefix_directory self w = (inr tt, w)) as Hskip.
  { intros w2 Hex. unfold Builder._create_prefix_directory, bind. cbn [get].
    by rewrite Hex, Hrebuild. }
  split; [apply Hskip|].
  intros script_dir arguments w0 w0' w1 Hinit Hrun.
  assert (path_exists w1 (prefix_path self) = true) as Hex; [|by auto].
  destruct (init_fields _ _ _ _ _ Hinit) as (Hp & Hi & _).
  unfold Builder._create_prefix_directory in Hrun.
  unfold bind at 1 in Hrun. cbn [get] in Hrun.
  destruct (path_exists w (prefix_path self)) eqn:E.
  - rewrite Hrebuild in Hrun. by injection Hrun as <-.
  - apply (populate_leaves_prefix self w); [|done|done].
    rewrite Hp. by rewrite endswith_app.
Qed.

Import Posix.

Lemma isdir_same (w w' : World) (s : string) :
  fs w' = fs w → cwd w' = cwd w → isdir w' s = isdir w s.
Proof. intros Hf Hc. unfold isdir, stat, names. by rewrite Hf, Hc. Qed.

Lemma run_missing_dir (sh : shell) (argv : list string) (d : string) (w : World) :
  isdir w d = false →
  ∃ e, subprocess.run sh argv (Some d) w = (inl e, w).
Proof. intros H. unfold subprocess.run. rewrite H. by eexists. Qed.

Lemma check_call_missing_dir (sh : shell) (argv : list string) (d : string)
    (w : World) :
  isdir w d = false →
  ∃ e, subprocess.check_call sh argv (Some d) w = (inl e, w).
Proof.
  intros H. destruct (run_missing_dir sh argv d w H) as [e He].
  exists e. unfold subprocess.check_call, bind. by rewrite He.
Qed.

Local Ltac finish :=
  split; [by eexists|]; split; [done|]; split; [done|]; auto.

(** C10, as the code has it: with the skip-generate flag the generation
    stage does nothing at all; and if the build directory is not there when
    that stage is skipped, the compilation stage fails before any build tool
    is started in it (at most the processor query has run), so neither the
    file system nor the environment changes. *)
Theorem skip_generate_needs_build_directory (sh : shell) (self : Builder)
    (w : World) :
  generate self = false →
  Builder._generate_cmake sh self w = (inr tt, w)
  ∧ (isdir w (build_path self) = false →
     (∀ q env f c, sh subprocess.sysctl_argv q env f = Some c → fs_after c = f) →
     ∀ r w',
       (let* _ := Builder._generate_cmake sh self in
        Builder._build_target sh self)%py w = (r, w') →
       (∃ e, r = inl e)
       ∧ fs w' = fs w
       ∧ environ w' = environ w
       ∧ (trace w' = trace w
          ∨ trace w' = trace w ++ [EvExec subprocess.sysctl_argv (cwd w)])).
Proof.
  intros Hgen.
  assert (∀ w, Builder._generate_cmake sh self w = (inr tt, w)) as Hskip.
  { intros w2. unfold Builder._generate_cmake. by rewrite Hgen. }
  split; [apply Hskip|].
  intros Hdir Hsysctl r w'. unfold bind at 1. rewrite Hskip.
  unfold Builder._build_target. unfold bind at 1.
  destruct (xcode self).
  - cbn [ret]. unfold bind.
    destruct (check_call_missing_dir sh ["open"; name (target self) +:+ ".xcodeproj"]
                _ w Hdir) as [e ->].
    intros [= <- <-]. finish.
  - unfold bind at 1. unfold subprocess.check_output at 1.
    unfold bind at 1. unfold subprocess.run at 1.
    fold subprocess.sysctl_argv.
    destruct (sh subprocess.sysctl_argv (cwd w) (environ w) (fs w)) as [c|] eqn:Esh.
    + apply Hsysctl in Esh. rewrite Esh.
      set (w2 := log (EvExec subprocess.sysctl_argv (cwd w)) (with_fs (fs w) w)).
      assert (isdir w2 (build_path self) = false) as Hdir2
        by by rewrite (isdir_same w w2).
      destruct (returncode c =? 0)%Z; cbn [ret raise].
      * unfold bind at 1. unfold subprocess.decode_ascii.
        destruct (subprocess.all_ascii (stdout c)); cbn [ret raise].
        -- unfold bind.
           destruct (check_call_missing_dir sh
                       ["make"; "-j"; subprocess.strip (stdout c)] _ w2 Hdir2)
             as [e ->].
           intros [= <- <-]. finish.
        -- intros [= <- <-]. finish.
      * intros [= <- <-]. finish.
    + intros [= <- <-]. finish.
Qed.

Import Posix.

Lemma pair_of_fst {A B} (p : A * B) (a : A) : p.1 = a → p = (a, p.2).
Proof. destruct p. simpl. by intros ->. Qed.

Lemma detect_target_project_declaration_witness :
  Builder.scan_lines (Str.readlines Demo.cmakelists) = Some "raze"
  ∧ Builder._detect_target "/tmp/mysrc" Target.create_targets Demo.world =
      (inr (Target.__init__ "raze"), Demo.world)
  ∧ ∃ self, Builder.__init__ "/r" Demo.detect_arguments Demo.world =
              (inr self, Demo.world)
            ∧ name (target self) = "raze".
Proof.
  pose proof (detect_target_project_declaration "/r" "/tmp/mysrc"
    Demo.cmakelists Demo.detect_arguments Demo.world
    ["cmake_minimum_required(VERSION 3.1)" +:+ Demo.nl]
    ["add_subdirectory(source)" +:+ Demo.nl]
    "  " "PROJECT" " " " " "Raze" " " Demo.nl) as H.
  destruct H as (H1 & H2 & H3).
  - reflexivity.
  - vm_compute. reflexivity.
  - vm_compute. reflexivity.
  - repeat constructor.
  - vm_compute. reflexivity.
  - vm_compute. reflexivity.
  - vm_compute. reflexivity.
  - vm_compute. reflexivity.
  - vm_compute. reflexivity.
  - vm_compute. do 3 right. left.
  - split; [exact H1|]. split; [exact H2|].
    apply H3; [reflexivity|reflexivity|discriminate].
Defined.

(** C2, at a relative build path: with [--build-path out] the members of the
    archive are named [/lzdoom.app], [/lzdoom.app/Contents], ... and not
    [lzdoom.app], [lzdoom.app/Contents], ...: one character too few is cut
    off, because [tarfile] has no leading separator to strip from a relative
    name.  Owner and group are the fixed ones. *)
Theorem package_relative_build_path_names :
  Builder.__init__ "/r" Demo.package_arguments Demo.world =
    (inr Demo.packager, Demo.world)
  ∧ build_path Demo.packager = "out/"
  ∧ (Builder.package Demo.tools Demo.packager Demo.world).1 =
      inr (Some
        [ ("out/lzdoom.app",
           mkTarInfo "/lzdoom.app" DIRTYPE "root" "root" 0 0);
          ("out/lzdoom.app/Contents",
           mkTarInfo "/lzdoom.app/Contents" DIRTYPE "root" "root" 0 0);
          ("out/lzdoom.app/Contents/Info.plist",
           mkTarInfo "/lzdoom.app/Contents/Info.plist" REGTYPE "root" "root" 0 0);
          ("out/lzdoom.app/Contents/MacOS",
           mkTarInfo "/lzdoom.app/Contents/MacOS" DIRTYPE "root" "root" 0 0);
          ("out/lzdoom.app/Contents/MacOS/libMoltenVK.dylib",
           mkTarInfo "/lzdoom.app/Contents/MacOS/libMoltenVK.dylib" REGTYPE
             "root" "root" 0 0) ]).
Proof.
  split; [reflexivity|]. split; [reflexivity|]. vm_compute. reflexivity.
Qed.

Lemma prefix_preparation_idempotent_witness :
  length (trace Demo.prepared) = 5
  ∧ path_exists Demo.prepared (prefix_path Demo.packager) = true
  ∧ Builder._create_prefix_directory Demo.packager Demo.prepared =
      (inr tt, Demo.prepared).
Proof.
  split; [vm_compute; reflexivity|].
  assert (Builder._create_prefix_directory Demo.packager Demo.world =
            (inr tt, Demo.prepared)) as Hrun.
  { assert ((Builder._create_prefix_directory Demo.packager Demo.world).1 = inr tt)
      as H1 by (vm_compute; reflexivity).
    exact (pair_of_fst _ _ H1). }
  assert (Builder.__init__ "/r" Demo.package_arguments Demo.world =
            (inr Demo.packager, Demo.world)) as Hinit by reflexivity.
  exact (proj2 (prefix_preparation_idempotent Demo.packager Demo.world eq_refl)
           "/r" Demo.package_arguments Demo.world Demo.world Demo.prepared
           Hinit Hrun).
Defined.

Lemma copy_moltenvk_dangling_link_witness :
  (∃ q, last (trace Demo.linked) =
          Some (EvSymlink "/r/prefix/lib/libMoltenVK.dylib" q))
  ∧ Target._copy_moltenvk Demo.ide Demo.linked =
      (inl (FileExistsError "out/Debug/gzdoom.app/Contents/MacOS/libMoltenVK.dylib"),
       Demo.linked).
Proof.
  assert ((Target._copy_moltenvk Demo.ide Demo.world).1 = inr tt) as H1
    by (vm_compute; reflexivity).
  assert (path_exists Demo.linked
            "out/Debug/gzdoom.app/Contents/MacOS/libMoltenVK.dylib" = false) as H2
    by (vm_compute; reflexivity).
  destruct (copy_moltenvk_dangling_link Demo.ide Demo.world Demo.linked eq_refl
              (pair_of_fst _ _ H1) H2) as ((q & Hq & _) & Hsecond).
  split; [by exists q|exact Hsecond].
Defined.

Lemma copy_moltenvk_idempotent_witness :
  Target._copy_moltenvk Demo.packager Demo.world = (inr tt, Demo.world).
Proof.
  apply (copy_moltenvk_idempotent Demo.packager Demo.world).
  vm_compute. reflexivity.
Defined.

Lemma registered_targets_share_options_witness :
  ∃ u h,
    Target.setup (Target.__init__ "raze") Demo.packager =
      inr (Target._assign_zdoom_raze_cmake_options
             (mkTarget "raze" (Some u) [] h) Demo.packager).
Proof.
  destruct (registered_targets_share_options "raze" Demo.packager)
    as (_ & u & h & H & _).
  - vm_compute. do 3 right. left.
  - exists u, h. exact H.
Defined.

Lemma detect_target_failures_witness :
  Builder._detect_target "/tmp/quake" Target.create_targets Demo.world =
    (inl (KeyError "quake"), Demo.world)
  ∧ Builder.main Demo.tools "/r" Demo.quake_arguments Demo.world =
      (inl (KeyError "quake"), Demo.world).
Proof.
  destruct (detect_target_failures Demo.tools "/r" "/tmp/quake"
              Demo.quake_arguments Demo.world)
    as (_ & Hread).
  - reflexivity.
  - reflexivity.
  - discriminate.
  - destruct (Hread ("project(Quake)" +:+ Demo.nl)) as (_ & _ & Hkey & _).
    + vm_compute. reflexivity.
    + vm_compute. reflexivity.
    + destruct (Hkey "quake") as (Hd & _ & Hm).
      * vm_compute. reflexivity.
      * vm_compute. intros H.
        repeat (inversion H as [|? ? ? H']; clear H; rename H' into H).
      * split; [exact Hd|exact Hm].
Defined.

(** C6, as it was stated: the sources of lzdoom are a directory without a
    [CMakeLists.txt]; detection on them fails, and it is neither of the two
    cases: no line was looked at and no name was captured, the failure is
    the [FileNotFoundError] of [open]. *)
Lemma detection_fails_without_cmakelists :
  Posix.isdir Demo.world "/r/source/lzdoom" = true
  ∧ Posix.stat Demo.world "/r/source/lzdoom/CMakeLists.txt" = None
  ∧ (Builder._detect_target "/r/source/lzdoom" Target.create_targets Demo.world).1 =
      inl (FileNotFoundError "/r/source/lzdoom/CMakeLists.txt").
Proof.
  split; [vm_compute; reflexivity|]. split; vm_compute; reflexivity.
Qed.

Lemma xcode_skips_packaging_witness :
  create_package Demo.ide = true
  ∧ Builder.package Demo.tools Demo.ide Demo.world = (inr None, Demo.world).
Proof.
  split; [reflexivity|].
  apply (xcode_skips_packaging Demo.tools Demo.ide Demo.world). reflexivity.
Defined.

Lemma dependency_without_both_skipped_witness :
  is_dir (mkDirEntry "headers" "/r/deps/headers") Demo.world = true
  ∧ Builder.link_dependency Demo.packager
      (mkDirEntry "headers" "/r/deps/headers") Demo.world = (inr tt, Demo.world).
Proof.
  split; [vm_compute; reflexivity|].
  apply (proj1 (dependency_without_both_skipped Demo.packager
                  (mkDirEntry "headers" "/r/deps/headers"))).
  right. vm_compute. reflexivity.
Defined.

Lemma init_roots_end_with_separator_witness :
  Str.endswith_char "/" (source_path Demo.packager) = true
  ∧ Str.endswith_char "/" (build_path Demo.packager) = true.
Proof.
  apply (init_roots_end_with_separator "/r" Demo.package_arguments
           Demo.world Demo.world Demo.packager).
  reflexivity.
Defined.

Lemma skip_generate_needs_build_directory_witness :
  Builder._generate_cmake Demo.tools Demo.skipper Demo.world = (inr tt, Demo.world)
  ∧ ∃ e, (Builder._build_target Demo.tools Demo.skipper Demo.world).1 = inl e.
Proof.
  destruct (skip_generate_needs_build_directory Demo.tools Demo.skipper Demo.world)
    as [Hgen Hbuild].
  - reflexivity.
  - split; [exact Hgen|].
    destruct (Builder._build_target Demo.tools Demo.skipper Demo.world)
      as [r w'] eqn:E.
    assert (isdir Demo.world (build_path Demo.skipper) = false) as Hdir
      by (vm_compute; reflexivity).
    destruct (Hbuild Hdir) with r w' as ([e ->] & _).
    + intros q env f c H. unfold Demo.tools in H. simpl in H. by injection H as <-.
    + unfold bind. rewrite Hgen. exact E.
    + by exists e.
Defined.

(** With [--build-path /r/prefix/lib --skip-generate] the build directory
    does not exist before the invocation, prefix preparation creates it, and
    the build tool is started in it. *)
Lemma build_directory_made_by_prefix_stage :
  Builder.__init__ "/r" Demo.skip_arguments Demo.world = (inr Demo.skipper, Demo.world)
  ∧ generate Demo.skipper = false
  ∧ build_path Demo.skipper = "/r/prefix/lib/"
  ∧ isdir Demo.world (build_path Demo.skipper) = false
  ∧ (Builder.run Demo.tools Demo.skipper Demo.world).1 = inr tt
  ∧ trace (Builder.run Demo.tools Demo.skipper Demo.world).2 =
      [ EvMkdir ["r"; "prefix"];
        EvMkdir ["r"; "prefix"; "include"];
        EvMkdir ["r"; "prefix"; "lib"];
        EvSymlink "/r/deps/moltenvk/include/vulkan.h"
          ["r"; "prefix"; "include"; "vulkan.h"];
        EvSymlink "/r/deps/moltenvk/lib/libMoltenVK.dylib"
          ["r"; "prefix"; "lib"; "libMoltenVK.dylib"];
        EvExec ["sysctl"; "-n"; "hw.ncpu"] ["r"];
        EvExec ["make"; "-j"; "8"] ["r"; "prefix"; "lib"] ].
Proof.
  split; [reflexivity|].
  split; [reflexivity|].
  split; [reflexivity|].
  split; [vm_compute; reflexivity|].
  split; vm_compute; reflexivity.
Qed.

(** * The archive on an absolute build path *)

Section Archive.

Import Posix.

Lemma fields_good (s : string) : Forall good_name (fields s).
Proof.
  induction s as [|c s IH]; simpl.
  - by repeat constructor.
  - destruct (Ascii.eqb c "/") eqn:E.
    + by constructor.
    + destruct (fields s) as [|f fs']; [by repeat constructor; unfold good_name; simpl; rewrite E|].
      inversion IH as [|? ? Hf Hfs]; subst. constructor; [|done].
      unfold good_name in *. simpl. by rewrite E, Hf.
Qed.

Lemma components_good (s : string) : Forall good_name (components s).
Proof.
  unfold components. apply Forall_forall. intros x [_ Hx]%list_elem_of_filter.
  by apply (proj1 (Forall_forall _ _) (fields_good s)).
Qed.

Lemma good_parent (cur : list string) :
  Forall good_name cur → Forall good_name (parent cur).
Proof.
  unfold parent. induction 1 as [|x l Hx Hl IH]; [done|].
  simpl. destruct l; [done|]. by constructor.
Qed.

Lemma walk_good (n : nat) (m : mode) (f : FS) (cur todo q : list string) :
  names_wf f →
  Forall good_name cur → Forall good_name todo →
  walk n m f cur todo = Some q → Forall good_name q.
Proof.
  intros Hwf. revert cur todo.
  induction n as [|n IHn]; intros cur todo; revert cur;
    (induction todo as [|x todo IH]; intros cur Hcur Htodo H;
     [rewrite walk_nil in H; by injection H as <-|]);
    inversion Htodo as [|? ? Hx Hrest]; subst;
    (destruct (decide (x = ".")) as [->|Hd];
     [rewrite walk_dot in H; by apply (IH cur)
     |destruct (decide (x = "..")) as [->|Hdd];
      [rewrite walk_dotdot in H;
       destruct (is_dir_node (node_at f (parent cur))); [|done];
       apply (IH (parent cur)); [by apply good_parent|done|done]
      |]]);
    assert (Forall good_name (cur ++ [x])) as Hsnoc
      by (apply Forall_app; split; [done|by constructor]);
    rewrite walk_cons in H by done;
    repeat case_match; simplify_eq; try done; try (by apply (IH (cur ++ [x]))).
  all: apply IHn in H; [done| |apply Forall_app; split; [apply components_good|done]].
  all: first [done|by constructor].
Qed.

Lemma names_good (w : World) (s : string) :
  Forall good_name (cwd w) → Forall good_name (names w s).
Proof.
  intros H. unfold names. destruct (isabs s); [apply components_good|].
  apply Forall_app. split; [done|apply components_good].
Qed.

Lemma names_wf_insert (f : FS) (q : list string) (nd : node) :
  names_wf f → Forall good_name q → names_wf (<[q := nd]> f).
Proof.
  intros Hwf Hq k nd' H. destruct (decide (q = k)) as [<-|Hne]; [done|].
  rewrite lookup_insert_ne in H by done. by eapply Hwf.
Qed.

Lemma names_wf_delete (f : FS) (q : list string) :
  names_wf f → names_wf (delete q f).
Proof.
  intros Hwf k nd H. destruct (decide (q = k)) as [<-|Hne].
  - by rewrite lookup_delete_eq in H.
  - rewrite lookup_delete_ne in H by done. by eapply Hwf.
Qed.

Lemma write_file_wf (s : string) (d : content) (w w' : World) (r : exn + unit) :
  world_wf w → write_file s d w = (r, w') → world_wf w'.
Proof.
  intros [Hwf Hcwd]. unfold write_file.
  destruct (walk _ _ _ _ _) as [q|] eqn:E; [|by intros [= _ <-]].
  apply walk_good in E; [|done|by constructor|by apply names_good].
  repeat case_match; intros [= _ <-]; try done;
    (split; [by apply names_wf_insert|done]).
Qed.

Lemma remove_wf (s : string) (w w' : World) (r : exn + unit) :
  world_wf w → remove s w = (r, w') → world_wf w'.
Proof.
  intros [Hwf Hcwd]. unfold remove.
  repeat case_match; intros [= _ <-]; try done;
    (split; [by apply names_wf_delete|done]).
Qed.

Lemma children_good (f : FS) (q : list string) (c : string) :
  names_wf f → c ∈ children f q → good_name c.
Proof.
  intros Hwf. unfold children.
  intros ([k nd] & Hin & Hc)%list_elem_of_omap.
  apply elem_of_map_to_list in Hin. simpl in Hc.
  destruct (last k) as [c'|] eqn:El; [|done].
  case_decide as Hk; [|done]. injection Hc as ->.
  apply Hwf in Hin. rewrite Hk in Hin.
  apply Forall_app in Hin as [_ Hc]. by inversion Hc.
Qed.

Lemma listdir_good (s : string) (w w' : World) (l : list string) :
  names_wf (fs w) → listdir s w = (inr l, w') → Forall good_name l.
Proof.
  intros Hwf. unfold listdir. repeat case_match; intros [= <- _].
  apply Forall_forall. intros c. by apply children_good.
Qed.

Lemma sorted_good (l : list string) :
  Forall good_name l → Forall good_name (tarfile.sorted l).
Proof.
  intros H. unfold tarfile.sorted.
  by rewrite (merge_sort_Permutation String.le l).
Qed.

Lemma good_name_not_abs (f : string) : good_name f → isabs f = false.
Proof.
  unfold good_name. destruct f as [|c f]; [done|].
  change (isabs (String c f)) with (Ascii.eqb "/" c && Str.startswith "" f).
  cbn [has_sep]. intros [H _]%orb_false_elim.
  by rewrite Ascii.eqb_sym, H.
Qed.

Lemma join_under (p f : string) :
  good_name f → ∃ rel, join p f = p +:+ rel.
Proof.
  intros Hf. unfold join. rewrite (good_name_not_abs f Hf).
  destruct (_ || _); [by exists f|by exists ("/" +:+ f)].
Qed.


(** Every member of the archive comes from a file below the one that was
    added, and is what the filter makes of that file's header. *)
Lemma add_members (n : nat) (w : World) (flt : TarInfo → TarInfo)
    (p : string) (ms : list (string * TarInfo)) :
  names_wf (fs w) →
  tarfile.add n w flt p p = inr ms →
  Forall (λ m, ∃ rel ty,
            m.1 = p +:+ rel ∧ m.2 = flt (tarfile.gettarinfo w ty m.1)) ms.
Proof.
  intros Hwf. revert p ms. induction n as [|n IH]; intros p ms; [done|].
  cbn [tarfile.add].
  assert (∀ ty, ∃ rel ty',
            p = p +:+ rel ∧
            flt (tarfile.gettarinfo w ty p) = flt (tarfile.gettarinfo w ty' p))
    as Hself by (intros ty; exists "", ty; by rewrite sapp_nil_r).
  destruct (lstat_names w (names w p)) as [[| |]|]; try done.
  - destruct (listdir p w) as [[e|l] w1] eqn:El; [done|].
    apply listdir_good, sorted_good in El; [|done].
    destruct (tarfile.add_each _ p p _) as [e|ms'] eqn:Eeach; [done|].
    intros [= <-]. constructor; [apply Hself|].
    revert ms' Eeach. induction El as [|f l' Hf _ IHl]; intros ms' Eeach.
    + injection Eeach as <-. constructor.
    + cbn [tarfile.add_each] in Eeach.
      destruct (join_under p f Hf) as [rel Hrel].
      destruct (tarfile.add n w flt (join p f) (join p f)) as [e|ms1] eqn:E1;
        [done|].
      destruct (tarfile.add_each _ p p l') as [e|ms2]; [done|].
      injection Eeach as <-. apply Forall_app. split; [|by apply IHl].
      apply IH in E1. eapply Forall_impl; [exact E1|].
      intros m (rel' & ty & Hm & Hti). exists (rel +:+ rel'), ty.
      split; [|done]. by rewrite Hm, Hrel, sapp_assoc.
  - intros [= <-]. constructor; [apply Hself|constructor].
  - intros [= <-]. constructor; [apply Hself|constructor].
Qed.

Lemma drop_app_length (a b : string) : Str.drop (String.length a) (a +:+ b) = b.
Proof. induction a as [|c a IH]; [by destruct b|]. by rewrite sapp_cons. Qed.

(** On a path with exactly one leading separator the filter leaves what
    follows the build path. *)
Lemma tar_filter_strips (w : World) (ty : tartype) (c : ascii) (b rest : string) :
  c ≠ "/"%char →
  let bp := String "/" (String c b) in
  Builder.tar_filter (Z.of_nat (String.length bp) - 1)
    (tarfile.gettarinfo w ty (bp +:+ rest)) =
    mkTarInfo rest ty "root" "root" 0 0.
Proof.
  intros Hc bp. unfold Builder.tar_filter, tarfile.gettarinfo.
  cbn [ti_name ti_type]. f_equal.
  unfold bp. rewrite !sapp_cons. cbn [Str.lstrip].
  rewrite Ascii.eqb_refl. cbn [Str.lstrip].
  destruct (Ascii.eqb_spec c "/") as [->|_]; [done|].
  unfold Builder.slice_from.
  replace (Z.of_nat (String.length (String "/" (String c b))) - 1)%Z
    with (Z.of_nat (String.length (String c b))) by (cbn [String.length]; lia).
  destruct (Z.ltb_spec (Z.of_nat (String.length (String c b))) 0); [lia|].
  rewrite Nat2Z.id, <-sapp_cons. apply drop_app_length.
Qed.


Lemma check_output_wf (sh : shell) (argv : list string) (d : option string)
    (w w' : World) (r : exn + string) :
  (∀ argv q env f c, names_wf f → sh argv q env f = Some c →
                     names_wf (fs_after c)) →
  world_wf w → subprocess.check_output sh argv d w = (r, w') → world_wf w'.
Proof.
  intros Hsh [Hwf Hcwd]. unfold subprocess.check_output, bind, subprocess.run.
  destruct (match d with Some _ => _ | None => _ end) as [q|];
    [|by intros [= _ <-]].
  destruct (sh argv q (environ w) (fs w)) as [c|] eqn:E; [|by intros [= _ <-]].
  apply Hsh in E; [|done].
  destruct (returncode c =? 0)%Z; by intros [= _ <-].
Qed.

(** X19: for an absolute build path every member of the package is named
    by its file's path below the build directory, and is owned by root. *)
Lemma package_members_absolute (sh : shell) (self : Builder) (w w' : World)
    (c : ascii) (b : string) (ms : list (string * TarInfo)) :
  build_path self = String "/" (String c b) →
  c ≠ "/"%char →
  world_wf w →
  (∀ argv q env f c, names_wf f → sh argv q env f = Some c →
                     names_wf (fs_after c)) →
  Builder.package sh self w = (inr (Some ms), w') →
  Forall (λ m, m.1 = build_path self +:+ ti_name m.2
               ∧ ti_uname m.2 = "root" ∧ ti_gname m.2 = "root"
               ∧ ti_uid m.2 = 0%Z ∧ ti_gid m.2 = 0%Z) ms.
Proof.
  intros Hbp Hc Hw Hsh. unfold Builder.package.
  destruct (negb (create_package self) || xcode self); [done|].
  unfold bind at 1.
  destruct (subprocess.check_output sh _ _ w) as [[e|out] w1] eqn:Eout; [done|].
  apply check_output_wf in Eout; [|done|done].
  unfold bind at 1. unfold subprocess.decode_ascii.
  destruct (subprocess.all_ascii out); cbn [ret raise]; [|done].
  unfold bind at 1. cbn [get]. unfold bind at 1.
  set (package_path := build_path self +:+ _ +:+ "-" +:+ _ +:+ ".tar.bz2").
  destruct (if path_exists w1 package_path then remove package_path else ret tt)
    as [r w2] eqn:Erm.
  assert (world_wf (r, w2).2) as Hw2.
  { rewrite <-Erm. destruct (path_exists w1 package_path); [|done].
    destruct (remove package_path w1) as [r' w2'] eqn:E. by eapply remove_wf. }
  destruct r as [e|[]]; [done|]. cbn [snd] in Hw2.
  unfold bind, tarfile.create.
  destruct (write_file package_path (TarBz2 []) w2) as [[e|[]] w3] eqn:Ew; [done|].
  apply write_file_wf in Ew; [|done].
  destruct (tarfile.add _ w3 _ _ _) as [e|ms'] eqn:Eadd; [done|].
  destruct (write_file package_path _ w3) as [[e|[]] w4]; [done|].
  intros [= <- _]. apply add_members in Eadd; [|apply Ew].
  eapply Forall_impl; [exact Eadd|]. intros [file ti] (rel & ty & Hfile & Hti).
  cbn [fst snd] in *. rewrite Hfile, Hbp, sapp_assoc in Hti.
  rewrite tar_filter_strips in Hti by done. subst ti. cbn.
  by rewrite Hfile, Hbp, sapp_assoc.
Qed.

End Archive.

(** * Runs on the small installation *)

Example search_project_line :
  Re.search Re.project_pattern "  PROJECT ( Raze )  # the engine" = Some "Raze".
Proof. reflexivity. Qed.

Example search_needs_parentheses :
  Re.search Re.project_pattern "project Raze" = None.
Proof. reflexivity. Qed.

Example readlines_universal_newlines :
  Str.readlines ("a" +:+ String "013" (String "010" "b")) =
    [String "a" (String "010" ""); "b"].
Proof. reflexivity. Qed.

Example registered_target_names :
  Target.get_target_names = ["gzdoom"; "lzdoom"; "qzdoom"; "raze"].
Proof. reflexivity. Qed.

(** A link that leads nowhere does not exist for [os.path.exists]: in IDE
    mode, when the library is missing from the prefix, the first run of the
    hook leaves such a link, and the second run fails on it. *)
Remark copy_moltenvk_broken_link :
  let dst := "out/Debug/gzdoom.app/Contents/MacOS/libMoltenVK.dylib" in
  let first := Target._copy_moltenvk Demo.ide Demo.world in
  first.1 = inr tt
  ∧ Posix.path_exists first.2 dst = false
  ∧ (Target._copy_moltenvk Demo.ide first.2).1 = inl (FileExistsError dst).
Proof.
  split; [vm_compute; reflexivity|].
  split; vm_compute; reflexivity.
Qed.

(** The package of a build directory given by an absolute path. *)
Example package_absolute_build_path_names :
  let arguments :=
    Demo.arguments (Some "lzdoom") None (Some "/r/out") false false true in
  (Builder.package Demo.tools (Demo.builder arguments) Demo.world).1 =
    inr (Some
      [ ("/r/out/lzdoom.app",
         mkTarInfo "lzdoom.app" DIRTYPE "root" "root" 0 0);
        ("/r/out/lzdoom.app/Contents",
         mkTarInfo "lzdoom.app/Contents" DIRTYPE "root" "root" 0 0);
        ("/r/out/lzdoom.app/Contents/Info.plist",
         mkTarInfo "lzdoom.app/Contents/Info.plist" REGTYPE "root" "root" 0 0);
        ("/r/out/lzdoom.app/Contents/MacOS",
         mkTarInfo "lzdoom.app/Contents/MacOS" DIRTYPE "root" "root" 0 0);
        ("/r/out/lzdoom.app/Contents/MacOS/libMoltenVK.dylib",
         mkTarInfo "lzdoom.app/Contents/MacOS/libMoltenVK.dylib" REGTYPE
           "root" "root" 0 0) ]).
Proof. vm_compute. reflexivity. Qed.

(** The names [.] and [..] are resolved as the operating system resolves
    them, also in the target of a link. *)
Example dotted_paths_resolve :
  Posix.isdir Demo.world "./out/" = true
  ∧ Posix.isdir Demo.world "/r/deps/../out/" = true
  ∧ Posix.path_exists Demo.world "../tmp/mysrc/CMakeLists.txt" = true
  ∧ Posix.path_exists Demo.world "/r/out/lzdoom.app/Contents/Info.plist/.." = false
  ∧ Posix.path_exists
      (with_fs (<[ ["r"; "deps"; "headers"; "lib"] := Link "../moltenvk/lib" ]>
                  (fs Demo.world)) Demo.world)
      "/r/deps/headers/lib/" = true.
Proof.
  split; [vm_compute; reflexivity|]. split; [vm_compute; reflexivity|].
  split; [vm_compute; reflexivity|]. split; vm_compute; reflexivity.
Qed.

(** * The constructor *)

Section Constructor.

Import Posix.

Lemma read_text_world (s : string) (w : World) : (read_text s w).2 = w.
Proof. unfold read_text. by repeat case_match. Qed.

Lemma getitem_world (k : string) (w : World) :
  (Builder.getitem Target.create_targets k w).2 = w.
Proof. rewrite getitem_targets. by destruct (decide _). Qed.

Lemma getitem_ok (k : string) (w w' : World) (t : Target) :
  Builder.getitem Target.create_targets k w = (inr t, w') →
  t = Target.__init__ k ∧ k ∈ Target.get_target_names.
Proof.
  rewrite getitem_targets. destruct (decide _); [|done]. by intros [= <- _].
Qed.

Lemma detect_target_world (src : string) (w : World) :
  (Builder._detect_target src Target.create_targets w).2 = w.
Proof.
  unfold Builder._detect_target, bind.
  pose proof (read_text_world (src +:+ sep +:+ "CMakeLists.txt") w) as Hr.
  destruct (read_text _ w) as [[e|text] w1]; simpl in Hr; subst w1; [done|].
  destruct (Str.truthy _); [apply getitem_world|done].
Qed.

Lemma detect_target_ok (src : string) (w w' : World) (t : Target) :
  Builder._detect_target src Target.create_targets w = (inr t, w') →
  ∃ k, t = Target.__init__ k ∧ k ∈ Target.get_target_names.
Proof.
  unfold Builder._detect_target, bind.
  destruct (read_text _ w) as [[e|text] w1]; [done|].
  destruct (Str.truthy _); [|done]. intros H%getitem_ok. by eexists.
Qed.

(** What the setup of a registered name yields. *)
Lemma setup_registered_target (n : string) (self : Builder) :
  n ∈ Target.get_target_names →
  ∃ t u, Target.setup (Target.__init__ n) self = inr t
         ∧ name t = n ∧ url t = Some u
         ∧ cmake_options t =
             cmake_options
               (Target._assign_zdoom_raze_cmake_options (Target.__init__ n) self)
         ∧ (post_build t = Some copy_moltenvk_hook ↔ n = "gzdoom" ∨ n = "qzdoom").
Proof.
  rewrite registered_names. intros H.
  repeat (apply elem_of_cons in H as [->|H]); [..|by apply elem_of_nil in H];
    eexists _, _; (split; [reflexivity|]); cbn;
    (split; [done|]); (split; [done|]); (split; [done|]); split;
    first [by auto | by intros [?|?] | done].
Qed.


(** The target and source path the constructor settles on, before the
    setup: a registered, still unconfigured target. *)
Lemma init_selection (script_dir : string) (arguments : argparse.Namespace)
    (w w' : World) (self : Builder) :
  Builder.__init__ script_dir arguments w = (inr self, w') →
  ∃ k src bp,
    k ∈ Target.get_target_names
    ∧ Target.setup (Target.__init__ k)
        (mkBuilder (script_dir +:+ sep)
           ((script_dir +:+ sep) +:+ "deps" +:+ sep)
           ((script_dir +:+ sep) +:+ "prefix" +:+ sep)
           (((script_dir +:+ sep) +:+ "prefix" +:+ sep) +:+ "include" +:+ sep)
           (((script_dir +:+ sep) +:+ "prefix" +:+ sep) +:+ "lib" +:+ sep)
           (argparse.xcode arguments) (argparse.checkout_commit arguments)
           (negb (argparse.skip_generate arguments))
           (argparse.rebuild_prefix arguments) bp
           (argparse.sdk_path arguments) (argparse.create_package arguments)
           (Target.__init__ k) src) = inr (target self)
    ∧ lib_path self = ((script_dir +:+ sep) +:+ "prefix" +:+ sep) +:+ "lib" +:+ sep
    ∧ include_path self =
        ((script_dir +:+ sep) +:+ "prefix" +:+ sep) +:+ "include" +:+ sep.
Proof.
  unfold Builder.__init__, bind. intros H.
  destruct (Str.truthy (argparse.target arguments)).
  - destruct (Builder.getitem _ _ w) as [[e|t] w1] eqn:E; [done|].
    apply getitem_ok in E as [-> Hk]. cbn [ret fst snd] in H.
    destruct (Builder.lift _ w1) as [[e|t'] w2] eqn:El; [done|].
    injection H as <- _. unfold Builder.lift in El.
    destruct (Target.setup _ _) as [e|t''] eqn:Es; [done|].
    injection El as <- _. by eexists _, _, _.
  - destruct (Str.truthy (argparse.source_path arguments)); [|done].
    destruct (Builder._detect_target _ _ w) as [[e|t] w1] eqn:E; [done|].
    apply detect_target_ok in E as (k & -> & Hk). cbn [ret fst snd] in H.
    destruct (Builder.lift _ w1) as [[e|t'] w2] eqn:El; [done|].
    injection H as <- _. unfold Builder.lift in El.
    destruct (Target.setup _ _) as [e|t''] eqn:Es; [done|].
    injection El as <- _. by eexists _, _, _.
Qed.

End Constructor.

(** X1: the constructor reads at most [CMakeLists.txt]; whatever it returns,
    the world (file system, environment, trace of actions) is as before. *)
Theorem init_leaves_world (script_dir : string) (arguments : argparse.Namespace)
    (w : World) :
  (Builder.__init__ script_dir arguments w).2 = w.
Proof.
  unfold Builder.__init__, bind.
  destruct (Str.truthy (argparse.target arguments)).
  - pose proof (getitem_world (default "" (argparse.target arguments)) w) as Hg.
    destruct (Builder.getitem _ _ w) as [[e|t] w1]; simpl in Hg; subst w1; [done|].
    cbn [ret]. unfold Builder.lift. by destruct (Target.setup _ _).
  - destruct (Str.truthy (argparse.source_path arguments)); [|done].
    pose proof (detect_target_world (default "" (argparse.source_path arguments)) w)
      as Hd.
    destruct (Builder._detect_target _ _ w) as [[e|t] w1]; simpl in Hd; subst w1;
      [done|].
    cbn [ret]. unfold Builder.lift. by destruct (Target.setup _ _).
Qed.

(** X2: a builder that the constructor returns has a registered target that
    is configured: it has a repository URL and seven options, of which the
    OpenAL ones point into this builder's own include and library
    directories, and the hook is set for gzdoom and qzdoom only. *)
Theorem init_target_configured (script_dir : string)
    (arguments : argparse.Namespace) (w w' : World) (self : Builder) :
  Builder.__init__ script_dir arguments w = (inr self, w') →
  name (target self) ∈ Target.get_target_names
  ∧ (∃ u, url (target self) = Some u)
  ∧ length (cmake_options (target self)) = 7
  ∧ dict_get "OPENAL_INCLUDE_DIR" (cmake_options (target self)) =
      Some (include_path self)
  ∧ dict_get "OPENAL_LIBRARY" (cmake_options (target self)) =
      Some (lib_path self +:+ "libopenal.a")
  ∧ (post_build (target self) = Some copy_moltenvk_hook ↔
     name (target self) = "gzdoom" ∨ name (target self) = "qzdoom").
Proof.
  intros (k & src & bp & Hk & Hsetup & Hlib & Hinc)%init_selection.
  match type of Hsetup with
  | Target.setup _ ?b = _ =>
      destruct (setup_registered_target k b Hk) as (t & u & Ht & Hn & Hu & Ho & Hp)
  end.
  rewrite Ht in Hsetup. injection Hsetup as <-.
  rewrite Hn, Hu, Ho, Hlib, Hinc. repeat split; try done; try by eexists.
  - by apply Hp.
  - by apply Hp.
Qed.

(** X3: with [--target] the constructor reads nothing: on any world it
    returns a builder for that target, with the sources under
    [<root>/source/<name>/] and the build root under
    [<root>/build/<name>/<make|xcode>/] unless a non-empty [--build-path]
    replaces it. *)
Theorem init_with_target (script_dir t : string)
    (arguments : argparse.Namespace) (w : World) :
  argparse.target arguments = Some t →
  t ∈ Target.get_target_names →
  ∃ self,
    Builder.__init__ script_dir arguments w = (inr self, w)
    ∧ name (target self) = t
    ∧ source_path self =
        ((script_dir +:+ Posix.sep) +:+ "source" +:+ Posix.sep +:+ t) +:+ Posix.sep
    ∧ build_path self =
        match argparse.build_path arguments with
        | Some (String c p) => String c p +:+ Posix.sep
        | _ =>
            ((script_dir +:+ Posix.sep) +:+ "build" +:+ Posix.sep +:+ t
               +:+ Posix.sep
               +:+ (if argparse.xcode arguments then "xcode" else "make"))
            +:+ Posix.sep
        end.
Proof.
  intros Ht Hreg.
  assert (Str.truthy (Some t) = true) as Htruthy.
  { destruct t; [|done]. rewrite registered_names in Hreg.
    repeat (apply elem_of_cons in Hreg as [Hreg|Hreg]; [discriminate|]).
    by apply elem_of_nil in Hreg. }
  unfold Builder.__init__, bind. rewrite Ht, Htruthy. cbn [from_option].
  change (id t) with t.
  rewrite getitem_targets, decide_True by done. cbn [ret fst snd].
  match goal with
  | |- context [Target.setup _ ?b] =>
      destruct (setup_registered_target t b Hreg) as (t' & u & -> & Hn & _)
  end.
  cbn [Builder.lift ret]. eexists. split; [done|]. cbn.
  split; [done|]. split; [done|].
  by destruct (argparse.build_path arguments) as [[|c p]|].
Qed.

(** X4: on arguments that the parser lets through, the constructor fails in
    source-path mode only.  With [--target] it returns a builder; with an
    empty [--source-path] it raises [AssertionError]; with any other source
    path it fails exactly when target detection fails, and with the error
    of the detection.  The world is untouched. *)
Theorem parsed_init_failures (script_dir : string)
    (arguments : argparse.Namespace) (w : World) :
  Builder.parsed arguments = true →
  (is_Some (argparse.target arguments) →
   ∃ self, Builder.__init__ script_dir arguments w = (inr self, w))
  ∧ (argparse.source_path arguments = Some "" →
     Builder.__init__ script_dir arguments w = (inl AssertionError, w))
  ∧ (∀ src e,
       argparse.source_path arguments = Some src → src ≠ "" →
       (Builder.__init__ script_dir arguments w = (inl e, w)
        ↔ Builder._detect_target src Target.create_targets w = (inl e, w))).
Proof.
  unfold Builder.parsed.
  destruct (argparse.target arguments) as [t|] eqn:Ht;
    destruct (argparse.source_path arguments) as [s|] eqn:Hs; try done.
  - intros Hreg%bool_decide_eq_true. split; [|done]. intros _.
    assert (Str.truthy (Some t) = true) as Htruthy.
    { destruct t; [|done]. rewrite registered_names in Hreg.
      repeat (apply elem_of_cons in Hreg as [Hreg|Hreg]; [discriminate|]).
      by apply elem_of_nil in Hreg. }
    unfold Builder.__init__, bind. rewrite Ht, Htruthy. cbn [from_option].
    change (id t) with t.
    rewrite getitem_targets, decide_True by done. cbn [ret fst snd].
    match goal with
    | |- context [Target.setup _ ?b] =>
        destruct (setup_registered_target t b Hreg) as (t' & u & -> & _)
    end.
    cbn [Builder.lift ret]. by eexists.
  - intros _. split; [by intros []|]. split.
    + intros [= ->]. unfold Builder.__init__, bind. by rewrite Ht, Hs.
    + intros src e [= ->] Hne. split.
      * unfold Builder.__init__, bind.
        rewrite Ht, Hs, (truthy_nonempty _ Hne). cbn [Str.truthy from_option].
        change (id src) with src.
        pose proof (detect_target_world src w) as Hw.
        destruct (Builder._detect_target src Target.create_targets w)
          as [[e'|t] w1] eqn:E; simpl in Hw; subst w1.
        { by intros [= ->]. }
        apply detect_target_ok in E as (k & -> & Hk). cbn [ret fst snd].
        match goal with
        | |- context [Target.setup _ ?b] =>
            destruct (setup_registered_target k b Hk) as (t' & u & -> & _)
        end.
        done.
      * intros Hd.
        destruct (init_detect_fails (λ _ _ _ _, None) script_dir src arguments w e)
          as [Hi _]; [by rewrite Ht|done..].
Qed.

(** X5: a target can be set up exactly when its name is registered. *)
Theorem setup_iff_registered (n : string) (self : Builder) :
  (∃ t, Target.setup (Target.__init__ n) self = inr t) ↔
  n ∈ Target.get_target_names.
Proof.
  split.
  - intros [t Ht]. destruct (decide (n ∈ Target.get_target_names)); [done|].
    by rewrite unregistered_target_setup_fails in Ht.
  - intros Hn. destruct (setup_registered_target n self Hn) as (t & _ & Ht & _).
    by exists t.
Qed.

(** * The options of the engine family *)

Section Options.

Implicit Types (k v : string) (d : list (string * string)).

Lemma dict_get_set_eq k v d : dict_get k (dict_set k v d) = Some v.
Proof.
  induction d as [|[k' v'] d IH]; simpl.
  - by rewrite decide_True.
  - destruct (decide (k' = k)) as [->|Hne]; simpl.
    + by rewrite decide_True.
    + by rewrite decide_False.
Qed.

Lemma dict_get_set_ne k k' v d :
  k ≠ k' → dict_get k' (dict_set k v d) = dict_get k' d.
Proof.
  intros Hne. induction d as [|[k0 v0] d IH]; simpl.
  - by rewrite decide_False.
  - destruct (decide (k0 = k)) as [->|Hk]; simpl.
    + by rewrite !decide_False.
    + by rewrite IH.
Qed.

Lemma dict_set_same k v d : dict_get k d = Some v → dict_set k v d = d.
Proof.
  induction d as [|[k0 v0] d IH]; simpl; [done|].
  destruct (decide (k0 = k)) as [->|Hk].
  - by intros [= ->].
  - intros H. by rewrite IH.
Qed.

Lemma foldl_append {A} (g : A → string) (l : list A) (base : string) :
  foldl (λ acc x, acc +:+ g x) base l =
    base +:+ foldr (λ x r, g x +:+ r) "" l.
Proof.
  revert base. induction l as [|x l IH]; intros base; simpl.
  - by rewrite sapp_nil_r.
  - by rewrite IH, sapp_assoc.
Qed.

End Options.

Local Ltac lookup_option :=
  repeat (rewrite dict_get_set_ne by discriminate); apply dict_get_set_eq.

(** X6: the shared routine keeps the name, URL and hook of the target, sets
    its seven options whatever the options were before, leaves every other
    option as it was, and running it again changes nothing.  The linker flags
    are the frameworks followed by one static library under the builder's
    library directory for each of the fourteen extra libraries, in order. *)
Theorem assign_options_sets_seven (self : Target) (builder : Builder) :
  let t := Target._assign_zdoom_raze_cmake_options self builder in
  let opts := cmake_options t in
  let libs :=
    ["mpg123"; "fluidsynth"; "instpatch-1.0"; "glib-2.0"; "gobject-2.0"; "intl";
     "ffi"; "pcre"; "sndfile"; "ogg"; "vorbis"; "vorbisenc"; "FLAC"; "opus"] in
  (name t = name self ∧ url t = url self ∧ post_build t = post_build self)
  ∧ dict_get "CMAKE_EXE_LINKER_FLAGS" opts =
      Some (("-framework AudioUnit -framework AudioToolbox -framework Carbon "
             +:+ "-framework CoreAudio -framework CoreMIDI -framework CoreVideo -liconv")
            +:+ foldr (λ lib r, (" " +:+ lib_path builder +:+ "lib" +:+ lib +:+ ".a") +:+ r)
                  "" libs)
  ∧ dict_get "FORCE_INTERNAL_ZLIB" opts = Some "YES"
  ∧ dict_get "FORCE_INTERNAL_BZIP2" opts = Some "YES"
  ∧ dict_get "PK3_QUIET_ZIPDIR" opts = Some "YES"
  ∧ dict_get "DYN_OPENAL" opts = Some "NO"
  ∧ dict_get "OPENAL_INCLUDE_DIR" opts = Some (include_path builder)
  ∧ dict_get "OPENAL_LIBRARY" opts = Some (lib_path builder +:+ "libopenal.a")
  ∧ (∀ k, k ∉ ["CMAKE_EXE_LINKER_FLAGS"; "FORCE_INTERNAL_ZLIB";
               "FORCE_INTERNAL_BZIP2"; "PK3_QUIET_ZIPDIR"; "DYN_OPENAL";
               "OPENAL_INCLUDE_DIR"; "OPENAL_LIBRARY"] →
          dict_get k opts = dict_get k (cmake_options self))
  ∧ Target._assign_zdoom_raze_cmake_options t builder = t.
Proof.
  intros t opts libs.
  assert (dict_get "CMAKE_EXE_LINKER_FLAGS" opts =
            Some (foldl (λ acc lib,
                           acc +:+ " " +:+ lib_path builder +:+ "lib" +:+ lib +:+ ".a")
                    ("-framework AudioUnit -framework AudioToolbox -framework Carbon "
                     +:+ "-framework CoreAudio -framework CoreMIDI -framework CoreVideo -liconv")
                    libs)) as H1 by (unfold opts, t; cbn; lookup_option).
  assert (dict_get "FORCE_INTERNAL_ZLIB" opts = Some "YES") as H2
    by (unfold opts, t; cbn; lookup_option).
  assert (dict_get "FORCE_INTERNAL_BZIP2" opts = Some "YES") as H3
    by (unfold opts, t; cbn; lookup_option).
  assert (dict_get "PK3_QUIET_ZIPDIR" opts = Some "YES") as H4
    by (unfold opts, t; cbn; lookup_option).
  assert (dict_get "DYN_OPENAL" opts = Some "NO") as H5
    by (unfold opts, t; cbn; lookup_option).
  assert (dict_get "OPENAL_INCLUDE_DIR" opts = Some (include_path builder)) as H6
    by (unfold opts, t; cbn; lookup_option).
  assert (dict_get "OPENAL_LIBRARY" opts = Some (lib_path builder +:+ "libopenal.a"))
    as H7 by (unfold opts, t; cbn; lookup_option).
  split; [done|].
  split.
  { rewrite H1. f_equal.
    apply (foldl_append (λ lib, " " +:+ lib_path builder +:+ "lib" +:+ lib +:+ ".a")). }
  do 6 (split; [done|]).
  split.
  - intros k Hk. unfold opts, t. cbn.
    repeat (rewrite dict_get_set_ne; [|intros <-; apply Hk; set_solver]). done.
  - unfold Target._assign_zdoom_raze_cmake_options at 1.
    fold opts. fold libs.
    rewrite (dict_set_same _ _ _ H1), (dict_set_same _ _ _ H2),
      (dict_set_same _ _ _ H3), (dict_set_same _ _ _ H4),
      (dict_set_same _ _ _ H5).
    change (include_path builder) with (include_path builder).
    rewrite (dict_set_same _ _ _ H6), (dict_set_same _ _ _ H7).
    by destruct t.
Qed.

(** * What a detected name looks like *)

Section Captured.

Import Re.

Variable P : ascii → bool.

Lemma all_rev_app (s t : string) :
  Str.all P (String.rev_app s t) = Str.all P s && Str.all P t.
Proof.
  revert t. induction s as [|c s IH]; intros t; simpl; [done|].
  rewrite IH. simpl. destruct (P c), (Str.all P s); done.
Qed.

Lemma all_rev (s : string) : Str.all P (String.rev s) = Str.all P s.
Proof. unfold String.rev. rewrite all_rev_app. simpl. by rewrite andb_true_r. Qed.

(** Group 1 holds only characters of the classes that are captured. *)
Lemma star_captures (f : ascii → bool) (cap : bool) k (s acc g : string) :
  (cap = true → ∀ c, f c = true → P c = true) →
  (∀ acc' s', Str.all P acc' = true → k acc' s' = Some g → Str.all P g = true) →
  Str.all P acc = true →
  star f cap k acc s = Some g → Str.all P g = true.
Proof.
  intros Hf Hk. revert acc. induction s as [|c s IH]; intros acc Hacc H; simpl in H.
  - by apply (Hk acc "").
  - destruct (f c) eqn:Hc; [|by apply (Hk acc (String c s))].
    destruct (star f cap k (if cap then String c acc else acc) s) eqn:E.
    + injection H as ->. apply IH in E; [done|].
      destruct cap; [|done]. simpl. by rewrite (Hf eq_refl c Hc).
    + by apply (Hk acc (String c s)).
Qed.

Lemma match_here_captures p (acc s g : string) :
  Forall (λ a, captured a = true → ∀ c, cls a c = true → P c = true) p →
  Str.all P acc = true →
  match_here p acc s = Some g → Str.all P g = true.
Proof.
  intros Hp. revert acc s. induction Hp as [|a p Ha _ IH]; intros acc s Hacc H;
    simpl in H.
  - injection H as <-. by rewrite all_rev.
  - destruct (rep a).
    + destruct s as [|c s]; [done|]. destruct (cls a c) eqn:Hc; [|done].
      apply IH in H; [done|]. unfold keep.
      destruct (captured a); [|done]. simpl. by rewrite (Ha eq_refl c Hc).
    + eapply star_captures; [exact Ha| |exact Hacc|exact H].
      intros acc' s' Hacc' Hm. by eapply IH.
Qed.

Lemma search_captures p (s g : string) :
  Forall (λ a, captured a = true → ∀ c, cls a c = true → P c = true) p →
  search p s = Some g → Str.all P g = true.
Proof.
  intros Hp. induction s as [|c s IH]; simpl.
  - destruct (match_here p "" "") as [g'|] eqn:E; [|done].
    intros [= ->]. exact (match_here_captures p "" "" g Hp eq_refl E).
  - destruct (match_here p "" (String c s)) as [g'|] eqn:E; [|exact IH].
    intros [= ->]. exact (match_here_captures p "" _ g Hp eq_refl E).
Qed.

End Captured.

Lemma lower_char_not_upper (c : ascii) : Str.is_upper (Str.lower_char c) = false.
Proof. destruct c as [[] [] [] [] [] [] [] []]; reflexivity. Qed.

Lemma lower_char_fixed (c : ascii) :
  Str.is_upper c = false → Str.lower_char c = c.
Proof. unfold Str.lower_char. by intros ->. Qed.

Lemma lower_lower (s : string) : Str.lower (Str.lower s) = Str.lower s.
Proof.
  induction s as [|c s IH]; simpl; [done|].
  by rewrite IH, (lower_char_fixed _ (lower_char_not_upper c)).
Qed.

Lemma project_pattern_captures_words :
  Forall (λ a, Re.captured a = true → ∀ c, Re.cls a c = true → Str.is_word c = true)
    Re.project_pattern.
Proof. repeat constructor; simpl; intros; done. Qed.

(** X7: the name that the scan of the lines detects is never empty, is made
    of letters, digits and underscores only, and is already in lower case. *)
Theorem detected_name_shape (lines : list string) (n : string) :
  Builder.scan_lines lines = Some n →
  n ≠ "" ∧ Str.all Str.is_word n = true ∧ Str.lower n = n.
Proof.
  intros H. split; [|split].
  - apply scan_lines_truthy in H. by destruct n.
  - induction lines as [|l lines IH]; simpl in H; [done|].
    destruct (Re.search Re.project_pattern l) as [g|] eqn:E; [|by apply IH].
    injection H as <-. rewrite all_word_lower.
    eapply search_captures; [apply project_pattern_captures_words|exact E].
  - induction lines as [|l lines IH]; simpl in H; [done|].
    destruct (Re.search Re.project_pattern l) as [g|] eqn:E; [|by apply IH].
    injection H as <-. apply lower_lower.
Qed.

(** * Source preparation and generation *)

Section Processes.

Import Posix.

Variable sh : shell.

Lemma run_ok (argv : list string) (d : option string) (w w' : World)
    (c : completed) :
  subprocess.run sh argv d w = (inr c, w') →
  ∃ q, w' = log (EvExec argv q) (with_fs (fs_after c) w)
       ∧ sh argv q (environ w) (fs w) = Some c
       ∧ match d with
         | Some p => isdir w p = true
         | None => q = cwd w
         end.
Proof.
  unfold subprocess.run.
  destruct d as [p|].
  - destruct (isdir w p) eqn:Hd; [|done].
    destruct (walk _ _ _ _ _) as [q|]; [|done].
    destruct (sh argv q (environ w) (fs w)) as [c'|] eqn:E; [|done].
    intros [= <- <-]. by exists q.
  - destruct (sh argv (cwd w) (environ w) (fs w)) as [c'|] eqn:E; [|done].
    intros [= <- <-]. by exists (cwd w).
Qed.

Lemma check_call_ok (argv : list string) (d : option string) (w w' : World) :
  subprocess.check_call sh argv d w = (inr tt, w') →
  ∃ q c, w' = log (EvExec argv q) (with_fs (fs_after c) w)
         ∧ sh argv q (environ w) (fs w) = Some c
         ∧ returncode c = 0%Z
         ∧ match d with
           | Some p => isdir w p = true
           | None => q = cwd w
           end.
Proof.
  unfold subprocess.check_call, bind.
  destruct (subprocess.run sh argv d w) as [[e|c] w1] eqn:E; [done|].
  destruct (Z.eqb_spec (returncode c) 0); [|done]. intros [= <-].
  apply run_ok in E as (q & -> & Hsh & Hd). by exists q, c.
Qed.

(** A failing command raises and is the last thing that ran. *)
Lemma check_call_fails (argv : list string) (d : option string) (w : World)
    (q : list string) (c : completed) :
  match d with
  | Some p =>
      isdir w p = true
      ∧ walk symloop_max Existing (fs w) [] (names w p) = Some q
  | None => q = cwd w
  end →
  sh argv q (environ w) (fs w) = Some c →
  returncode c ≠ 0%Z →
  subprocess.check_call sh argv d w =
    (inl (CalledProcessError argv (returncode c)),
     log (EvExec argv q) (with_fs (fs_after c) w)).
Proof.
  intros Hd Hsh Hcode. unfold subprocess.check_call, bind, subprocess.run.
  destruct d as [p|].
  - destruct Hd as [-> ->]. rewrite Hsh.
    by destruct (Z.eqb_spec (returncode c) 0).
  - subst q. rewrite Hsh. by destruct (Z.eqb_spec (returncode c) 0).
Qed.

(** X8: when source preparation completes, what it did is at most two
    commands, in this order: [git clone <url> <source>] exactly when the
    source directory was not there, then [git checkout <commit>] exactly
    when a commit was asked for. *)
Theorem prepare_source_actions (self : Builder) (w w' : World) :
  Builder._prepare_source sh self w = (inr tt, w') →
  ∃ clone checkout,
    trace w' = trace w ++ clone ++ checkout
    ∧ (if path_exists w (source_path self) then clone = []
       else ∃ u q, url (target self) = Some u
                   ∧ clone = [EvExec ["git"; "clone"; u; source_path self] q])
    ∧ (if Str.truthy (checkout_commit self)
       then ∃ q, checkout =
                   [EvExec ["git"; "checkout"; default "" (checkout_commit self)] q]
       else checkout = []).
Proof.
  unfold Builder._prepare_source. unfold bind at 1. cbn [get].
  unfold bind at 1.
  destruct (path_exists w (source_path self)) eqn:Hex; cbn [negb].
  - cbn [ret]. destruct (Str.truthy (checkout_commit self)).
    + intros (q & c & -> & _)%check_call_ok. eexists [], [_].
      split; [done|]. split; [done|]. by exists q.
    + intros [= <-]. exists [], []. by rewrite !(right_id_L [] (++)).
  - destruct (url (target self)) as [u|]; [|done].
    destruct (subprocess.check_call sh _ _ w) as [[e|[]] w1] eqn:E; [done|].
    apply check_call_ok in E as (q1 & c1 & -> & _).
    destruct (Str.truthy (checkout_commit self)).
    + intros (q & c & -> & _)%check_call_ok. eexists [_], [_].
      split; [simpl; by rewrite <-(assoc_L (++))|]. split; [by exists u, q1|by exists q].
    + intros [= <-]. eexists [_], [].
      split; [by simpl|]. split; [by exists u, q1|done].
Qed.


(** X9: when the clone fails, source preparation raises and the checkout
    is not attempted: the clone is the only thing that ran. *)
Theorem prepare_source_clone_fails (self : Builder) (w : World) (u : string)
    (q : list string) (c : completed) :
  let argv := ["git"; "clone"; u; source_path self] in
  path_exists w (source_path self) = false →
  url (target self) = Some u →
  isdir w (root_path self) = true →
  walk symloop_max Existing (fs w) [] (names w (root_path self)) = Some q →
  sh argv q (environ w) (fs w) = Some c →
  returncode c ≠ 0%Z →
  Builder._prepare_source sh self w =
    (inl (CalledProcessError argv (returncode c)),
     log (EvExec argv q) (with_fs (fs_after c) w)).
Proof.
  intros argv Hex Hu Hd Hq Hsh Hcode.
  unfold Builder._prepare_source. unfold bind at 1. cbn [get].
  unfold bind at 1. rewrite Hex, Hu. cbn [negb]. fold argv.
  by rewrite (check_call_fails argv (Some (root_path self)) w q c).
Qed.

Lemma only_mkdirs_refl (w : World) : only_mkdirs w w.
Proof. split; [done|]. exists []. by rewrite (right_id_L [] (++)). Qed.

Lemma only_mkdirs_trans (w1 w2 w3 : World) :
  only_mkdirs w1 w2 → only_mkdirs w2 w3 → only_mkdirs w1 w3.
Proof.
  intros (He1 & evs1 & Ht1 & Hf1) (He2 & evs2 & Ht2 & Hf2).
  split; [congruence|]. exists (evs1 ++ evs2).
  split; [by rewrite Ht2, Ht1, <-(assoc_L (++))|by apply Forall_app].
Qed.

Lemma mkdir_names_only (s : string) (ns : list string) (w w' : World)
    (r : exn + unit) :
  mkdir_names s ns w = (r, w') → only_mkdirs w w'.
Proof.
  unfold mkdir_names. repeat case_match; intros [= _ <-];
    try apply only_mkdirs_refl.
  split; [done|]. eexists [_]. split; [done|]. repeat constructor. by eexists.
Qed.

Lemma forgiving_only (s : string) (ns : list string) (ok : bool)
    (w w' : World) (r : exn + unit) :
  match mkdir_names s ns w with
  | (inl e, w2) =>
      if is_OSError e && ok && isdir_names w2 ns
      then (inr tt, w2) else (inl e, w2)
  | r => r
  end = (r, w') → only_mkdirs w w'.
Proof.
  destruct (mkdir_names s ns w) as [[e|[]] w2] eqn:E;
    apply mkdir_names_only in E.
  - destruct (_ && _); by intros [= _ <-].
  - by intros [= _ <-].
Qed.

Lemma makedirs_rev_only (ok : bool) (s : string) (rns : list string)
    (w w' : World) (r : exn + unit) :
  makedirs_rev ok s rns w = (r, w') → only_mkdirs w w'.
Proof.
  revert w w' r. induction rns as [|c rns IH]; intros w w' r;
    cbn [makedirs_rev].
  - apply forgiving_only.
  - destruct (exists_names w (rev rns)); [apply forgiving_only|].
    destruct (makedirs_rev ok s rns w) as [[e|[]] w1] eqn:E; apply IH in E.
    + destruct (is_FileExistsError e); [|by intros [= _ <-]].
      destruct (decide (c = ".")); [by intros [= _ <-]|].
      intros H%forgiving_only. by eapply only_mkdirs_trans.
    + destruct (decide (c = ".")); [by intros [= _ <-]|].
      intros H%forgiving_only. by eapply only_mkdirs_trans.
Qed.

Lemma foldl_snoc_map {A B} (f : A → B) (l : list A) (base : list B) :
  foldl (λ acc x, acc ++ [f x]) base l = base ++ map f l.
Proof.
  revert base. induction l as [|x l IH]; intros base; simpl.
  - by rewrite (right_id_L [] (++)).
  - by rewrite IH, <-(assoc_L (++)).
Qed.

(** X10: generation needs [PATH]: when the environment has none it raises
    [KeyError] before anything is changed or started. *)
Theorem generate_cmake_needs_path (self : Builder) (w : World) :
  generate self = true →
  environ w !! "PATH" = None →
  Builder._generate_cmake sh self w = (inl (KeyError "PATH"), w).
Proof.
  intros Hg Hp. unfold Builder._generate_cmake, bind. rewrite Hg. cbn [negb get].
  by rewrite Hp.
Qed.

(** X11: when generation completes, the search path of the process has the
    CMake application directory appended, and after that directories were
    made and nothing else until cmake ran, which is the last thing that
    happened: cmake with the generator, the release build
    type, the prefix, the SDK when one is given, one [-Dkey=value] for each
    option of the target in the order of the dict, and the source path
    last. *)
Theorem generate_cmake_command (self : Builder) (w w' : World) :
  generate self = true →
  Builder._generate_cmake sh self w = (inr tt, w') →
  ∃ path q before,
    environ w !! "PATH" = Some path
    ∧ environ w' !! "PATH" =
        Some (path +:+ ":" +:+ "/Applications/CMake.app/Contents/bin")
    ∧ trace w' =
        trace w
        ++ EvSetenv "PATH" (path +:+ ":" +:+ "/Applications/CMake.app/Contents/bin")
           :: before
        ++ [EvExec
              (["cmake";
                if xcode self then "-GXcode" else "-GUnix Makefiles";
                "-DCMAKE_BUILD_TYPE=Release";
                "-DCMAKE_PREFIX_PATH=" +:+ prefix_path self]
               ++ match sdk_path self with
                  | Some (String c p) => ["-DCMAKE_OSX_SYSROOT=" +:+ String c p]
                  | _ => []
                  end
               ++ map (λ kv, "-D" +:+ kv.1 +:+ "=" +:+ kv.2)
                    (cmake_options (target self))
               ++ [source_path self]) q]
    ∧ Forall (λ e, ∃ at_, e = EvMkdir at_) before.
Proof.
  intros Hg. unfold Builder._generate_cmake. rewrite Hg. cbn [negb].
  unfold bind at 1. cbn [get]. unfold bind at 1.
  destruct (environ w !! "PATH") as [path|] eqn:Hp; [|done]. cbn [ret].
  unfold bind at 1. cbn [modify]. unfold bind at 1.
  set (path' := path +:+ Builder.pathsep +:+ "/Applications/CMake.app/Contents/bin").
  set (w1 := log (EvSetenv "PATH" path') (with_environ (<["PATH" := path']> (environ w)) w)).
  destruct (makedirs (build_path self) true w1) as [[e|[]] w2] eqn:Emk; [done|].
  apply makedirs_rev_only in Emk as (Henv & before & Htrace & Hmk).
  intros (q & c & -> & _)%check_call_ok.
  exists path, q, before. split; [done|]. split.
  { cbn [environ log with_fs]. rewrite Henv. unfold w1. cbn.
    by rewrite lookup_insert_eq. }
  split; [|done].
  cbn [trace log with_fs]. rewrite Htrace. unfold w1. cbn [trace log with_environ].
  rewrite <-!(assoc_L (++)). do 2 f_equal. cbn [app]. do 2 f_equal.
  rewrite foldl_snoc_map.
  destruct (sdk_path self) as [[|c0 p]|]; cbn [Str.truthy from_option];
    by rewrite <-?(assoc_L (++)).
Qed.

End Processes.

(** * The prefix directory *)

Section Prefix.

Import Posix.

Lemma growing_populate (self : Builder) :
  growing (let* _ := makedirs (include_path self) false in
           let* _ := makedirs (lib_path self) false in
           let* deps := scandir (deps_path self) in
           for_each deps (Builder.link_dependency self))%py.
Proof.
  apply growing_bind; [apply growing_makedirs|]. intros _.
  apply growing_bind; [apply growing_makedirs|]. intros _.
  apply growing_bind; [apply growing_scandir|]. intros deps.
  apply growing_for_each, growing_link_dependency.
Qed.

(** X12: without the rebuild flag, prefix preparation never removes or
    replaces an entry of the file system, whether it completes or fails:
    what was there before is there afterwards, unchanged. *)
Theorem prefix_preparation_keeps_entries (self : Builder) (w w' : World)
    (r : exn + unit) :
  rebuild_prefix self = false →
  Builder._create_prefix_directory self w = (r, w') →
  ∀ k nd, fs w !! k = Some nd → fs w' !! k = Some nd.
Proof.
  intros Hr. unfold Builder._create_prefix_directory. unfold bind at 1.
  cbn [get]. rewrite Hr. intros H k nd Hk.
  assert (extends w w') as [Hsub _].
  { destruct (path_exists w (prefix_path self)).
    - by injection H as _ <-.
    - by eapply growing_populate. }
  by eapply lookup_weaken.
Qed.



Lemma scandir_world (s : string) (w w' : World) (r : exn + list DirEntry) :
  scandir s w = (r, w') → w' = w.
Proof.
  unfold scandir, bind, listdir. repeat case_match; simplify_eq; by intros [= _ <-].
Qed.


(** What a computation adds are directories and links. *)
Lemma adds_refl (w : World) : adds_dirs_and_links w w.
Proof. intros k nd H. by left. Qed.

Lemma adds_trans (w1 w2 w3 : World) :
  adds_dirs_and_links w1 w2 → adds_dirs_and_links w2 w3 →
  adds_dirs_and_links w1 w3.
Proof.
  intros H12 H23 k nd H. apply H23 in H as [H|H]; [by apply H12|by right].
Qed.

Lemma adds_insert (w : World) (q : list string) (nd : node) (e : event) :
  nd = Dir ∨ (∃ t, nd = Link t) →
  adds_dirs_and_links w (log e (with_fs (<[q := nd]> (fs w)) w)).
Proof.
  intros Hnd k nd' H. cbn in H. destruct (decide (q = k)) as [<-|Hne].
  - rewrite lookup_insert_eq in H. injection H as <-. by right.
  - rewrite lookup_insert_ne in H by done. by left.
Qed.

Lemma mkdir_names_adds (s : string) (ns : list string) (w w' : World)
    (r : exn + unit) :
  mkdir_names s ns w = (r, w') → adds_dirs_and_links w w'.
Proof.
  unfold mkdir_names. repeat case_match; intros [= _ <-];
    first [apply adds_refl | apply adds_insert; by left].
Qed.

Lemma symlink_adds (src dst : string) (w w' : World) (r : exn + unit) :
  symlink src dst w = (r, w') → adds_dirs_and_links w w'.
Proof.
  unfold symlink. repeat case_match; intros [= _ <-];
    first [apply adds_refl | apply adds_insert; right; by eexists].
Qed.

Lemma makedirs_rev_adds (ok : bool) (s : string) (rns : list string)
    (w w' : World) (r : exn + unit) :
  makedirs_rev ok s rns w = (r, w') → adds_dirs_and_links w w'.
Proof.
  assert (∀ ns w w' r,
    match mkdir_names s ns w with
    | (inl e, w2) =>
        if is_OSError e && ok && isdir_names w2 ns
        then (inr tt, w2) else (inl e, w2)
    | r => r
    end = (r, w') → adds_dirs_and_links w w') as Hforgiving.
  { intros ns w0 w0' r0.
    destruct (mkdir_names s ns w0) as [[e|[]] w2] eqn:E;
      apply mkdir_names_adds in E.
    - destruct (_ && _); by intros [= _ <-].
    - by intros [= _ <-]. }
  revert w w' r. induction rns as [|c rns IH]; intros w w' r;
    cbn [makedirs_rev].
  - apply Hforgiving.
  - destruct (exists_names w (rev rns)); [apply Hforgiving|].
    destruct (makedirs_rev ok s rns w) as [[e|[]] w1] eqn:E; apply IH in E.
    + destruct (is_FileExistsError e); [|by intros [= _ <-]].
      destruct (decide (c = ".")); [by intros [= _ <-]|].
      intros H%Hforgiving. by eapply adds_trans.
    + destruct (decide (c = ".")); [by intros [= _ <-]|].
      intros H%Hforgiving. by eapply adds_trans.
Qed.

Lemma for_each_adds {A} (l : list A) (body : A → M unit) (w w' : World)
    (r : exn + unit) :
  (∀ x w w' r, body x w = (r, w') → adds_dirs_and_links w w') →
  for_each l body w = (r, w') → adds_dirs_and_links w w'.
Proof.
  intros Hb. revert w. induction l as [|x l IH]; intros w; cbn [for_each].
  - intros [= _ <-]. apply adds_refl.
  - unfold bind. destruct (body x w) as [[e|[]] w1] eqn:E; apply Hb in E.
    + by intros [= _ <-].
    + intros H%IH. by eapply adds_trans.
Qed.

Lemma link_dependency_adds (self : Builder) (dep : DirEntry) (w w' : World)
    (r : exn + unit) :
  Builder.link_dependency self dep w = (r, w') → adds_dirs_and_links w w'.
Proof.
  unfold Builder.link_dependency. unfold bind at 1. cbn [get].
  destruct (negb (is_dir dep w)); [intros [= _ <-]; apply adds_refl|].
  destruct (_ || _); [intros [= _ <-]; apply adds_refl|].
  unfold bind at 1.
  destruct (scandir _ w) as [[e|incs] w0] eqn:Ei;
    pose proof (scandir_world _ _ _ _ Ei) as ->;
    [intros [= _ <-]; apply adds_refl|].
  unfold bind at 1.
  destruct (for_each incs _ w) as [[e|[]] w1] eqn:Ef;
    (apply for_each_adds in Ef; [|intros ????; apply symlink_adds]).
  { by intros [= _ <-]. }
  unfold bind at 1.
  destruct (scandir _ w1) as [[e|libs] w2] eqn:El;
    pose proof (scandir_world _ _ _ _ El) as ->;
    [by intros [= _ <-]|].
  intros H. apply for_each_adds in H; [|intros ????; apply symlink_adds].
  by eapply adds_trans.
Qed.

Lemma populate_adds (self : Builder) (w w' : World) (r : exn + unit) :
  (let* _ := makedirs (include_path self) false in
   let* _ := makedirs (lib_path self) false in
   let* deps := scandir (deps_path self) in
   for_each deps (Builder.link_dependency self))%py w = (r, w') →
  adds_dirs_and_links w w'.
Proof.
  unfold bind at 1.
  destruct (makedirs (include_path self) false w) as [[e|[]] w1] eqn:E1;
    apply makedirs_rev_adds in E1; [by intros [= _ <-]|].
  unfold bind at 1.
  destruct (makedirs (lib_path self) false w1) as [[e|[]] w2] eqn:E2;
    apply makedirs_rev_adds in E2;
    [intros [= _ <-]; by eapply adds_trans|].
  unfold bind at 1.
  destruct (scandir _ w2) as [[e|deps] w3] eqn:E3;
    pose proof (scandir_world _ _ _ _ E3) as ->;
    [intros [= _ <-]; by eapply adds_trans|].
  intros H. apply for_each_adds in H; [|intros ????; apply link_dependency_adds].
  eapply adds_trans; [|exact H]. by eapply adds_trans.
Qed.

(** X14: after a rebuild that completed, no regular file is left anywhere
    below the prefix directory: every entry there is a directory or a
    link, so nothing of an earlier prefix survives as a file. *)
Theorem prefix_rebuild_leaves_no_file (self : Builder) (w w' : World) :
  rebuild_prefix self = true →
  path_exists w (prefix_path self) = true →
  Builder._create_prefix_directory self w = (inr tt, w') →
  ∃ q, locate w (names w (prefix_path self)) = Some q
       ∧ ∀ k nd, q `prefix_of` k → fs w' !! k = Some nd →
                 nd = Dir ∨ ∃ t, nd = Link t.
Proof.
  intros Hr Hex. unfold Builder._create_prefix_directory. unfold bind at 1.
  cbn [get]. rewrite Hex, Hr. unfold bind at 1. unfold rmtree at 1.
  destruct (locate w (names w (prefix_path self))) as [q|]; [|done].
  destruct q as [|c q]; [by destruct (fs w !! []) as [[]|]|].
  destruct (fs w !! (c :: q)) as [[| |]|]; try done.
  intros H%populate_adds. exists (c :: q). split; [done|].
  intros k nd Hk Hnd. apply H in Hnd as [Hnd|Hnd]; [|done].
  cbn in Hnd. apply map_lookup_filter_Some in Hnd as [_ Hnot]. by destruct Hnot.
Qed.

End Prefix.

(** * Writing files *)

Section Written.

Import Posix.

Implicit Types (f : FS) (cur todo q : list string) (n : nat).

Lemma walk_creating_cons n f cur (c : string) (rest : list string) :
  c ≠ "." → c ≠ ".." →
  walk n Creating f cur (c :: rest) =
    match f !! (cur ++ [c]) with
    | Some Dir => walk n Creating f (cur ++ [c]) rest
    | Some (File _) => if is_nil rest then Some (cur ++ [c]) else None
    | Some (Link t) =>
        match n with
        | O => None
        | S n' =>
            walk n' Creating f (if isabs t then [] else cur) (components t ++ rest)
        end
    | None => if is_nil rest then Some (cur ++ [c]) else None
    end.
Proof. intros Hd Hdd. by rewrite walk_cons. Qed.

(** The place where a file is opened for writing is never a link. *)
Lemma walk_creating_not_link n f cur todo q :
  (∀ t, node_at f cur ≠ Some (Link t)) →
  walk n Creating f cur todo = Some q →
  ∀ t, node_at f q ≠ Some (Link t).
Proof.
  revert cur todo. induction n as [|n IHn]; intros cur todo; revert cur;
    (induction todo as [|x todo IH]; intros cur Hcur H;
     [rewrite walk_nil in H; by injection H as <-|]);
    (destruct (decide (x = ".")) as [->|Hd];
     [rewrite walk_dot in H; by apply (IH cur)
     |destruct (decide (x = "..")) as [->|Hdd];
      [rewrite walk_dotdot in H;
       destruct (node_at f (parent cur)) as [[]|] eqn:Hp; try done;
       apply (IH (parent cur)); [|done]; rewrite Hp; by intros
      |rewrite walk_creating_cons in H by done]]);
    destruct (f !! (cur ++ [x])) as [[| |t]|] eqn:E; try done;
    try (destruct todo; [|done]; injection H as <-;
         rewrite node_at_snoc, E; by intros).
  - apply (IH (cur ++ [x])); [|done]. rewrite node_at_snoc, E. by intros.
  - apply (IH (cur ++ [x])); [|done]. rewrite node_at_snoc, E. by intros.
  - eapply IHn; [|exact H]. by destruct (isabs t).
Qed.

Lemma walk_creating_existing n f cur todo q :
  walk n Creating f cur todo = Some q →
  is_Some (node_at f q) →
  walk n Existing f cur todo = Some q.
Proof.
  intros H Hq. revert cur todo H.
  induction n as [|n IHn]; intros cur todo; revert cur;
    (induction todo as [|x todo IH]; intros cur H;
     [by rewrite walk_nil in *|]);
    (destruct (decide (x = ".")) as [->|Hd];
     [rewrite walk_dot in *; by apply IH
     |destruct (decide (x = "..")) as [->|Hdd];
      [rewrite walk_dotdot in *;
       destruct (is_dir_node (node_at f (parent cur))); [|done]; by apply IH
      |rewrite walk_creating_cons in H by done;
       rewrite walk_existing_cons by done]]);
    destruct (f !! (cur ++ [x])) as [[| |t]|] eqn:E; try done; auto;
    destruct todo; try done; injection H as <-;
    rewrite node_at_snoc, E in Hq; by destruct Hq.
Qed.

Lemma walk_existing_creating n f cur todo q :
  walk n Existing f cur todo = Some q →
  walk n Creating f cur todo = Some q.
Proof.
  revert cur todo.
  induction n as [|n IHn]; intros cur todo; revert cur;
    (induction todo as [|x todo IH]; intros cur H;
     [by rewrite walk_nil in *|]);
    (destruct (decide (x = ".")) as [->|Hd];
     [rewrite walk_dot in *; by apply IH
     |destruct (decide (x = "..")) as [->|Hdd];
      [rewrite walk_dotdot in *;
       destruct (is_dir_node (node_at f (parent cur))); [|done]; by apply IH
      |rewrite walk_existing_cons in H by done;
       rewrite walk_creating_cons by done]]);
    destruct (f !! (cur ++ [x])) as [[| |t]|] eqn:E; try done; auto.
Qed.

Lemma is_dir_node_written f q (p : list string) (d : content) :
  node_at f q ≠ Some Dir →
  is_dir_node (node_at f p) = true →
  is_dir_node (node_at (<[q := File d]> f) p) = true.
Proof.
  intros Hd. destruct p as [|x p]; [done|]. cbn [node_at].
  destruct (decide (q = x :: p)) as [->|Hne].
  - cbn [node_at] in Hd. by destruct (f !! (x :: p)) as [[]|].
  - by rewrite lookup_insert_ne.
Qed.

(** After a file is written, its name resolves to it. *)
Lemma walk_written n f cur todo q (d : content) :
  walk n Creating f cur todo = Some q →
  node_at f q ≠ Some Dir →
  (∀ t, node_at f q ≠ Some (Link t)) →
  walk n Existing (<[q := File d]> f) cur todo = Some q.
Proof.
  intros H Hd Hl. revert cur todo H.
  induction n as [|n IHn]; intros cur todo; revert cur;
    (induction todo as [|x todo IH]; intros cur H;
     [by rewrite walk_nil in *|]);
    (destruct (decide (x = ".")) as [->|Hdot];
     [rewrite walk_dot in *; by apply IH
     |destruct (decide (x = "..")) as [->|Hdd];
      [rewrite walk_dotdot in *;
       destruct (is_dir_node (node_at f (parent cur))) eqn:Hp; [|done];
       rewrite (is_dir_node_written _ _ _ d Hd Hp); by apply IH
      |rewrite walk_creating_cons in H by done;
       rewrite walk_existing_cons by done]]);
    (destruct (decide (q = cur ++ [x])) as [->|Hne];
     [rewrite lookup_insert_eq; rewrite node_at_snoc in Hd, Hl;
      destruct (f !! (cur ++ [x])) as [[| |t]|] eqn:E;
      [by destruct Hd|by destruct todo|by destruct (Hl t)|by destruct todo]
     |rewrite lookup_insert_ne by done;
      destruct (f !! (cur ++ [x])) as [[| |t]|] eqn:E; try done; auto;
      destruct todo; try done; by injection H as <-]).
Qed.

Lemma write_file_ok (s : string) (data : content) (w w' : World) :
  write_file s data w = (inr tt, w') →
  ∃ q, walk symloop_max Creating (fs w) [] (names w s) = Some q
       ∧ node_at (fs w) q ≠ Some Dir
       ∧ (∀ t, node_at (fs w) q ≠ Some (Link t))
       ∧ w' = log (EvWrite q data) (with_fs (<[q := File data]> (fs w)) w).
Proof.
  unfold write_file.
  destruct (walk _ _ _ _ _) as [q|] eqn:E; [|done].
  intros H. exists q. split; [done|].
  split; [intros Hq; rewrite Hq in H; by simpl in H|].
  split; [eapply walk_creating_not_link; [|exact E]; by intros|].
  destruct (node_at (fs w) q) as [[]|]; by simplify_eq.
Qed.

Lemma stat_written (s : string) (data : content) (w w' : World) :
  write_file s data w = (inr tt, w') →
  nonempty s = true →
  Str.endswith_char "/" s = false →
  stat w' s = Some (File data).
Proof.
  intros (q & Hq & Hd & Hl & ->)%write_file_ok Hs He.
  unfold stat. rewrite Hs. cbn [negb]. unfold names. cbn [cwd log with_fs fs].
  fold (names w s). rewrite (walk_written _ _ _ _ _ data Hq Hd Hl).
  destruct q as [|c q]; [done|]. cbn [node_at].
  by rewrite lookup_insert_eq, He.
Qed.

(** Writing to a name that did not exist adds an entry and changes no
    other. *)
Lemma write_file_new (s : string) (data : content) (w w' : World) :
  write_file s data w = (inr tt, w') →
  nonempty s = true →
  Str.endswith_char "/" s = false →
  path_exists w s = false →
  extends w w'.
Proof.
  intros (q & Hq & Hd & Hl & ->)%write_file_ok Hs He Hex.
  apply extends_insert, node_at_None.
  destruct (node_at (fs w) q) as [nd|] eqn:En; [|done].
  apply walk_creating_existing in Hq; [|by rewrite En].
  unfold path_exists, stat in Hex. rewrite Hs, Hq, En, He in Hex.
  by destruct nd.
Qed.

End Written.

(** * The post-build hook *)

Section Hook.

Import Posix.

Lemma nonempty_app (a b : string) : b ≠ "" → nonempty (a +:+ b) = true.
Proof. intros Hb. destruct a; [by destruct b|done]. Qed.

Lemma mkdir_names_error (s : string) (ns : list string) (w w' : World) (e : exn) :
  mkdir_names s ns w = (inl e, w') → is_OSError e = true.
Proof. unfold mkdir_names. repeat case_match; by intros [= <- _]. Qed.

Lemma makedirs_rev_error (ok : bool) (s : string) (rns : list string)
    (w w' : World) (e : exn) :
  makedirs_rev ok s rns w = (inl e, w') → is_OSError e = true.
Proof.
  assert (∀ ns w w' e,
    match mkdir_names s ns w with
    | (inl e, w2) =>
        if is_OSError e && ok && isdir_names w2 ns
        then (inr tt, w2) else (inl e, w2)
    | r => r
    end = (inl e, w') → is_OSError e = true) as Hforgiving.
  { intros ns w0 w0' e0.
    destruct (mkdir_names s ns w0) as [[e1|[]] w2] eqn:E; [|done].
    apply mkdir_names_error in E.
    destruct (_ && _); [done|]. by intros [= <- _]. }
  revert w w' e. induction rns as [|c rns IH]; intros w w' e;
    cbn [makedirs_rev].
  - apply Hforgiving.
  - destruct (exists_names w (rev rns)); [apply Hforgiving|].
    destruct (makedirs_rev ok s rns w) as [[e1|[]] w1] eqn:E.
    + destruct (is_FileExistsError e1).
      * destruct (decide (c = ".")); [done|apply Hforgiving].
      * intros [= <- <-]. by eapply IH.
    + destruct (decide (c = ".")); [done|apply Hforgiving].
Qed.

Lemma symlink_error (src dst : string) (w w' : World) (e : exn) :
  symlink src dst w = (inl e, w') → is_OSError e = true.
Proof. unfold symlink. repeat case_match; by intros [= <- _]. Qed.

Lemma write_file_error (s : string) (d : content) (w w' : World) (e : exn) :
  write_file s d w = (inl e, w') → is_OSError e = true.
Proof. unfold write_file. repeat case_match; by intros [= <- _]. Qed.

Lemma copy_error (src dst : string) (w w' : World) (e : exn) :
  copy src dst w = (inl e, w') → is_OSError e = true.
Proof.
  unfold copy. repeat case_match; try by intros [= <- _].
  all: apply write_file_error.
Qed.

(** The hook raises operating system errors only. *)
Lemma copy_moltenvk_error (builder : Builder) (w w' : World) (e : exn) :
  Target._copy_moltenvk builder w = (inl e, w') → is_OSError e = true.
Proof.
  unfold Target._copy_moltenvk. unfold bind at 1.
  destruct (makedirs _ true w) as [[e1|[]] w1] eqn:Em.
  - intros [= <- <-]. by eapply makedirs_rev_error.
  - unfold bind. cbn [get]. destruct (negb _); [|done].
    destruct (xcode builder); [apply symlink_error|apply copy_error].
Qed.

Lemma symlink_event (src dst : string) (w w' : World) (r : exn + unit) :
  symlink src dst w = (r, w') →
  ∃ evs, trace w' = trace w ++ evs ∧ Forall (λ e, is_exec e = false) evs.
Proof.
  unfold symlink. repeat case_match; intros [= _ <-];
    first [ exists []; by rewrite (right_id_L [] (++))
          | eexists [_]; split; [done|]; by repeat constructor ].
Qed.

Lemma copy_event (src dst : string) (w w' : World) (r : exn + unit) :
  copy src dst w = (r, w') →
  ∃ evs, trace w' = trace w ++ evs ∧ Forall (λ e, is_exec e = false) evs.
Proof.
  unfold copy, write_file. repeat case_match; intros [= _ <-];
    first [ exists []; by rewrite (right_id_L [] (++))
          | eexists [_]; split; [done|]; by repeat constructor ].
Qed.

(** The hook, however it ends, starts no process. *)
Lemma copy_moltenvk_events (builder : Builder) (w w' : World) (r : exn + unit) :
  Target._copy_moltenvk builder w = (r, w') →
  ∃ evs, trace w' = trace w ++ evs ∧ Forall (λ e, is_exec e = false) evs.
Proof.
  unfold Target._copy_moltenvk. unfold bind at 1.
  destruct (makedirs _ true w) as [[e1|[]] w1] eqn:Em;
    apply makedirs_rev_only in Em as (_ & dirs & Ht & Hf);
    assert (Forall (λ e, is_exec e = false) dirs) as Hdirs
      by (eapply Forall_impl; [exact Hf|]; by intros e [q ->]).
  - intros [= _ <-]. by exists dirs.
  - unfold bind. cbn [get].
    destruct (negb _).
    + intros H.
      assert (∃ evs, trace w' = trace w1 ++ evs
                     ∧ Forall (λ e, is_exec e = false) evs)
        as (evs & Ht' & Hf').
      { destruct (xcode builder);
          [by eapply symlink_event|by eapply copy_event]. }
      exists (dirs ++ evs). split; [|by apply Forall_app].
      by rewrite Ht', Ht, <-(assoc_L (++)).
    + intros [= _ <-]. by exists dirs.
Qed.

(** X15: in make mode a hook that completed has made directories and then
    written at most one file, and the library is at its place in the
    bundle afterwards; when a file was written, it is the library of the
    prefix, copied under the same name. *)
Theorem copy_moltenvk_installs (builder : Builder) (w w' : World) :
  let src := lib_path builder +:+ "libMoltenVK.dylib" in
  let dst_dir :=
    build_path builder +:+ name (target builder) +:+ ".app/Contents/MacOS"
      +:+ sep in
  let dst := dst_dir +:+ "libMoltenVK.dylib" in
  xcode builder = false →
  Target._copy_moltenvk builder w = (inr tt, w') →
  path_exists w' dst = true
  ∧ ∃ dirs written,
      trace w' = trace w ++ dirs ++ written
      ∧ Forall (λ e, ∃ at_, e = EvMkdir at_) dirs
      ∧ (written = []
         ∨ ∃ q data, written = [EvWrite q data]
                     ∧ stat w' src = Some (File data)
                     ∧ stat w' dst = Some (File data)).
Proof.
  intros src dst_dir dst Hx. unfold Target._copy_moltenvk. rewrite Hx.
  fold dst_dir. fold dst. fold src. unfold bind at 1.
  destruct (makedirs dst_dir true w) as [[e1|[]] w1] eqn:Em; [done|].
  apply makedirs_rev_only in Em as (_ & dirs & Ht & Hf).
  unfold bind. cbn [get]. destruct (path_exists w1 dst) eqn:Hex; cbn [negb].
  - intros [= <-]. split; [done|]. exists dirs, [].
    rewrite (right_id_L [] (++)). split; [done|]. split; [done|]. by left.
  - unfold copy. destruct (stat w1 src) as [[|data|]|] eqn:Es; try done.
    assert (isdir w1 dst = false) as ->.
    { unfold isdir. unfold path_exists in Hex. by destruct (stat w1 dst). }
    intros Hw.
    assert (nonempty dst = true) as Hne by by apply nonempty_app.
    assert (Str.endswith_char "/" dst = false) as Hend
      by (unfold dst; by rewrite endswith_app).
    pose proof (stat_written _ _ _ _ Hw Hne Hend) as Hst.
    pose proof (write_file_new _ _ _ _ Hw Hne Hend Hex) as Hext.
    apply write_file_ok in Hw as (q & _ & _ & _ & ->).
    split; [unfold path_exists; by rewrite Hst|].
    exists dirs, [EvWrite q data]. split; [cbn; by rewrite Ht, <-(assoc_L (++))|].
    split; [done|]. right. exists q, data. split; [done|].
    split; [by eapply stat_extends|done].
Qed.

End Hook.

(** * The build and the package *)

Section Build.

Import Posix.

Variable sh : shell.

Lemma check_output_ok (argv : list string) (d : option string) (w w' : World)
    (out : string) :
  subprocess.check_output sh argv d w = (inr out, w') →
  ∃ q c, w' = log (EvExec argv q) (with_fs (fs_after c) w)
         ∧ sh argv q (environ w) (fs w) = Some c
         ∧ returncode c = 0%Z
         ∧ out = stdout c
         ∧ match d with
           | Some p => isdir w p = true
           | None => q = cwd w
           end.
Proof.
  unfold subprocess.check_output, bind.
  destruct (subprocess.run sh argv d w) as [[e|c] w1] eqn:E; [done|].
  destruct (Z.eqb_spec (returncode c) 0); [|done]. intros [= <- <-].
  apply run_ok in E as (q & -> & Hsh & Hd). by exists q, c.
Qed.

Lemma run_error (argv : list string) (d : option string) (w w' : World)
    (e : exn) :
  subprocess.run sh argv d w = (inl e, w') → is_OSError e = true.
Proof. unfold subprocess.run. repeat case_match; by intros [= <- _]. Qed.

(** A [CalledProcessError] names the command that failed, and that
    command is the last thing that ran. *)
Lemma check_call_error (argv : list string) (d : option string) (w w' : World)
    (a : list string) (rc : Z) :
  subprocess.check_call sh argv d w = (inl (CalledProcessError a rc), w') →
  a = argv ∧ rc ≠ 0%Z ∧ ∃ q, last (trace w') = Some (EvExec a q).
Proof.
  unfold subprocess.check_call, bind.
  destruct (subprocess.run sh argv d w) as [[e|c] w1] eqn:E.
  - intros [= -> _]. by apply run_error in E.
  - destruct (Z.eqb_spec (returncode c) 0); [done|]. intros [= <- <- <-].
    apply run_ok in E as (q & -> & _). split; [done|]. split; [done|].
    exists q. cbn. by rewrite last_snoc.
Qed.

Lemma check_output_error (argv : list string) (d : option string)
    (w w' : World) (a : list string) (rc : Z) :
  subprocess.check_output sh argv d w = (inl (CalledProcessError a rc), w') →
  a = argv ∧ rc ≠ 0%Z ∧ ∃ q, last (trace w') = Some (EvExec a q).
Proof.
  unfold subprocess.check_output, bind.
  destruct (subprocess.run sh argv d w) as [[e|c] w1] eqn:E.
  - intros [= -> _]. by apply run_error in E.
  - destruct (Z.eqb_spec (returncode c) 0); [done|]. intros [= <- <- <-].
    apply run_ok in E as (q & -> & _). split; [done|]. split; [done|].
    exists q. cbn. by rewrite last_snoc.
Qed.

Lemma call_hook_events (self : Builder) (w w' : World) (r : exn + unit) :
  match post_build (target self) with
  | Some h => Target.call_hook h self
  | None => ret tt
  end w = (r, w') →
  ∃ hook, trace w' = trace w ++ hook
          ∧ Forall (λ e, is_exec e = false) hook
          ∧ (post_build (target self) = None → hook = []).
Proof.
  destruct (post_build (target self)) as [[]|].
  - intros (evs & Ht & Hf)%copy_moltenvk_events. by exists evs.
  - intros [= _ <-]. exists []. by rewrite (right_id_L [] (++)).
Qed.

(** X16: a build that completed ran the build tool once: in IDE mode
    [open <name>.xcodeproj] and nothing before it, in make mode
    [make -j <jobs>] right after the query for the number of processors,
    whose stripped answer is [<jobs>].  What follows the build
    tool is the hook's doing: it starts no process, and there is none of
    it for a target without hook. *)
Theorem build_target_commands (self : Builder) (w w' : World) :
  Builder._build_target sh self w = (inr tt, w') →
  ∃ probe args q hook,
    trace w' = trace w ++ probe ++ EvExec args q :: hook
    ∧ (if xcode self
       then probe = [] ∧ args = ["open"; name (target self) +:+ ".xcodeproj"]
       else ∃ c, sh subprocess.sysctl_argv (cwd w) (environ w) (fs w) = Some c
                 ∧ probe = [EvExec subprocess.sysctl_argv (cwd w)]
                 ∧ args = ["make"; "-j"; subprocess.strip (stdout c)])
    ∧ Forall (λ e, is_exec e = false) hook
    ∧ (post_build (target self) = None → hook = []).
Proof.
  unfold Builder._build_target. unfold bind at 1.
  destruct (xcode self).
  - cbn [ret]. unfold bind at 1.
    destruct (subprocess.check_call sh _ _ w) as [[e|[]] w1] eqn:Ec; [done|].
    apply check_call_ok in Ec as (q & c & -> & _).
    intros (hook & Ht & Hf & Hn)%call_hook_events.
    exists [], ["open"; name (target self) +:+ ".xcodeproj"], q, hook.
    split; [rewrite Ht; cbn; by rewrite <-(assoc_L (++))|done].
  - unfold bind at 1.
    destruct (subprocess.check_output sh _ None w) as [[e|out] w0] eqn:Eo; [done|].
    apply check_output_ok in Eo as (q0 & c & -> & Hsh & _ & -> & ->).
    unfold bind at 1. unfold subprocess.decode_ascii.
    destruct (subprocess.all_ascii (stdout c)); cbn [ret raise]; [|done].
    unfold bind at 1.
    destruct (subprocess.check_call sh _ _ _) as [[e|[]] w1] eqn:Ec; [done|].
    apply check_call_ok in Ec as (q & c1 & -> & _).
    intros (hook & Ht & Hf & Hn)%call_hook_events.
    exists [EvExec subprocess.sysctl_argv (cwd w)],
      ["make"; "-j"; subprocess.strip (stdout c)], q, hook.
    split; [rewrite Ht; cbn; by rewrite <-!(assoc_L (++))|].
    split; [by exists c|done].
Qed.

(** X17: when the build stage raises [CalledProcessError], the command the
    error names returned a non-zero status and is the last thing that
    happened: after a failed build the hook is not run. *)
Theorem build_failure_is_last (self : Builder) (w w' : World)
    (a : list string) (rc : Z) :
  Builder._build_target sh self w = (inl (CalledProcessError a rc), w') →
  rc ≠ 0%Z ∧ ∃ q, last (trace w') = Some (EvExec a q).
Proof.
  assert (∀ args w0,
    (let* _ := subprocess.check_call sh args (Some (build_path self)) in
     match post_build (target self) with
     | Some h => Target.call_hook h self
     | None => ret tt
     end)%py w0 = (inl (CalledProcessError a rc), w') →
    rc ≠ 0%Z ∧ ∃ q, last (trace w') = Some (EvExec a q)) as Hrest.
  { intros args w0. unfold bind.
    destruct (subprocess.check_call sh args _ w0) as [[e|[]] w1] eqn:Ec.
    - intros [= -> <-]. by apply check_call_error in Ec as (_ & ? & ?).
    - destruct (post_build (target self)) as [[]|]; [|done].
      by intros H%copy_moltenvk_error. }
  unfold Builder._build_target. unfold bind at 1.
  destruct (xcode self); [apply Hrest|].
  unfold bind at 1.
  destruct (subprocess.check_output sh _ None w) as [[e|out] w0] eqn:Eo.
  - intros [= -> <-]. by apply check_output_error in Eo as (_ & ? & ?).
  - unfold bind at 1. unfold subprocess.decode_ascii.
    destruct (subprocess.all_ascii out); cbn [ret raise]; [|done].
    apply Hrest.
Qed.

(** X18: a package that was made is at
    [<build path><name>-<version>.tar.bz2], where the version is the
    stripped answer of [git describe --tags], and holds the members that
    were collected, in their order.  The stage ran that one command,
    removed an earlier archive of the name if there was one, and wrote the
    archive twice at one place: empty when it was opened, complete when it
    was closed. *)
Theorem package_writes_archive (self : Builder) (w w' : World)
    (ms : list (string * TarInfo)) :
  Builder.package sh self w = (inr (Some ms), w') →
  ∃ c q rm at_,
    sh ["git"; "describe"; "--tags"] q (environ w) (fs w) = Some c
    ∧ returncode c = 0%Z
    ∧ stat w' (build_path self +:+ name (target self) +:+ "-"
                 +:+ subprocess.strip (stdout c) +:+ ".tar.bz2") =
        Some (File (TarBz2 (ms.*2)))
    ∧ trace w' =
        trace w ++ EvExec ["git"; "describe"; "--tags"] q :: rm
          ++ [EvWrite at_ (TarBz2 []); EvWrite at_ (TarBz2 (ms.*2))]
    ∧ (rm = [] ∨ ∃ p, rm = [EvRemove p]).
Proof.
  unfold Builder.package.
  destruct (negb (create_package self) || xcode self); [done|].
  unfold bind at 1.
  destruct (subprocess.check_output sh _ _ w) as [[e|out] w1] eqn:Eout; [done|].
  apply check_output_ok in Eout as (q & c & Hw1 & Hsh & Hrc & -> & _).
  unfold bind at 1. unfold subprocess.decode_ascii.
  destruct (subprocess.all_ascii (stdout c)); cbn [ret raise]; [|done].
  unfold bind at 1. cbn [get]. unfold bind at 1.
  set (package_path := build_path self +:+ _ +:+ "-" +:+ _ +:+ ".tar.bz2").
  assert (nonempty package_path = true) as Hne.
  { unfold package_path. rewrite <-!sapp_assoc. by apply nonempty_app. }
  assert (Str.endswith_char "/" package_path = false) as Hend.
  { unfold package_path. rewrite <-!sapp_assoc. by rewrite endswith_app. }
  destruct ((if path_exists w1 package_path then remove package_path else ret tt) w1)
    as [[e|[]] w2] eqn:Erm; [done|].
  assert (∃ rm, trace w2 = trace w1 ++ rm ∧ (rm = [] ∨ ∃ p, rm = [EvRemove p]))
    as (rm & Htr & Hrm).
  { destruct (path_exists w1 package_path).
    - unfold remove in Erm. repeat case_match; simplify_eq.
      all: eexists [_]; split; [done|]; right; by eexists.
    - injection Erm as <-. exists []. split; [|by left].
      by rewrite (right_id_L [] (++)). }
  unfold bind, tarfile.create.
  destruct (write_file package_path (TarBz2 []) w2) as [[e|[]] w3] eqn:Ew; [done|].
  destruct (tarfile.add _ w3 _ _ _) as [e|ms'] eqn:Eadd; [done|].
  destruct (write_file package_path _ w3) as [[e|[]] w4] eqn:Ew'; [done|].
  intros [= <- <-].
  pose proof (stat_written _ _ _ _ Ew' Hne Hend) as Hst.
  pose proof (stat_written _ _ _ _ Ew Hne Hend) as Hst3.
  apply write_file_ok in Ew as (p & Hp & Hd & Hl & Hw3).
  apply write_file_ok in Ew' as (p' & Hp' & _ & _ & Hw4).
  assert (p' = p) as ->.
  { assert (walk symloop_max Creating (fs w3) [] (names w3 package_path) = Some p)
      as Hp3.
    { subst w3. unfold names. cbn [cwd log with_fs fs]. fold (names w2 package_path).
      apply walk_existing_creating. by apply walk_written. }
    congruence. }
  exists c, q, rm, p. split; [done|]. split; [done|]. split; [done|].
  split; [|done].
  rewrite Hw4. cbn [trace log with_fs]. rewrite Hw3. cbn [trace log with_fs].
  rewrite Htr, Hw1. cbn [trace log with_fs].
  by rewrite <-!(assoc_L (++)).
Qed.

End Build.

(** * The properties on the example *)

Import Posix.

Lemma names_wf_list_to_map (l : list (list string * node)) :
  forallb (λ kv, forallb (λ s, negb (has_sep s)) kv.1) l = true →
  names_wf (list_to_map l).
Proof.
  intros H k nd Hk. apply elem_of_list_to_map_2 in Hk.
  rewrite forallb_forall in H. apply list_elem_of_In in Hk. apply H in Hk.
  cbn in Hk. rewrite forallb_forall in Hk.
  apply Forall_forall. intros s Hs. apply list_elem_of_In in Hs.
  apply Hk in Hs. unfold good_name. by destruct (has_sep s).
Qed.

Lemma demo_world_wf : world_wf Demo.world.
Proof.
  split; [|by repeat constructor].
  unfold Demo.world, Demo.files. cbn [fs].
  apply names_wf_list_to_map. vm_compute. reflexivity.
Qed.

Lemma demo_tools_wf (argv q : list string) (env : gmap string string) (f : FS)
    (c : completed) :
  names_wf f → Demo.tools argv q env f = Some c → names_wf (fs_after c).
Proof.
  intros Hf. unfold Demo.tools. repeat case_match; by intros [= <-].
Qed.

Lemma init_target_configured_witness :
  name (target Demo.packager) ∈ Target.get_target_names
  ∧ length (cmake_options (target Demo.packager)) = 7
  ∧ dict_get "OPENAL_LIBRARY" (cmake_options (target Demo.packager)) =
      Some "/r/prefix/lib/libopenal.a".
Proof.
  destruct (init_target_configured "/r" Demo.package_arguments Demo.world
              Demo.world Demo.packager) as (Hn & _ & Hl & _ & Ho & _).
  - reflexivity.
  - split; [exact Hn|]. split; [exact Hl|exact Ho].
Defined.

Lemma init_with_target_witness :
  ∃ self,
    Builder.__init__ "/r" Demo.gzdoom_arguments Demo.world = (inr self, Demo.world)
    ∧ name (target self) = "gzdoom"
    ∧ source_path self = "/r/source/gzdoom/"
    ∧ build_path self = "/r/build/gzdoom/make/".
Proof.
  destruct (init_with_target "/r" "gzdoom" Demo.gzdoom_arguments Demo.world)
    as (self & H1 & H2 & H3 & H4).
  - reflexivity.
  - vm_compute. left.
  - exists self. split; [exact H1|]. split; [exact H2|]. split; [exact H3|exact H4].
Defined.

Lemma parsed_init_failures_witness :
  Builder.__init__ "/r" Demo.quake_arguments Demo.world =
    (inl (KeyError "quake"), Demo.world).
Proof.
  destruct (parsed_init_failures "/r" Demo.quake_arguments Demo.world eq_refl)
    as (_ & _ & H).
  apply (H "/tmp/quake" (KeyError "quake") eq_refl); [discriminate|].
  apply pair_of_fst. vm_compute. reflexivity.
Defined.

Lemma setup_iff_registered_witness :
  ∃ t, Target.setup (Target.__init__ "raze") Demo.packager = inr t.
Proof.
  apply (proj2 (setup_iff_registered "raze" Demo.packager)).
  vm_compute. do 3 right. left.
Defined.

Lemma assign_options_sets_seven_witness :
  dict_get "MY_OPTION"
    (cmake_options
       (Target._assign_zdoom_raze_cmake_options
          (mkTarget "raze" None [("MY_OPTION", "1")] None) Demo.packager)) =
    Some "1".
Proof.
  destruct (assign_options_sets_seven
              (mkTarget "raze" None [("MY_OPTION", "1")] None) Demo.packager)
    as (_ & _ & _ & _ & _ & _ & _ & _ & H & _).
  rewrite H; [reflexivity|].
  rewrite !not_elem_of_cons. repeat split; try discriminate.
  apply not_elem_of_nil.
Defined.

Lemma detected_name_shape_witness :
  "raze" ≠ "" ∧ Str.all Str.is_word "raze" = true ∧ Str.lower "raze" = "raze".
Proof.
  apply (detected_name_shape (Str.readlines Demo.cmakelists) "raze").
  vm_compute. reflexivity.
Defined.

Lemma prepare_source_actions_witness :
  ∃ clone checkout,
    trace (Builder._prepare_source Demo.tools Demo.ide Demo.world).2 =
      trace Demo.world ++ clone ++ checkout
    ∧ (∃ u q, url (target Demo.ide) = Some u
              ∧ clone = [EvExec ["git"; "clone"; u; source_path Demo.ide] q])
    ∧ checkout = [].
Proof.
  destruct (prepare_source_actions Demo.tools Demo.ide Demo.world
              (Builder._prepare_source Demo.tools Demo.ide Demo.world).2)
    as (clone & checkout & Ht & Hc & Hk).
  - apply pair_of_fst. vm_compute. reflexivity.
  - exists clone, checkout. split; [exact Ht|]. split; [|exact Hk].
    assert (path_exists Demo.world (source_path Demo.ide) = false) as E
      by (vm_compute; reflexivity).
    rewrite E in Hc. exact Hc.
Defined.

Lemma prepare_source_clone_fails_witness :
  (Builder._prepare_source Demo.broken Demo.ide Demo.world).1 =
    inl (CalledProcessError
           ["git"; "clone"; "https://github.com/coelckers/gzdoom.git";
            "/r/source/gzdoom/"] 2).
Proof.
  rewrite (prepare_source_clone_fails Demo.broken Demo.ide Demo.world
             "https://github.com/coelckers/gzdoom.git" ["r"]
             (mkCompleted 2 "" Demo.files)).
  - reflexivity.
  - vm_compute. reflexivity.
  - reflexivity.
  - vm_compute. reflexivity.
  - vm_compute. reflexivity.
  - reflexivity.
  - discriminate.
Defined.

Lemma generate_cmake_needs_path_witness :
  Builder._generate_cmake Demo.tools Demo.packager Demo.pathless =
    (inl (KeyError "PATH"), Demo.pathless).
Proof.
  apply (generate_cmake_needs_path Demo.tools Demo.packager Demo.pathless).
  - reflexivity.
  - vm_compute. reflexivity.
Defined.

Lemma generate_cmake_command_witness :
  environ (Builder._generate_cmake Demo.tools Demo.packager Demo.world).2 !! "PATH" =
    Some "/usr/bin:/bin:/Applications/CMake.app/Contents/bin".
Proof.
  destruct (generate_cmake_command Demo.tools Demo.packager Demo.world
              (Builder._generate_cmake Demo.tools Demo.packager Demo.world).2)
    as (path & q & before & Hp & Hp' & _).
  - reflexivity.
  - apply pair_of_fst. vm_compute. reflexivity.
  - assert (environ Demo.world !! "PATH" = Some "/usr/bin:/bin") as E
      by (vm_compute; reflexivity).
    rewrite E in Hp. injection Hp as <-. exact Hp'.
Defined.

Lemma prefix_preparation_keeps_entries_witness :
  fs Demo.prepared !! ["r"; "deps"; "moltenvk"; "include"; "vulkan.h"] =
    Some (File (Bytes "h")).
Proof.
  assert ((Builder._create_prefix_directory Demo.packager Demo.world).1 = inr tt)
    as H1 by (vm_compute; reflexivity).
  apply (prefix_preparation_keeps_entries Demo.packager Demo.world Demo.prepared
           (inr tt)).
  - reflexivity.
  - exact (pair_of_fst _ _ H1).
  - vm_compute. reflexivity.
Defined.


Lemma prefix_rebuild_leaves_no_file_witness :
  ∃ q,
    locate Demo.prepared (names Demo.prepared (prefix_path Demo.rebuilder)) = Some q
    ∧ ∀ k nd,
        q `prefix_of` k →
        fs (Builder._create_prefix_directory Demo.rebuilder Demo.prepared).2 !! k =
          Some nd →
        nd = Dir ∨ ∃ t, nd = Link t.
Proof.
  apply (prefix_rebuild_leaves_no_file Demo.rebuilder Demo.prepared).
  - reflexivity.
  - vm_compute. reflexivity.
  - apply pair_of_fst. vm_compute. reflexivity.
Defined.

Lemma copy_moltenvk_installs_witness :
  path_exists (Target._copy_moltenvk Demo.maker Demo.prepared).2
    "/r/build/gzdoom/make/gzdoom.app/Contents/MacOS/libMoltenVK.dylib" = true.
Proof.
  apply (copy_moltenvk_installs Demo.maker Demo.prepared).
  - reflexivity.
  - apply pair_of_fst. vm_compute. reflexivity.
Defined.

Lemma build_target_commands_witness :
  ∃ probe args q hook,
    trace (Builder._build_target Demo.tools Demo.packager Demo.world).2 =
      trace Demo.world ++ probe ++ EvExec args q :: hook
    ∧ args = ["make"; "-j"; "8"]
    ∧ hook = [].
Proof.
  destruct (build_target_commands Demo.tools Demo.packager Demo.world
              (Builder._build_target Demo.tools Demo.packager Demo.world).2)
    as (probe & args & q & hook & Ht & (c & Hsh & _ & Ha) & _ & Hn).
  - apply pair_of_fst. vm_compute. reflexivity.
  - exists probe, args, q, hook. split; [exact Ht|]. split; [|by apply Hn].
    unfold Demo.tools, subprocess.sysctl_argv in Hsh. injection Hsh as <-.
    exact Ha.
Defined.

Lemma build_failure_is_last_witness :
  ∃ q, last (trace (Builder._build_target Demo.broken Demo.packager Demo.world).2) =
         Some (EvExec ["make"; "-j"; "8"] q).
Proof.
  apply (build_failure_is_last Demo.broken Demo.packager Demo.world
           (Builder._build_target Demo.broken Demo.packager Demo.world).2
           ["make"; "-j"; "8"] 2).
  apply pair_of_fst. vm_compute. reflexivity.
Defined.

Lemma package_writes_archive_witness :
  stat (Builder.package Demo.tools Demo.absolute Demo.world).2
    "/r/out/lzdoom-g4.5.0.tar.bz2" = Some (File (TarBz2 (Demo.members.*2))).
Proof.
  destruct (package_writes_archive Demo.tools Demo.absolute Demo.world
              (Builder.package Demo.tools Demo.absolute Demo.world).2 Demo.members)
    as (c & q & rm & at_ & Hsh & _ & Hst & _).
  - apply pair_of_fst. vm_compute. reflexivity.
  - unfold Demo.tools in Hsh. injection Hsh as <-. exact Hst.
Defined.

Lemma package_members_absolute_witness :
  (Builder.package Demo.tools Demo.absolute Demo.world).1 = inr (Some Demo.members)
  ∧ Forall (λ m, m.1 = "/r/out/" +:+ ti_name m.2
                 ∧ ti_uname m.2 = "root" ∧ ti_gname m.2 = "root"
                 ∧ ti_uid m.2 = 0%Z ∧ ti_gid m.2 = 0%Z) Demo.members.
Proof.
  split; [vm_compute; reflexivity|].
  apply (package_members_absolute Demo.tools Demo.absolute Demo.world
           (Builder.package Demo.tools Demo.absolute Demo.world).2
           "r" "/out/").
  - reflexivity.
  - discriminate.
  - exact demo_world_wf.
  - exact demo_tools_wf.
  - apply pair_of_fst. vm_compute. reflexivity.
Defined.
